(** * Weekly reactors leaderboard: the scan-and-score engine

    A shallow embedding of the two variants of the leaderboard bot that live
    in this repository:

    - the single-file worker (worker.js): [iterateMessages],
      [getReactorsForMessage], [topN], [buildNameMap], [runScan],
      [postFancyLeaderboard] and the slash-command embed;
    - the router variant (leaderboard.js, called from server.js):
      [generateLeaderboardEmbed], [getRecentMessages], [calculatePoints],
      [postLeaderboard], [generateAndPostLeaderboard].

    Network access is modelled by a record of response functions (what
    Discord answers to each request); every asynchronous function returns
    the list of requests it performed together with its outcome.  The
    [while (true)] loops take a bound on the number of iterations. *)

From Stdlib Require Import List String Ascii ZArith Lia Bool Arith.
From Stdlib Require Import Permutation Sorted DecimalString DecimalZ OrdersEx.
From Stdlib Require Import RelationClasses.
Import ListNotations.

Set Implicit Arguments.

Local Open Scope string_scope.
Local Open Scope Z_scope.

(* ================================================================== *)
(** ** JavaScript values used by the code *)

Module Js.

(** [String(n)] and template interpolation of an integral number. *)
Definition String_of (n : Z) : string := NilEmpty.string_of_int (Z.to_int n).

(** Truthiness of a string: only the empty string is falsy. *)
Definition truthy (s : string) : bool := negb (s =? "")%string.

(** Truthiness of a possibly undefined string. *)
Definition truthy_opt (s : option string) : bool :=
  match s with
  | Some s => truthy s
  | None => false
  end.

(** A parameter with a default value, [f(x = d)]: the default applies when
    the argument is omitted. *)
Definition defaulted {A} (x : option A) (d : A) : A :=
  match x with
  | Some x => x
  | None => d
  end.

(** Template interpolation of a possibly undefined string. *)
Definition interp (s : option string) : string :=
  match s with
  | Some s => s
  | None => "undefined"
  end.

(** [a < b] on numbers where [a] may be NaN ([None]): NaN compares false. *)
Definition lt_nan (a : option Z) (b : Z) : bool :=
  match a with
  | Some a => a <? b
  | None => false
  end.

(** [a >= b] on numbers where [a] may be NaN. *)
Definition ge_nan (a : option Z) (b : Z) : bool :=
  match a with
  | Some a => b <=? a
  | None => false
  end.

(** A [Set] of strings: its elements in insertion order. *)
Definition JsSet := list string.

Definition Set_has (x : string) (s : JsSet) : bool := existsb (String.eqb x) s.

Definition Set_add (x : string) (s : JsSet) : JsSet :=
  if Set_has x s then s else (s ++ [x])%list.

(** A [Map] from strings: its entries in insertion order. *)
Definition JsMap (V : Type) := list (string * V).

Fixpoint Map_get {V} (k : string) (m : JsMap V) : option V :=
  match m with
  | [] => None
  | (k', v) :: m' => if (k =? k')%string then Some v else Map_get k m'
  end.

(** [m.set(k, v)]: an existing key keeps its position. *)
Fixpoint Map_set {V} (k : string) (v : V) (m : JsMap V) : JsMap V :=
  match m with
  | [] => [(k, v)]
  | (k', v') :: m' =>
      if (k =? k')%string then (k', v) :: m' else (k', v') :: Map_set k v m'
  end.

(** [arr.slice(0, n)] for an integral [n]; a negative [n] counts from the
    end. *)
Definition slice0 {A} (n : Z) (l : list A) : list A :=
  if n <? 0 then firstn (Z.to_nat (Z.max (Z.of_nat (List.length l) + n) 0)) l
  else firstn (Z.to_nat n) l.

(** [arr.sort(cmp)]: the sort is stable; an element moves in front of
    another only when the comparator is positive on the pair in their
    current order. *)
Section Sort.
Context {A : Type}.
Variable cmp : A -> A -> Z.

Fixpoint insert (x : A) (l : list A) : list A :=
  match l with
  | [] => [x]
  | y :: l' => if cmp x y <=? 0 then x :: y :: l' else y :: insert x l'
  end.

Definition sort (l : list A) : list A := fold_right insert [] l.
End Sort.

(** [lines.join(sep)] *)
Fixpoint join (sep : string) (lines : list string) : string :=
  match lines with
  | [] => ""
  | [x] => x
  | x :: rest => x ++ sep ++ join sep rest
  end.

End Js.

Import Js.

(* ================================================================== *)
(** ** Data returned by the Discord API *)

Record Emoji := {
  emoji_name : string;
  emoji_id : option string
}.

Record ReactionSummary := {
  count : Z;
  emoji : option Emoji
}.

(** [timestamp] is the value of [Date.parse(msg.timestamp)], with [None]
    for NaN; [reactions] is absent on a message nobody reacted to. *)
Record Message := {
  msg_id : string;
  timestamp : option Z;
  author_id : string;
  reactions : option (list ReactionSummary)
}.

Record User := {
  user_id : string;
  bot : bool
}.

Record Field := {
  field_name : string;
  field_value : string;
  inline : bool
}.

Record Embed := {
  title : string;
  description : string;
  color : Z;
  footer : option string;
  embed_timestamp : string;
  fields : list Field
}.

Record Response (B : Type) := {
  ok : bool;
  status : Z;
  statusText : string;
  json : B
}.

(** What Discord answers: a page of messages of a channel before a cursor
    (the body is [None] when it is not an array), a page of the users who
    reacted with one emoji after a cursor, and the result of posting an
    embed (the body is the response text). *)
Record Discord := {
  getMessages : string -> string -> option string -> Response (option (list Message));
  getReactions : string -> string -> string -> string -> option string -> Response (list User);
  postMessage : string -> string -> Embed -> Response string
}.

Record Env := {
  SOURCE_CHANNEL_ID : option string;
  POST_CHANNEL_ID : option string;
  GUILD_ID : option string;
  DISCORD_BOT_TOKEN : option string
}.

(* ================================================================== *)
(** ** Asynchronous computations: requests performed and outcome *)

Inductive Event :=
| EvMessages (channel : string) (before : option string)
    (res : Response (option (list Message)))
| EvReactions (channel message emojiIdent : string) (after : option string)
    (res : Response (list User))
| EvPost (channel : string) (e : Embed) (res : Response string).

Inductive Outcome (A : Type) :=
| Returned (a : A)
| Threw (message : string)
| Pending.

Arguments Threw {A} message.
Arguments Pending {A}.

Definition Async (A : Type) : Type := (list Event * Outcome A)%type.

Definition ret {A} (a : A) : Async A := ([], Returned a).

Definition throw {A} (message : string) : Async A := ([], Threw message).

Definition pending {A} : Async A := ([], Pending).

Definition bind {A B} (c : Async A) (k : A -> Async B) : Async B :=
  match c with
  | (tr, Returned a) => let (tr', o) := k a in ((tr ++ tr')%list, o)
  | (tr, Threw e) => (tr, Threw e)
  | (tr, Pending) => (tr, Pending)
  end.

Notation "x <- c ;; k" := (bind c (fun x => k))
  (at level 61, c at next level, right associativity).

Definition trace {A} (c : Async A) : list Event := fst c.
Definition outcome {A} (c : Async A) : Outcome A := snd c.

(** [for (const x of xs) s = body(s, x)] with an asynchronous body. *)
Fixpoint foldA {S X} (body : S -> X -> Async S) (xs : list X) (s : S) : Async S :=
  match xs with
  | [] => ret s
  | x :: xs' => s' <- body s x ;; foldA body xs' s'
  end.

(** The query-string cursor: [if (c) qs.set(..., c)]. *)
Definition cursor (c : option string) : option string :=
  match c with
  | Some s => if truthy s then Some s else None
  | None => None
  end.

(** The [Authorization] header sent with every request. *)
Definition authorization (token : option string) : string := "Bot " ++ interp token.

(* ================================================================== *)
(** ** The single-file worker (worker.js) *)

Record ScanResult := {
  rows : list (string * Z);
  names : JsMap string;
  uniqueReactors : Z
}.

Record Meta := {
  meta_uniqueReactors : option Z
}.

Inductive Followup :=
| FollowEmbed (e : Embed)
| FollowContent (content : string).

Definition MS_IN_WEEK : Z := 7 * 24 * 60 * 60 * 1000.

Section Worker.

(** The host's [String.prototype.localeCompare] and
    [encodeURIComponent], and the Discord API behind [fetch]. *)
Variable localeCompare : string -> string -> Z.
Variable encodeURIComponent : string -> string.
Variable net : Discord.

(** [dFetch(env, `/channels/${channelId}/messages?...`)] *)
Definition dFetch_messages (env : Env) (channelId : string) (before : option string)
  : Async (Response (option (list Message))) :=
  let res := getMessages net (authorization (DISCORD_BOT_TOKEN env)) channelId before in
  ([EvMessages channelId before res], Returned res).

(** [dFetch(env, `/channels/${channelId}/messages/${messageId}/reactions/${emojiIdent}?...`)] *)
Definition dFetch_reactions (env : Env) (channelId messageId ident : string)
    (after : option string) : Async (Response (list User)) :=
  let res := getReactions net (authorization (DISCORD_BOT_TOKEN env)) channelId messageId ident after in
  ([EvReactions channelId messageId ident after res], Returned res).

(** [dFetch(env, `/channels/${channelId}/messages`, { method: 'POST', ... })] *)
Definition dFetch_post (env : Env) (channelId : string) (e : Embed) : Async (Response string) :=
  let res := postMessage net (authorization (DISCORD_BOT_TOKEN env)) channelId e in
  ([EvPost channelId e res], Returned res).

(** *** [iterateMessages]

    The generator is embedded together with the [for await] loop that
    consumes it: [body] is the loop body, run on each yielded message
    before the generator resumes. *)
Section Generator.
Context {St : Type}.
Variable body : St -> Message -> Async St.

(** [for (const msg of batch)]; the flag is set when the generator
    executed [return]. *)
Fixpoint yieldBatch (sinceTs : Z) (batch : list Message) (s : St) : Async (St * bool) :=
  match batch with
  | [] => ret (s, false)
  | msg :: rest =>
      let ts := timestamp msg in
      if lt_nan ts sinceTs then ret (s, true)
      else s' <- body s msg ;; yieldBatch sinceTs rest s'
  end.

Fixpoint iterateMessages (fuel : nat) (env : Env) (channelId : string) (sinceTs : Z)
    (before : option string) (s : St) : Async St :=
  match fuel with
  | O => pending
  | S fuel' =>
      res <- dFetch_messages env channelId (cursor before) ;;
      if negb (ok res) then throw ("Get messages failed: " ++ String_of (status res))
      else
        match json res with
        | None => ret s
        | Some [] => ret s
        | Some ((m0 :: _) as batch) =>
            r <- yieldBatch sinceTs batch s ;;
            if snd r then ret (fst r)
            else iterateMessages fuel' env channelId sinceTs
                   (Some (msg_id (last batch m0))) (fst r)
        end
  end.
End Generator.

(** The messages a consumer receives from the generator, in order. *)
Definition yielded (fuel : nat) (env : Env) (channelId : string) (sinceTs : Z)
    (before : option string) : Async (list Message) :=
  iterateMessages (fun acc msg => ret (acc ++ [msg])%list) fuel env channelId sinceTs before [].

(** *** [getReactorsForMessage] *)

Definition emojiIdent (e : Emoji) : string :=
  if truthy_opt (emoji_id e) then emoji_name e ++ ":" ++ interp (emoji_id e)
  else encodeURIComponent (emoji_name e).

(** [for (const u of batch) if (!u.bot) users.add(u.id)] *)
Definition addUsers (batch : list User) (users : JsSet) : JsSet :=
  fold_left (fun us u => if bot u then us else Set_add (user_id u) us) batch users.

(** The [while (true)] loop over the pages of one emoji. *)
Fixpoint reactionPages (fuel : nat) (env : Env) (channelId messageId ident : string)
    (after : option string) (users : JsSet) : Async JsSet :=
  match fuel with
  | O => pending
  | S fuel' =>
      res <- dFetch_reactions env channelId messageId ident (cursor after) ;;
      if negb (ok res) then throw ("Get reactions failed: " ++ String_of (status res))
      else
        let batch := json res in
        let users' := addUsers batch users in
        match batch with
        | [] => ret users'
        | u0 :: _ =>
            if (List.length batch <? 100)%nat then ret users'
            else reactionPages fuel' env channelId messageId ident
                   (Some (user_id (last batch u0))) users'
        end
  end.

(** One turn of [for (const r of reactionsSummary)]. *)
Definition reactionStep (fuel : nat) (env : Env) (channelId messageId : string)
    (users : JsSet) (r : ReactionSummary) : Async JsSet :=
  match emoji r with
  | None => ret users
  | Some e =>
      if count r =? 0 then ret users
      else reactionPages fuel env channelId messageId (emojiIdent e) None users
  end.

Definition getReactorsForMessage (fuel : nat) (env : Env) (channelId messageId : string)
    (reactionsSummary : option (list ReactionSummary)) : Async JsSet :=
  match reactionsSummary with
  | None => ret []
  | Some [] => ret []
  | Some rs => foldA (reactionStep fuel env channelId messageId) rs []
  end.

(** *** [topN] *)

(** [(a, b) => b[1] - a[1] || a[0].localeCompare(b[0])] *)
Definition byPointsThenId (a b : string * Z) : Z :=
  if snd b - snd a =? 0 then localeCompare (fst a) (fst b) else snd b - snd a.

Definition topN (map : JsMap Z) (n : option Z) : list (string * Z) :=
  slice0 (defaulted n 10) (sort byPointsThenId map).

(** *** [buildNameMap] *)

Definition buildNameMap (_env : Env) (_guildId : option string) (userIds : JsSet)
  : Async (JsMap string) :=
  ret (fold_left (fun names uid => Map_set uid ("<@" ++ uid ++ ">") names) userIds []).

(** *** [runScan] *)

(** [points.set(uid, (points.get(uid) || 0) + 1); seenUsers.add(uid)] *)
Definition credit (st : JsMap Z * JsSet) (uid : string) : JsMap Z * JsSet :=
  let (points, seenUsers) := st in
  (Map_set uid (match Map_get uid points with Some p => p | None => 0 end + 1) points,
   Set_add uid seenUsers).

(** The body of [for await (const msg of iterateMessages(...))]. *)
Definition scoreMessage (fuel : nat) (env : Env) (source : string)
    (st : JsMap Z * JsSet) (msg : Message) : Async (JsMap Z * JsSet) :=
  match reactions msg with
  | None => ret st
  | Some [] => ret st
  | Some _ =>
      reactors <- getReactorsForMessage fuel env source (msg_id msg) (reactions msg) ;;
      ret (fold_left credit reactors st)
  end.

(** The scan loop of [runScan]: the ledger [points] and [seenUsers]. *)
Definition scanLoop (fuel : nat) (env : Env) (source : string) (sinceTs : Z)
  : Async (JsMap Z * JsSet) :=
  iterateMessages (scoreMessage fuel env source) fuel env source sinceTs None ([], []).

Definition runScan (fuel : nat) (env : Env) (windowMs : option Z) (now : Z)
  : Async ScanResult :=
  let windowMs := defaulted windowMs MS_IN_WEEK in
  let source := SOURCE_CHANNEL_ID env in
  if negb (truthy_opt (DISCORD_BOT_TOKEN env)) || negb (truthy_opt source)
  then throw "Missing DISCORD_BOT_TOKEN or SOURCE_CHANNEL_ID"
  else
    let sinceTs := now - windowMs in
    st <- scanLoop fuel env (interp source) sinceTs ;;
    names <- buildNameMap env (GUILD_ID env) (snd st) ;;
    let rows := topN (fst st) (Some 10) in
    ret {| rows := rows; names := names;
           uniqueReactors := Z.of_nat (List.length (snd st)) |}.

End Worker.

(** *** Rendering: [postFancyLeaderboard] and the slash-command follow-up *)

Definition medal (i : nat) : string :=
  match i with
  | 0%nat => "🥇"
  | 1%nat => "🥈"
  | 2%nat => "🥉"
  | _ => "•"
  end.

(** [s || d] on strings. *)
Definition orElse (s d : string) : string := if truthy s then s else d.

(** [arr.map((x, i) => f(x, i))], counting from [i]. *)
Fixpoint mapi_from {A B} (f : A -> nat -> B) (i : nat) (l : list A) : list B :=
  match l with
  | [] => []
  | x :: l' => f x i :: mapi_from f (S i) l'
  end.

Definition renderLine (nameLookup : JsMap string) (row : string * Z) (i : nat) : string :=
  let (uid, pts) := row in
  let name :=
    orElse (match Map_get uid nameLookup with Some n => n | None => "" end)
           ("User " ++ uid) in
  medal i ++ " **" ++ String_of (Z.of_nat i + 1) ++ ". " ++ name ++ "** — "
    ++ String_of pts ++ " pt" ++ (if pts =? 1 then "" else "s").

Definition renderLines (nameLookup : JsMap string) (rows : list (string * Z)) : list string :=
  mapi_from (renderLine nameLookup) 0 rows.

Definition newline : string := String (ascii_of_nat 10) "".

(** The embed built by [postFancyLeaderboard]; [iso] is
    [new Date().toISOString()]. *)
Definition fancyEmbed (rows : list (string * Z)) (nameLookup : JsMap string)
    (meta : option Meta) (iso : string) : Embed :=
  let lines := renderLines nameLookup rows in
  {| title := "🏆 Weekly Reading Leaderboard";
     description := orElse (join newline lines) "No points this week.";
     color := 47252;
     footer := Some "Scoring: 1 point per message you react to in #daily-reading-check";
     embed_timestamp := iso;
     fields :=
       match meta with
       | Some m =>
           [{| field_name := "Unique reactors (7d)";
               field_value :=
                 String_of (match meta_uniqueReactors m with Some u => u | None => 0 end);
               inline := true |}]
       | None => []
       end |}.

Definition postFancyLeaderboard (net : Discord) (env : Env) (channelId : string)
    (rows : list (string * Z)) (nameLookup : JsMap string) (meta : option Meta)
    (iso : string) : Async unit :=
  let embed := fancyEmbed rows nameLookup meta iso in
  res <- dFetch_post net env channelId embed ;;
  if negb (ok res)
  then throw ("Post leaderboard failed: " ++ String_of (status res) ++ " " ++ json res)
  else ret tt.

(** The embed built by the [/leaderboard] slash command. *)
Definition slashEmbed (r : ScanResult) (iso : string) : Embed :=
  let lines := renderLines (names r) (rows r) in
  {| title := "🏆 Weekly Reading Leaderboard (last 7 days)";
     description := orElse (join newline lines) "No points this week.";
     color := 15844367;
     footer := Some "Slash-triggered snapshot";
     embed_timestamp := iso;
     fields :=
       [{| field_name := "Unique reactors";
           field_value := String_of (uniqueReactors r);
           inline := true |}] |}.

Section WorkerEntrypoints.

Variable localeCompare : string -> string -> Z.
Variable encodeURIComponent : string -> string.
Variable net : Discord.

(** The deferred work of the [/leaderboard] interaction: what is sent to
    the follow-up webhook. *)
Definition slashLeaderboard (fuel : nat) (env : Env) (now : Z) (iso : string)
  : option Followup :=
  match outcome (runScan localeCompare encodeURIComponent net fuel env None now) with
  | Returned r => Some (FollowEmbed (slashEmbed r iso))
  | Threw _ => Some (FollowContent "Failed to compute leaderboard.")
  | Pending => None
  end.

(** [/cron-test]: a 30 minute scan, posted to [POST_CHANNEL_ID]. *)
Definition cronTest (fuel : nat) (env : Env) (now : Z) (iso : string) : Async unit :=
  r <- runScan localeCompare encodeURIComponent net fuel env (Some (30 * 60 * 1000)) now ;;
  postFancyLeaderboard net env (interp (POST_CHANNEL_ID env)) (rows r) (names r)
    (Some {| meta_uniqueReactors := Some (uniqueReactors r) |}) iso.

(** [scheduled]: the weekly scan, posted to [POST_CHANNEL_ID]. *)
Definition scheduled (fuel : nat) (env : Env) (now : Z) (iso : string) : Async unit :=
  r <- runScan localeCompare encodeURIComponent net fuel env None now ;;
  postFancyLeaderboard net env (interp (POST_CHANNEL_ID env)) (rows r) (names r)
    (Some {| meta_uniqueReactors := Some (uniqueReactors r) |}) iso.

End WorkerEntrypoints.

(* ================================================================== *)
(** ** The router variant (leaderboard.js and its callers in server.js) *)

Module Leaderboard.

(** [(a, b) => b[1] - a[1]] *)
Definition byPoints (a b : string * Z) : Z := snd b - snd a.

(** [generateLeaderboardEmbed]; [iso] is [new Date().toISOString()]. *)
Definition generateLeaderboardEmbed (userPoints : JsMap Z) (iso : string) : Embed :=
  let sortedUsers := slice0 10 (sort byPoints userPoints) in
  let fields :=
    mapi_from
      (fun (e : string * Z) index =>
         let (userId, points) := e in
         {| field_name := "#" ++ String_of (Z.of_nat index + 1);
            field_value := "<@" ++ userId ++ "> - " ++ String_of points ++ " points";
            inline := false |})
      0 sortedUsers in
  {| title := "🏆 Weekly Reactors Leaderboard";
     description := "Top 10 users who received reactions in the past week:";
     color := 16766720;
     footer := None;
     embed_timestamp := iso;
     fields := fields |}.

(** [calculatePoints] *)
Definition calculatePoints (messages : list Message) : JsMap Z :=
  fold_left
    (fun userPoints message =>
       match reactions message with
       | None => userPoints
       | Some [] => userPoints
       | Some _ =>
           let userId := author_id message in
           Map_set userId
             (match Map_get userId userPoints with Some p => p | None => 0 end + 1)
             userPoints
       end)
    messages [].

Section Fetching.

Variable net : Discord.

(** The [while (true)] loop of [getRecentMessages]; [oneWeekAgo] is
    [Date.now() - MS_IN_WEEK].  A body that is not an array has no
    last element to read the timestamp of, and a negative [limit] is not a
    length an array can be given: a TypeError and a RangeError are thrown,
    of which the computation keeps the message. *)
Fixpoint recentLoop (fuel : nat) (channelId : string) (botToken : option string)
    (limit : Z) (oneWeekAgo : Z) (lastId : option string) (messages : list Message)
  : Async (list Message) :=
  match fuel with
  | O => pending
  | S fuel' =>
      let response := getMessages net (authorization botToken) channelId (cursor lastId) in
      r <- ([EvMessages channelId (cursor lastId) response], Returned response) ;;
      if negb (ok r) then throw ("Failed to fetch messages: " ++ statusText r)
      else
        match json r with
        | None => throw "Cannot read properties of undefined (reading 'timestamp')"
        | Some [] => ret messages
        | Some ((m0 :: _) as batch) =>
            let oldestInBatch := timestamp (last batch m0) in
            if lt_nan oldestInBatch oneWeekAgo then
              let recentInBatch :=
                filter (fun msg => ge_nan (timestamp msg) oneWeekAgo) batch in
              ret (messages ++ recentInBatch)%list
            else
              let messages := (messages ++ batch)%list in
              if limit <=? Z.of_nat (List.length messages) then
                if limit <? 0 then throw "Invalid array length"
                else ret (firstn (Z.to_nat limit) messages)
              else recentLoop fuel' channelId botToken limit oneWeekAgo
                     (Some (msg_id (last batch m0))) messages
        end
  end.

(** [getRecentMessages(channelId, botToken, limit = 100)] *)
Definition getRecentMessages (fuel : nat) (channelId : string) (botToken : option string)
    (limit : option Z) (now : Z) : Async (list Message) :=
  let limit := defaulted limit 100 in
  let oneWeekAgo := now - MS_IN_WEEK in
  recentLoop fuel channelId botToken limit oneWeekAgo None [].

(** [postLeaderboard] *)
Definition postLeaderboard (embed : Embed) (channelId : string) (botToken : option string)
  : Async unit :=
  let response := postMessage net (authorization botToken) channelId embed in
  r <- ([EvPost channelId embed response], Returned response) ;;
  if negb (ok r) then throw ("Failed to post leaderboard: " ++ statusText r)
  else ret tt.

(** [generateAndPostLeaderboard(env, limit)] *)
Definition generateAndPostLeaderboard (fuel : nat) (env : Env) (limit : option Z)
    (now : Z) (iso : string) : Async Embed :=
  messages <- getRecentMessages fuel (interp (SOURCE_CHANNEL_ID env))
                (DISCORD_BOT_TOKEN env) limit now ;;
  let userPoints := calculatePoints messages in
  let embed := generateLeaderboardEmbed userPoints iso in
  _ <- postLeaderboard embed (interp (POST_CHANNEL_ID env)) (DISCORD_BOT_TOKEN env) ;;
  ret embed.

(** server.js: the [/leaderboard] command and the [scheduled] handler
    call [generateAndPostLeaderboard(env)], the [/cron-test] route calls
    [generateAndPostLeaderboard(env, 500)]. *)
Definition leaderboardCommand (fuel : nat) (env : Env) (now : Z) (iso : string)
  : Async Embed :=
  generateAndPostLeaderboard fuel env None now iso.

Definition scheduled (fuel : nat) (env : Env) (now : Z) (iso : string) : Async Embed :=
  generateAndPostLeaderboard fuel env None now iso.

Definition cronTest (fuel : nat) (env : Env) (now : Z) (iso : string) : Async Embed :=
  generateAndPostLeaderboard fuel env (Some 500) now iso.

End Fetching.

End Leaderboard.

(* ================================================================== *)
(** ** Observations and predicates used to state the properties *)

(** A user's point total in a ledger, [points.get(uid) || 0]. *)
Definition pointTotal (u : string) (points : JsMap Z) : Z :=
  match Map_get u points with
  | Some p => p
  | None => 0
  end.

(** The reaction-user records that the requests of a trace returned. *)
Definition recordsOf (tr : list Event) : list User :=
  flat_map
    (fun ev =>
       match ev with
       | EvReactions _ _ _ _ res => if ok res then json res else []
       | _ => []
       end)
    tr.

(** The identifiers of the returned records whose bot flag is not set. *)
Definition nonBotIds (tr : list Event) : list string :=
  map user_id (filter (fun usr => negb (bot usr)) (recordsOf tr)).

(** The message-page requests of a trace. *)
Definition isMessagePage (ev : Event) : bool :=
  match ev with
  | EvMessages _ _ _ => true
  | _ => false
  end.

Definition messagePages (tr : list Event) : list Event := filter isMessagePage tr.

(** The responses of a trace that are not successes, by status code. *)
Definition failedStatus (ev : Event) : option Z :=
  match ev with
  | EvMessages _ _ res => if ok res then None else Some (status res)
  | EvReactions _ _ _ _ res => if ok res then None else Some (status res)
  | EvPost _ _ res => if ok res then None else Some (status res)
  end.

(** A message is stale when its timestamp precedes the window start. *)
Definition stale (sinceTs : Z) (m : Message) : bool := lt_nan (timestamp m) sinceTs.

(** The user appears as a non-bot reactor of the message: the message has
    reactions and one of the reaction-user records fetched for it carries
    the user's identifier without the bot flag. *)
Definition reactedTo (encodeURIComponent : string -> string) (net : Discord) (fuel : nat)
    (env : Env) (source : string) (u : string) (m : Message) : bool :=
  match reactions m with
  | None => false
  | Some [] => false
  | Some _ =>
      Set_has u
        (nonBotIds
           (trace (getReactorsForMessage encodeURIComponent net fuel env source
                     (msg_id m) (reactions m))))
  end.

(** The distinct messages, by identifier, among those of a list that
    satisfy a test. *)
Definition distinctMessages (p : Message -> bool) (msgs : list Message) : list string :=
  nodup string_dec (map msg_id (filter p msgs)).

(** The messages of a page in front of its first stale message. *)
Fixpoint freshPrefix (sinceTs : Z) (batch : list Message) : list Message :=
  match batch with
  | [] => []
  | m :: rest => if stale sinceTs m then [] else m :: freshPrefix sinceTs rest
  end.

Definition hasStale (sinceTs : Z) (batch : list Message) : bool :=
  existsb (stale sinceTs) batch.

(** What holds of the ledger, the seen users and the requests performed so
    far, at every point of the scan loop. *)
Definition ledgerInv (tr : list Event) (st : JsMap Z * JsSet) : Prop :=
  map fst (fst st) = snd st /\
  NoDup (snd st) /\
  (forall u, In u (snd st) <-> In u (nonBotIds tr)).

(** The scoring rule: a user's total is the number of distinct messages of
    [msgs] that the user reacted to. *)
Definition OnePointPerMessage (reacted : string -> Message -> bool)
    (msgs : list Message) (points : JsMap Z) : Prop :=
  forall u,
    pointTotal u points = Z.of_nat (List.length (distinctMessages (reacted u) msgs)).

(** leaderboard.js credits a message that has reactions to its author. *)
Definition receivedReactions (u : string) (m : Message) : bool :=
  match reactions m with
  | None => false
  | Some [] => false
  | Some _ => (author_id m =? u)%string
  end.

(** A run of a paginator stops at the first stale message: whenever one of
    its message pages holds a stale message [m] behind fresh messages
    [pre], no message page is requested afterwards, and the messages
    returned end with [pre], so nothing of the page from [m] on is among
    them. *)
Definition StopsAtFirstStale (sinceTs : Z) (run : Async (list Message)) : Prop :=
  forall t1 channel before res t2 pre m post,
    trace run = (t1 ++ EvMessages channel before res :: t2)%list ->
    ok res = true ->
    json res = Some (pre ++ m :: post)%list ->
    forallb (fun x => negb (stale sinceTs x)) pre = true ->
    stale sinceTs m = true ->
    messagePages t2 = [] /\
    exists earlier, outcome run = Returned (earlier ++ pre)%list.

(** The timestamps of a page are valid and do not increase. *)
Definition newestFirst (batch : list Message) : Prop :=
  StronglySorted
    (fun a b =>
       match timestamp a, timestamp b with
       | Some x, Some y => y <= x
       | _, _ => False
       end)
    batch /\
  Forall (fun m => timestamp m <> None) batch.

(** What the ranking needs of the host's [localeCompare]: it orders the
    identifiers totally and tells distinct identifiers apart. *)
Record Collation (localeCompare : string -> string -> Z) : Prop := {
  collation_total : forall a b, 0 < localeCompare a b -> localeCompare b a <= 0;
  collation_trans : forall a b c,
    localeCompare a b <= 0 -> localeCompare b c <= 0 -> localeCompare a c <= 0;
  collation_separates : forall a b,
    localeCompare a b <= 0 -> localeCompare b a <= 0 -> a = b
}.

(** More points first, and among equal points the smaller identifier. *)
Definition rankedBefore (localeCompare : string -> string -> Z) (a b : string * Z) : Prop :=
  snd b < snd a \/ (snd a = snd b /\ localeCompare (fst a) (fst b) <= 0).

(** More or as many points first. *)
Definition notFewerPoints (a b : string * Z) : Prop := snd b <= snd a.

(** The entries that leaderboard.js ranks, and the field it renders for the
    entry at an index. *)
Definition sortedUsers (userPoints : JsMap Z) : list (string * Z) :=
  slice0 10 (sort Leaderboard.byPoints userPoints).

Definition fieldOf (e : string * Z) (index : nat) : Field :=
  {| field_name := "#" ++ String_of (Z.of_nat index + 1);
     field_value := "<@" ++ fst e ++ "> - " ++ String_of (snd e) ++ " points";
     inline := false |}.

(** A response that is not a success. *)
Definition failed (ev : Event) : bool :=
  match failedStatus ev with
  | Some _ => true
  | None => false
  end.

(** The error the worker raises on a failed response. *)
Definition workerError (ev : Event) : string :=
  match ev with
  | EvMessages _ _ res => "Get messages failed: " ++ String_of (status res)
  | EvReactions _ _ _ _ res => "Get reactions failed: " ++ String_of (status res)
  | EvPost _ _ res =>
      "Post leaderboard failed: " ++ String_of (status res) ++ " " ++ json res
  end.

(** The error leaderboard.js raises on a failed response. *)
Definition leaderboardError (ev : Event) : string :=
  match ev with
  | EvMessages _ _ res => "Failed to fetch messages: " ++ statusText res
  | EvReactions _ _ _ _ res => ""
  | EvPost _ _ res => "Failed to post leaderboard: " ++ statusText res
  end.

(** A request that posts an embed. *)
Definition isPost (ev : Event) : bool :=
  match ev with
  | EvPost _ _ _ => true
  | _ => false
  end.

(** A computation propagates failures, with the errors [err]: every failed
    response among its requests makes it throw the error of that response.
    Hence it never returns, nor is still running, after a failure. *)
Definition Propagates (err : Event -> string) {A} (c : Async A) : Prop :=
  forall ev, In ev (trace c) -> failed ev = true -> outcome c = Threw (err ev).

(** A computation that only reads: none of its requests is a post. *)
Definition ReadOnly {A} (c : Async A) : Prop :=
  Forall (fun ev => isPost ev = false) (trace c).

(** [c2] returns what [c1] returns, after the same requests: the relation
    between a loop and the same loop with a larger bound on its turns. *)
Definition Extends {A} (c1 c2 : Async A) : Prop :=
  forall tr a, c1 = (tr, Returned a) -> c2 = (tr, Returned a).

(** A computation returns. *)
Definition Returns {A} (c : Async A) : Prop := exists a, outcome c = Returned a.

(** What Discord guarantees of the pages of a channel: a page holds at most
    the 100 messages asked for, and a page that holds fewer is the last
    one, so the page behind it is empty. *)
Definition pagesAtMost100 (net : Discord) (auth channelId : string) : Prop :=
  forall c batch,
    json (getMessages net auth channelId c) = Some batch -> (List.length batch <= 100)%nat.

Definition shortPageIsLast (net : Discord) (auth channelId : string) : Prop :=
  forall c m0 rest,
    json (getMessages net auth channelId c) = Some (m0 :: rest) ->
    (List.length (m0 :: rest) < 100)%nat ->
    json (getMessages net auth channelId (cursor (Some (msg_id (last (m0 :: rest) m0)))))
    = Some [].

(* ================================================================== *)
(** ** A reference host and small channel histories

    Concrete hosts and Discord answers on which the definitions above are
    evaluated. *)

Module Fixture.

Definition success {B} (b : B) : Response B :=
  {| ok := true; status := 200; statusText := "OK"; json := b |}.

Definition failure {B} (code : Z) (text : string) (b : B) : Response B :=
  {| ok := false; status := code; statusText := text; json := b |}.

(** Comparison of strings by code unit, as [localeCompare] orders
    identifiers made of digits and ASCII letters of one case. *)
Definition codeUnitCompare (a b : string) : Z :=
  match String_as_OT.compare a b with
  | Lt => -1
  | Eq => 0
  | Gt => 1
  end.

(** [encodeURIComponent] on names made of unreserved characters. *)
Definition unreserved (name : string) : string := name.

Definition reaction (name : string) (n : Z) : ReactionSummary :=
  {| count := n; emoji := Some {| emoji_name := name; emoji_id := None |} |}.

Definition message (id : string) (ts : Z) (author : string) (rs : list ReactionSummary)
  : Message :=
  {| msg_id := id; timestamp := Some ts; author_id := author;
     reactions := match rs with [] => None | _ => Some rs end |}.

Definition human (id : string) : User := {| user_id := id; bot := false |}.

Definition robot (id : string) : User := {| user_id := id; bot := true |}.

Definition cursor_eqb (a b : option string) : bool :=
  match a, b with
  | None, None => true
  | Some x, Some y => (x =? y)%string
  | _, _ => false
  end.

(** A Discord whose answers are listed in two tables: message pages by
    cursor, reaction-user pages by message, emoji and cursor.  A request
    that is not listed is answered by an empty page. *)
Definition tabled
    (pages : list (option string * Response (option (list Message))))
    (reactors : list (string * string * option string * Response (list User)))
  : Discord :=
  {| getMessages := fun _ _ before =>
       match find (fun e => cursor_eqb (fst e) before) pages with
       | Some e => snd e
       | None => success (Some [])
       end;
     getReactions := fun _ _ messageId ident after =>
       match
         find (fun e : string * string * option string * Response (list User) =>
                 let '(m, i, a, _) := e in
                 (m =? messageId)%string && (i =? ident)%string && cursor_eqb a after)
              reactors
       with
       | Some (_, _, _, r) => r
       | None => success []
       end;
     postMessage := fun _ _ _ => success "" |}.

Definition env : Env :=
  {| SOURCE_CHANNEL_ID := Some "daily-reading-check";
     POST_CHANNEL_ID := Some "leaderboard";
     GUILD_ID := Some "guild";
     DISCORD_BOT_TOKEN := Some "token" |}.

(** The scan time and the start of the seven day window before it. *)
Definition now : Z := 1000000000.
Definition windowStart : Z := now - MS_IN_WEEK.

(** Three messages in the window and one before it.  On [A], [u2] reacted
    with two emoji and a bot reacted as well. *)
Definition A : Message := message "A" 900000000 "alice" [reaction "thumbsup" 3; reaction "heart" 1].
Definition B : Message := message "B" 800000000 "bob" [reaction "thumbsup" 2].
Definition C : Message := message "C" 700000000 "carol" [].
Definition D : Message := message "D" 100000000 "dave" [reaction "thumbsup" 1].

Definition week : Discord :=
  tabled
    [(None, success (Some [A; B; C; D]))]
    [("A", "thumbsup", None, success [human "u1"; human "u2"; robot "bot9"]);
     ("A", "heart", None, success [human "u2"]);
     ("B", "thumbsup", None, success [human "u2"; human "u3"]);
     ("D", "thumbsup", None, success [human "u4"])].

(** Pages that are not ordered newest first: a stale message stands in
    front of a message of the window. *)
Definition E : Message := message "E" 50000000 "erin" [].

Definition outOfOrder : Discord := tabled [(None, success (Some [A; D; B; E]))] [].

Definition staleInside : Discord := tabled [(None, success (Some [A; D; B]))] [].

(** A Discord that refuses the first page of messages with a status code;
    the response has no status text, as over HTTP/2. *)
Definition down (code : Z) : Discord := tabled [(None, failure code "" None)] [].

(** A Discord that refuses the users of one reaction. *)
Definition reactionsDown (code : Z) : Discord :=
  tabled
    [(None, success (Some [A; B; C; D]))]
    [("A", "thumbsup", None, success [human "u1"; human "u2"; robot "bot9"]);
     ("A", "heart", None, failure code "" [])].

(** A channel whose messages are all older than the window. *)
Definition quiet : Discord := tabled [(None, success (Some [D; E]))] [].

(** A message with one emoji that 150 users placed: their list comes in a
    full page of 100 and a page of 50 behind the cursor [u99]. *)
Definition users (from n : nat) : list User :=
  map (fun i => human ("u" ++ String_of (Z.of_nat i))) (seq from n).

Definition P : Message := message "P" 900000000 "paula" [reaction "thumbsup" 150].

Definition crowd : Discord :=
  tabled
    [(None, success (Some [P; D]))]
    [("P", "thumbsup", None, success (users 0 100));
     ("P", "thumbsup", Some "u99", success (users 100 50))].

(** The number of message pages behind a cursor of the reference
    histories, which serve one page. *)
Definition onePage (c : option string) : nat :=
  match c with
  | None => 1
  | Some _ => 0
  end.

End Fixture.

(** A busy week: the channel is served in a page of 50 messages and a page
    of 100, newest first; alice wrote every message, each has a reaction,
    and only the last message of the second page is older than a week. *)
Module Backlog.

Definition post (i : nat) (ts : Z) : Message :=
  Fixture.message ("m" ++ String_of (Z.of_nat i)) ts "alice"
    [Fixture.reaction "thumbsup" 1].

Definition recent (from n : nat) : list Message :=
  map (fun i => post i (Fixture.now - Z.of_nat i)) (seq from n).


End Backlog.

(* ================================================================== *)
(** ** Further observations on the requests of a run *)

(** The messages of a page that was served with a success. *)
Definition pageOf (ev : Event) : list Message :=
  match ev with
  | EvMessages _ _ res =>
      if ok res then match json res with Some batch => batch | None => [] end else []
  | _ => []
  end.

(** The message-page requests of a trace follow one another by cursor: the
    first asks for the page behind [c], and each further one for the page
    behind the last message of the page before it; nothing follows a page
    that is empty or not an array. *)
Fixpoint chained (c : option string) (tr : list Event) : Prop :=
  match tr with
  | [] => True
  | EvMessages _ before res :: rest =>
      before = cursor c /\
      match json res with
      | Some (m0 :: batch) => chained (Some (msg_id (last (m0 :: batch) m0))) rest
      | _ => rest = []
      end
  | _ :: _ => False
  end.

(** The requests for the users of one reaction follow one another by
    cursor: the first asks for the users behind [c], each further one for
    the users behind the last user of the page before it, which held at
    least 100 users; nothing follows a page of fewer than 100 users, nor
    a response that is not a success. *)
Fixpoint chainedAfter (c : option string) (tr : list Event) : Prop :=
  match tr with
  | [] => True
  | EvReactions _ _ _ after res :: rest =>
      after = cursor c /\
      if ok res then
        match json res with
        | u0 :: batch =>
            if (List.length (u0 :: batch) <? 100)%nat then rest = []
            else chainedAfter (Some (user_id (last (u0 :: batch) u0))) rest
        | [] => rest = []
        end
      else rest = []
  | _ :: _ => False
  end.

(** The sum of the point totals of a ledger. *)
Definition totalPoints (points : JsMap Z) : Z := fold_right Z.add 0 (map snd points).

(** The message has a non-empty list of reactions. *)
Definition hasReactions (m : Message) : bool :=
  match reactions m with
  | None => false
  | Some [] => false
  | Some _ => true
  end.

(** The mention of a user, [`<@${uid}>`]. *)
Definition mention (uid : string) : string := "<@" ++ uid ++ ">".

(** Every request of a computation satisfies [P]. *)
Definition AllRequests (P : Event -> Prop) {A} (c : Async A) : Prop :=
  Forall P (trace c).

(** A read of one channel: a page of its messages, or a page of the users
    of a reaction to one of its messages. *)
Definition readsChannel (channelId : string) (ev : Event) : Prop :=
  match ev with
  | EvMessages ch _ _ => ch = channelId
  | EvReactions ch _ _ _ _ => ch = channelId
  | EvPost _ _ _ => False
  end.

(** A request for the users of one of the counted reactions of a message:
    a reaction summary of the list with an emoji and a count that is not 0
    names the emoji asked for. *)
Definition asksCountedReaction (encodeURIComponent : string -> string)
    (channelId messageId : string) (rs : list ReactionSummary) (ev : Event) : Prop :=
  exists r e after res,
    In r rs /\ emoji r = Some e /\ count r <> 0 /\
    ev = EvReactions channelId messageId (emojiIdent encodeURIComponent e) after res.

(* ================================================================== *)
(** ** The HTTP entry points: [fetch] of worker.js, the routes of server.js *)

(** The part of the environment that only the entry points read. *)
Record Secrets := {
  DISCORD_PUBLIC_KEY : option string;
  DISCORD_APPLICATION_ID : option string;
  ADMIN_KEY : option string
}.

(** What [verifyKey] of discord-interactions hands back: a boolean, or a
    promise of one (the function is asynchronous in recent versions of the
    library). *)
Inductive Verdict :=
| Sync (valid : bool)
| Promised (valid : bool).

(** [!!v]: a promise is an object, which is truthy. *)
Definition verdict_truthy (v : Verdict) : bool :=
  match v with
  | Sync valid => valid
  | Promised _ => true
  end.

(** [await v] *)
Definition awaited (v : Verdict) : bool :=
  match v with
  | Sync valid => valid
  | Promised valid => valid
  end.

(** The property [name] of the interaction's data: undefined or null, a
    string, or a value of another type. *)
Inductive JsName :=
| NameAbsent
| NameText (s : string)
| NameOther.

(** The object of an interaction.  [interaction_type] is [None] when the
    property [type] is not an integral number, [interaction_data] is
    [None] when [data] is undefined or null. *)
Record Interaction := {
  interaction_type : option Z;
  interaction_data : option JsName;
  interaction_id : option string;
  interaction_token : option string
}.

(** The values [JSON.parse] returns: null, a boolean, number or string
    with its truthiness, or an object. *)
Inductive Json :=
| JNull
| JPrimitive (truthy : bool)
| JObject (i : Interaction).

Inductive Parse :=
| SyntaxError (message : string)
| Parsed (value : Json).

(** The functions and constants imported from discord-interactions. *)
Record DiscordInteractions := {
  verifyKey : string -> option string -> option string -> option string -> Verdict;
  PING : Z;
  APPLICATION_COMMAND : Z;
  PONG : Z;
  CHANNEL_MESSAGE_WITH_SOURCE : Z;
  DEFERRED_CHANNEL_MESSAGE_WITH_SOURCE : Z;
  EPHEMERAL : Z
}.

(** The host's [JSON.parse] and [String.prototype.toLowerCase]. *)
Record Host := {
  JSON_parse : string -> Parse;
  toLowerCase : string -> string
}.

(** A slash command as it is registered. *)
Record Command := {
  command_name : string;
  command_description : string;
  command_type : option Z
}.

(** The body of a response of an entry point. *)
Inductive Body :=
| BodyEmpty
| BodyText (text : string)
| BodyType (type : Z)
| BodyMessage (type : Z) (content : string) (flags : option Z)
| BodyError (error : string)
| BodyTest (message : string) (embed : Embed).

(** A response of an entry point; [reply_json] tells whether it carries
    the content type of JSON. *)
Record Reply := {
  reply_status : Z;
  reply_json : bool;
  reply_body : Body
}.

(** What an entry point does besides answering: the requests of the core,
    the registration of commands, the messages to the webhook of an
    interaction, and what it writes to the console. *)
Inductive Call :=
| Core (ev : Event)
| PutCommands (auth applicationId guildId : string) (commands : list Command)
    (res : Response string)
| PostCommand (auth applicationId guildId : string) (command : Command)
    (res : Response string)
| Webhook (applicationId token : string) (followup : Followup)
| Callback (interactionId token : string) (type : Z)
| EditOriginal (applicationId token : string) (content : string) (embed : option Embed)
    (flags : option Z)
| Reddit
| Console (error : bool) (text : string) (detail : option string).

(** What becomes of a request whose response the code does not read:
    [fetch] resolves, or it rejects with an error when the request could
    not be delivered. *)
Inductive Delivery :=
| Delivered
| Rejected (message : string).

(** The answers of Discord to the registration of commands, where the
    body is the response text, and the delivery of the messages to an
    interaction: the follow-up to its webhook, the callback, and the edit
    of the original response. *)
Record Portal := {
  putCommands : string -> string -> string -> list Command -> Response string;
  postCommand : string -> string -> string -> Command -> Response string;
  postWebhook : string -> string -> Followup -> Delivery;
  postCallback : string -> string -> Z -> Delivery;
  patchOriginal : string -> string -> string -> option Embed -> option Z -> Delivery
}.

Definition Handled (A : Type) : Type := (list Call * Outcome A)%type.

Definition hret {A} (a : A) : Handled A := ([], Returned a).

Definition hthrow {A} (message : string) : Handled A := ([], Threw message).

Definition hbind {A B} (c : Handled A) (k : A -> Handled B) : Handled B :=
  match c with
  | (calls, Returned a) => let (calls', o) := k a in ((calls ++ calls')%list, o)
  | (calls, Threw e) => (calls, Threw e)
  | (calls, Pending) => (calls, Pending)
  end.

Notation "x <~ c ;; k" := (hbind c (fun x => k))
  (at level 61, c at next level, right associativity).

(** [try { c } catch (error) { handler(error.message) }] *)
Definition tryCatch {A} (c : Handled A) (handler : string -> Handled A) : Handled A :=
  match c with
  | (calls, Threw e) => let (calls', o) := handler e in ((calls ++ calls')%list, o)
  | _ => c
  end.

(** A call whose answer is [a]: a request whose response is read, or a
    line on the console. *)
Definition call {A} (c : Call) (a : A) : Handled A := ([c], Returned a).

(** [await fetch(...)] of a request whose response is not read: it throws
    the error of a rejected delivery. *)
Definition deliver (c : Call) (d : Delivery) : Handled unit :=
  ([c], match d with
        | Delivered => Returned tt
        | Rejected message => Threw message
        end).

(** A computation of the core run by an entry point. *)
Definition lift {A} (c : Async A) : Handled A := (map Core (trace c), outcome c).

Definition calls {A} (c : Handled A) : list Call := fst c.
Definition result {A} (c : Handled A) : Outcome A := snd c.

(** [new Response(text, { status })] and [new Response()] *)
Definition textResponse (status : Z) (text : string) : Reply :=
  {| reply_status := status; reply_json := false; reply_body := BodyText text |}.

Definition emptyResponse : Reply :=
  {| reply_status := 200; reply_json := false; reply_body := BodyEmpty |}.

(** [a === b] where [a] is a string or null and [b] is a string or
    undefined. *)
Definition same (a b : option string) : bool :=
  match a, b with
  | Some x, Some y => (x =? y)%string
  | _, _ => false
  end.

(** [t === c] on a number: the interaction's type against a constant. *)
Definition isType (t : option Z) (c : Z) : bool :=
  match t with
  | Some t => t =? c
  | None => false
  end.

(** *** worker.js *)

Module Handler.

Record Request := {
  pathname : string;
  method : string;
  x_signature_ed25519 : option string;
  x_signature_timestamp : option string;
  body : string;
  key : option string
}.

(** What [fetch] answers and does before it answers, and the work it
    leaves running behind the answer. *)
Record Handling := {
  reply : Handled Reply;
  deferred : Handled unit
}.

Definition respond (r : Reply) : Handling :=
  {| reply := hret r; deferred := hret tt |}.

Definition fails (message : string) : Handling :=
  {| reply := hthrow message; deferred := hret tt |}.

(** [Response.json(value)] *)
Definition jsonResponse (b : Body) : Reply :=
  {| reply_status := 200; reply_json := true; reply_body := b |}.

Definition leaderboardCommand : list Command :=
  [{| command_name := "leaderboard";
      command_description := "Show the top reactors in #daily-reading-check (last 7 days)";
      command_type := Some 1 |}].

Section Fetch.

Variable lib : DiscordInteractions.
Variable host : Host.
Variable localeCompare : string -> string -> Z.
Variable encodeURIComponent : string -> string.
Variable net : Discord.
Variable portal : Portal.

(** [registerPerGuild] *)
Definition registerPerGuild (env : Env) (secrets : Secrets) : Handled unit :=
  let auth := authorization (DISCORD_BOT_TOKEN env) in
  let applicationId := interp (DISCORD_APPLICATION_ID secrets) in
  let guildId := interp (GUILD_ID env) in
  let response := putCommands portal auth applicationId guildId leaderboardCommand in
  res <~ call (PutCommands auth applicationId guildId leaderboardCommand response) response ;;
  if negb (ok res)
  then hthrow ("Register failed: " ++ String_of (status res) ++ " " ++ json res)
  else hret tt.

(** [await fetch(...)] of a message to the webhook of an interaction. *)
Definition sendFollowup (applicationId token : string) (followup : Followup)
  : Handled unit :=
  deliver (Webhook applicationId token followup)
    (postWebhook portal applicationId token followup).

(** The work started by the [/leaderboard] command and left running: the
    scan, then the follow-up message to the interaction's webhook; the
    [catch] block, which sends the failure text, also runs when the
    follow-up of the [try] block is rejected. *)
Definition followUp (fuel : nat) (env : Env) (secrets : Secrets) (token : option string)
    (now : Z) (iso : string) : Handled unit :=
  let applicationId := interp (DISCORD_APPLICATION_ID secrets) in
  tryCatch
    (r <~ lift (runScan localeCompare encodeURIComponent net fuel env None now) ;;
     sendFollowup applicationId (interp token) (FollowEmbed (slashEmbed r iso)))
    (fun _ =>
       sendFollowup applicationId (interp token)
         (FollowContent "Failed to compute leaderboard.")).

Definition unknownInteraction : Handling :=
  respond (textResponse 400 "Unknown interaction").

(** [fetch(request, env)] *)
Definition fetch (request : Request) (env : Env) (secrets : Secrets) (fuel : nat)
    (now : Z) (iso : string) : Handling :=
  if (pathname request =? "/interactions")%string && (method request =? "POST")%string then
    let isValid :=
      verifyKey lib (body request) (x_signature_ed25519 request)
        (x_signature_timestamp request) (DISCORD_PUBLIC_KEY secrets) in
    if negb (verdict_truthy isValid) then respond (textResponse 401 "Bad request signature.")
    else
      match JSON_parse host (body request) with
      | SyntaxError e => fails e
      | Parsed JNull => fails "Cannot read properties of null (reading 'type')"
      | Parsed (JPrimitive _) => unknownInteraction
      | Parsed (JObject message) =>
          if isType (interaction_type message) (PING lib)
          then respond (jsonResponse (BodyType (PONG lib)))
          else if isType (interaction_type message) (APPLICATION_COMMAND lib) then
            match interaction_data message with
            | Some (NameText name) =>
                if (toLowerCase host name =? "leaderboard")%string then
                  {| reply :=
                       hret (jsonResponse
                               (BodyType (DEFERRED_CHANNEL_MESSAGE_WITH_SOURCE lib)));
                     deferred :=
                       followUp fuel env secrets (interaction_token message) now iso |}
                else unknownInteraction
            | Some NameOther =>
                fails "message.data?.name?.toLowerCase is not a function"
            | _ => unknownInteraction
            end
          else unknownInteraction
      end
  else if (pathname request =? "/register")%string && (method request =? "GET")%string then
    if negb (truthy_opt (ADMIN_KEY secrets)) || negb (same (key request) (ADMIN_KEY secrets))
    then respond (textResponse 403 "Forbidden")
    else
      {| reply :=
           _ <~ registerPerGuild env secrets ;;
           hret (textResponse 200 "Registered /leaderboard (per-guild).");
         deferred := hret tt |}
  else if (pathname request =? "/cron-test")%string && (method request =? "GET")%string then
    {| reply :=
         _ <~ lift (cronTest localeCompare encodeURIComponent net fuel env now iso) ;;
         hret (textResponse 200 "ok");
       deferred := hret tt |}
  else respond (textResponse 200 "OK").

End Fetch.

End Handler.

(** *** server.js *)

Module Server.

(** [request.query?.key]: undefined, a string, or the array of the values
    of a key that is given more than once. *)
Inductive QueryValue :=
| QueryAbsent
| QueryText (s : string)
| QueryMany.

Record Request := {
  x_signature_ed25519 : option string;
  x_signature_timestamp : option string;
  body : string;
  query_key : QueryValue
}.

(** What [verifyDiscordRequest] returns; [interaction] is undefined on
    an invalid request. *)
Record Verified := {
  isValid : bool;
  interaction : option Json
}.

(** The commands of commands.js. *)
Record Commands := {
  AWW_COMMAND : Command;
  INVITE_COMMAND : Command;
  LEADERBOARD_COMMAND : Command
}.

(** [new JsonResponse(body, init)]: the content type of JSON is set only
    when [init] is omitted. *)
Definition JsonResponse (b : Body) (init : option Z) : Reply :=
  match init with
  | None => {| reply_status := 200; reply_json := true; reply_body := b |}
  | Some status => {| reply_status := status; reply_json := false; reply_body := b |}
  end.

(** [!key] and [key !== env.ADMIN_KEY] *)
Definition query_truthy (q : QueryValue) : bool :=
  match q with
  | QueryAbsent => false
  | QueryText s => truthy s
  | QueryMany => true
  end.

Definition query_is (q : QueryValue) (k : option string) : bool :=
  match q, k with
  | QueryText s, Some k => (s =? k)%string
  | QueryAbsent, None => true
  | _, _ => false
  end.

(** Truthiness of a possibly undefined parsed value. *)
Definition json_truthy (j : option Json) : bool :=
  match j with
  | Some (JObject _) => true
  | Some (JPrimitive t) => t
  | _ => false
  end.

Section Routes.

Variable lib : DiscordInteractions.
Variable host : Host.
Variable commands : Commands.
Variable getCuteUrl : Outcome string.
Variable net : Discord.
Variable portal : Portal.

(** [router.get('/')] *)
Definition hello (secrets : Secrets) : Reply :=
  textResponse 200 ("👋 " ++ interp (DISCORD_APPLICATION_ID secrets)).

Definition unauthorized (request : Request) (secrets : Secrets) : bool :=
  negb (query_truthy (query_key request))
  || negb (query_is (query_key request) (ADMIN_KEY secrets)).

(** [router.get('/register')] *)
Definition register (request : Request) (env : Env) (secrets : Secrets) : Handled Reply :=
  if unauthorized request secrets then hret (textResponse 401 "Unauthorized")
  else
    tryCatch
      (let auth := authorization (DISCORD_BOT_TOKEN env) in
       let applicationId := interp (DISCORD_APPLICATION_ID secrets) in
       let guildId := interp (GUILD_ID env) in
       let res := postCommand portal auth applicationId guildId (LEADERBOARD_COMMAND commands) in
       response <~ call (PostCommand auth applicationId guildId
                           (LEADERBOARD_COMMAND commands) res) res ;;
       if negb (ok response)
       then hthrow ("Failed to register command: " ++ json response)
       else hret (textResponse 200 "Command registered successfully!"))
      (fun message => hret (textResponse 500 ("Failed to register command: " ++ message))).

(** [router.get('/cron-test')] *)
Definition cronTest (request : Request) (env : Env) (secrets : Secrets) (fuel : nat)
    (now : Z) (iso : string) : Handled Reply :=
  if unauthorized request secrets then hret (textResponse 401 "Unauthorized")
  else
    tryCatch
      (embed <~ lift (Leaderboard.cronTest net fuel env now iso) ;;
       hret (JsonResponse (BodyTest "Leaderboard test completed successfully!" embed) None))
      (fun message =>
         hret (textResponse 500 ("Failed to generate test leaderboard: " ++ message))).

(** [verifyDiscordRequest] *)
Definition verifyDiscordRequest (request : Request) (secrets : Secrets) : Handled Verified :=
  let isValidRequest :=
    truthy_opt (x_signature_ed25519 request)
    && (truthy_opt (x_signature_timestamp request)
        && awaited (verifyKey lib (body request) (x_signature_ed25519 request)
                      (x_signature_timestamp request) (DISCORD_PUBLIC_KEY secrets))) in
  if negb isValidRequest then hret {| isValid := false; interaction := None |}
  else
    match JSON_parse host (body request) with
    | SyntaxError e => hthrow e
    | Parsed value => hret {| isValid := true; interaction := Some value |}
    end.

Definition unknownType : Reply := JsonResponse (BodyError "Unknown Type") (Some 400).

(** [await fetch(...)] of the callback that acknowledges an interaction,
    and of an edit of the original response. *)
Definition acknowledge (interactionId token : string) : Handled unit :=
  deliver (Callback interactionId token (DEFERRED_CHANNEL_MESSAGE_WITH_SOURCE lib))
    (postCallback portal interactionId token (DEFERRED_CHANNEL_MESSAGE_WITH_SOURCE lib)).

Definition editOriginal (applicationId token content : string) (embed : option Embed)
    (flags : option Z) : Handled unit :=
  deliver (EditOriginal applicationId token content embed flags)
    (patchOriginal portal applicationId token content embed flags).

(** The case [LEADERBOARD_COMMAND] of the interactions route: the callback
    is awaited in front of the [try] block, the edit that reports a
    failure inside the [catch] block. *)
Definition leaderboard (i : Interaction) (env : Env) (secrets : Secrets) (fuel : nat)
    (now : Z) (iso : string) : Handled Reply :=
  let applicationId := interp (DISCORD_APPLICATION_ID secrets) in
  let token := interp (interaction_token i) in
  _ <~ acknowledge (interp (interaction_id i)) token ;;
  _ <~ tryCatch
         (embed <~ lift (Leaderboard.leaderboardCommand net fuel env now iso) ;;
          editOriginal applicationId token "Leaderboard has been posted! 🎉"
            (Some embed) None)
         (fun error =>
            _ <~ call (Console true "Error generating leaderboard:" (Some error)) tt ;;
            editOriginal applicationId token
              "Failed to generate leaderboard. Please try again later."
              None (Some (EPHEMERAL lib))) ;;
  hret emptyResponse.

(** [router.post('/')] *)
Definition interactions (request : Request) (env : Env) (secrets : Secrets) (fuel : nat)
    (now : Z) (iso : string) : Handled Reply :=
  v <~ verifyDiscordRequest request secrets ;;
  if negb (isValid v) || negb (json_truthy (interaction v))
  then hret (textResponse 401 "Bad request signature.")
  else
    match interaction v with
    | Some (JObject i) =>
        if isType (interaction_type i) (PING lib)
        then hret (JsonResponse (BodyType (PONG lib)) None)
        else if isType (interaction_type i) (APPLICATION_COMMAND lib) then
          match interaction_data i with
          | None => hthrow "Cannot read properties of undefined (reading 'name')"
          | Some NameAbsent =>
              hthrow "Cannot read properties of undefined (reading 'toLowerCase')"
          | Some NameOther =>
              hthrow "interaction.data.name.toLowerCase is not a function"
          | Some (NameText s) =>
              let name := toLowerCase host s in
              if (name =? toLowerCase host (command_name (AWW_COMMAND commands)))%string then
                cuteUrl <~ (([Reddit], getCuteUrl) : Handled string) ;;
                hret (JsonResponse
                        (BodyMessage (CHANNEL_MESSAGE_WITH_SOURCE lib) cuteUrl None) None)
              else if (name =? toLowerCase host (command_name (INVITE_COMMAND commands)))%string
              then
                let applicationId := interp (DISCORD_APPLICATION_ID secrets) in
                let INVITE_URL :=
                  "https://discord.com/oauth2/authorize?client_id=" ++ applicationId
                    ++ "&scope=applications.commands" in
                hret (JsonResponse
                        (BodyMessage (CHANNEL_MESSAGE_WITH_SOURCE lib) INVITE_URL
                           (Some (EPHEMERAL lib))) None)
              else if (name =? toLowerCase host
                                 (command_name (LEADERBOARD_COMMAND commands)))%string
              then leaderboard i env secrets fuel now iso
              else hret unknownType
          end
        else
          _ <~ call (Console true "Unknown Type" None) tt ;;
          hret unknownType
    | _ =>
        _ <~ call (Console true "Unknown Type" None) tt ;;
        hret unknownType
    end.

(** [router.all('*')] *)
Definition notFound : Reply := textResponse 404 "Not Found.".

(** [scheduled] *)
Definition scheduled (env : Env) (fuel : nat) (now : Z) (iso : string) : Handled unit :=
  tryCatch
    (_ <~ lift (Leaderboard.scheduled net fuel env now iso) ;;
     call (Console false "Weekly leaderboard generated successfully" None) tt)
    (fun error =>
       call (Console true "Failed to generate weekly leaderboard:" (Some error)) tt).

End Routes.

End Server.

(** *** Observations on the entry points *)

(** A call that reaches Discord or another service, as opposed to a line
    on the console. *)
Definition isRequest (c : Call) : bool :=
  match c with
  | Console _ _ _ => false
  | _ => true
  end.

(** A call that writes to Discord: a post of the core, a registration, or
    a message to an interaction. *)
Definition isWrite (c : Call) : bool :=
  match c with
  | Core ev => isPost ev
  | PutCommands _ _ _ _ _ | PostCommand _ _ _ _ _ => true
  | Webhook _ _ _ | Callback _ _ _ | EditOriginal _ _ _ _ _ => true
  | Reddit => false
  | Console _ _ _ => false
  end.

(** A registration of commands. *)
Definition isRegistration (c : Call) : bool :=
  match c with
  | PutCommands _ _ _ _ _ | PostCommand _ _ _ _ _ => true
  | _ => false
  end.

(** The admin key is set, not empty, and the key given. *)
Definition adminKeyGiven (key : option string) (secrets : Secrets) : Prop :=
  exists k, ADMIN_KEY secrets = Some k /\ k <> "" /\ key = Some k.


(** A reference library, host and requests. *)
Module Sample.

(** A library that accepts the signature ["signed"], with the values of
    the constants in Discord's API. *)
Definition lib (asynchronous : bool) : DiscordInteractions :=
  {| verifyKey := fun _ signature _ _ =>
       let valid := same signature (Some "signed") in
       if asynchronous then Promised valid else Sync valid;
     PING := 1;
     APPLICATION_COMMAND := 2;
     PONG := 1;
     CHANNEL_MESSAGE_WITH_SOURCE := 4;
     DEFERRED_CHANNEL_MESSAGE_WITH_SOURCE := 5;
     EPHEMERAL := 64 |}.

Definition command (type : Z) (name : string) : Interaction :=
  {| interaction_type := Some type;
     interaction_data := Some (NameText name);
     interaction_id := Some "42";
     interaction_token := Some "tok" |}.

(** A host that parses three bodies, and lower-cases nothing: the names
    used are in lower case. *)
Definition host : Host :=
  {| JSON_parse := fun body =>
       if (body =? "ping")%string then Parsed (JObject (command 1 ""))
       else if (body =? "leaderboard")%string then Parsed (JObject (command 2 "leaderboard"))
       else if (body =? "null")%string then Parsed JNull
       else SyntaxError "Unexpected token";
     toLowerCase := fun s => s |}.

Definition commands : Server.Commands :=
  {| Server.AWW_COMMAND :=
       {| command_name := "awwww"; command_description := "Drop some cuteness";
          command_type := None |};
     Server.INVITE_COMMAND :=
       {| command_name := "invite"; command_description := "Get an invite link";
          command_type := None |};
     Server.LEADERBOARD_COMMAND :=
       {| command_name := "leaderboard"; command_description := "Weekly leaderboard";
          command_type := None |} |}.

(** A Discord that accepts or refuses the registrations, and a transport
    that delivers the messages to an interaction or fails on them. *)
Definition portal (accepts : bool) : Portal :=
  {| putCommands := fun _ _ _ _ =>
       if accepts then Fixture.success "[]" else Fixture.failure 403 "" "Missing Access";
     postCommand := fun _ _ _ _ =>
       if accepts then Fixture.success "{}" else Fixture.failure 403 "" "Missing Access";
     postWebhook := fun _ _ _ => if accepts then Delivered else Rejected "fetch failed";
     postCallback := fun _ _ _ => if accepts then Delivered else Rejected "fetch failed";
     patchOriginal := fun _ _ _ _ _ =>
       if accepts then Delivered else Rejected "fetch failed" |}.

Definition secrets : Secrets :=
  {| DISCORD_PUBLIC_KEY := Some "public";
     DISCORD_APPLICATION_ID := Some "app";
     ADMIN_KEY := Some "s3cret" |}.

Definition interaction (signature : option string) (body : string) : Handler.Request :=
  {| Handler.pathname := "/interactions";
     Handler.method := "POST";
     Handler.x_signature_ed25519 := signature;
     Handler.x_signature_timestamp := Some "1";
     Handler.body := body;
     Handler.key := None |}.

Definition get (pathname : string) (key : option string) : Handler.Request :=
  {| Handler.pathname := pathname;
     Handler.method := "GET";
     Handler.x_signature_ed25519 := None;
     Handler.x_signature_timestamp := None;
     Handler.body := "";
     Handler.key := key |}.

Definition routed (signature : option string) (body : string) (key : Server.QueryValue)
  : Server.Request :=
  {| Server.x_signature_ed25519 := signature;
     Server.x_signature_timestamp := Some "1";
     Server.body := body;
     Server.query_key := key |}.

End Sample.

(* ================================================================== *)
(** ** Basic facts: sets, maps and asynchronous computations *)

Lemma Set_has_In (x : string) (s : JsSet) : Set_has x s = true <-> In x s.
Proof.
  unfold Set_has. rewrite existsb_exists. split.
  - intros [y [Hy He]]. apply String.eqb_eq in He. now subst.
  - intros H. exists x. split; [assumption | apply String.eqb_refl].
Qed.

Lemma Set_add_In (x y : string) (s : JsSet) : In y (Set_add x s) <-> y = x \/ In y s.
Proof.
  unfold Set_add. destruct (Set_has x s) eqn:E.
  - apply Set_has_In in E. split; [auto | intros [-> | H]; assumption].
  - rewrite in_app_iff. simpl. intuition.
Qed.

Lemma Set_add_NoDup (x : string) (s : JsSet) : NoDup s -> NoDup (Set_add x s).
Proof.
  intros H. unfold Set_add. destruct (Set_has x s) eqn:E; [assumption |].
  apply NoDup_app; [assumption | repeat constructor; simpl; tauto |].
  intros y Hy [<- | []]. apply Set_has_In in Hy. congruence.
Qed.

Lemma Map_get_set_same {V} (k : string) (v : V) (m : JsMap V) :
  Map_get k (Map_set k v m) = Some v.
Proof.
  induction m as [| [k' v'] m IH]; simpl.
  - now rewrite String.eqb_refl.
  - destruct (k =? k')%string eqn:E; simpl; rewrite E; [reflexivity | exact IH].
Qed.

Lemma Map_get_set_other {V} (k k0 : string) (v : V) (m : JsMap V) :
  k0 <> k -> Map_get k0 (Map_set k v m) = Map_get k0 m.
Proof.
  intros Hne. pose proof (proj2 (String.eqb_neq k0 k) Hne) as Hb.
  induction m as [| [k' v'] m IH]; simpl.
  - now rewrite Hb.
  - destruct (k =? k')%string eqn:E; simpl.
    + apply String.eqb_eq in E. subst k'. now rewrite Hb.
    + now rewrite IH.
Qed.

Lemma Map_set_keys {V} (k : string) (v : V) (m : JsMap V) :
  map fst (Map_set k v m) = Set_add k (map fst m).
Proof.
  unfold Set_add. induction m as [| [k' v'] m IH]; simpl; [reflexivity |].
  destruct (k =? k')%string eqn:E; simpl; [reflexivity |].
  rewrite IH. fold (Set_has k (map fst m)).
  destruct (Set_has k (map fst m)); reflexivity.
Qed.

Lemma Map_get_In {V} (k : string) (v : V) (m : JsMap V) :
  NoDup (map fst m) -> In (k, v) m -> Map_get k m = Some v.
Proof.
  induction m as [| [k' v'] m IH]; simpl; [tauto |].
  intros Hnd [Heq | Hin].
  - injection Heq as -> ->. now rewrite String.eqb_refl.
  - inversion Hnd as [| ? ? Hnotin Hnd']; subst.
    destruct (k =? k')%string eqn:E.
    + apply String.eqb_eq in E. subst k'. exfalso. apply Hnotin.
      change k with (fst (k, v)). now apply in_map.
    + now apply IH.
Qed.

Lemma bind_Returned {A B} (c : Async A) (k : A -> Async B) tr b :
  bind c k = (tr, Returned b) ->
  exists tr1 a tr2, c = (tr1, Returned a) /\ k a = (tr2, Returned b) /\ tr = (tr1 ++ tr2)%list.
Proof.
  destruct c as [tr1 [a | e |]]; simpl; try discriminate.
  destruct (k a) as [tr2 o] eqn:E. intros H. injection H as <- ->.
  now exists tr1, a, tr2.
Qed.

Lemma bind_ret_l {A B} (a : A) (k : A -> Async B) : bind (ret a) k = k a.
Proof. unfold bind, ret. now destruct (k a). Qed.

Lemma bind_outcome {A B} (c : Async A) (k : A -> Async B) :
  outcome (bind c k) =
  match outcome c with
  | Returned a => outcome (k a)
  | Threw e => Threw e
  | Pending => Pending
  end.
Proof.
  destruct c as [tr [a | e |]]; simpl; try reflexivity. now destruct (k a).
Qed.

Lemma bind_trace {A B} (c : Async A) (k : A -> Async B) :
  trace (bind c k) =
  match outcome c with
  | Returned a => (trace c ++ trace (k a))%list
  | _ => trace c
  end.
Proof.
  destruct c as [tr [a | e |]]; simpl; try reflexivity. now destruct (k a).
Qed.

Lemma recordsOf_app (t1 t2 : list Event) :
  recordsOf (t1 ++ t2) = (recordsOf t1 ++ recordsOf t2)%list.
Proof. unfold recordsOf. apply flat_map_app. Qed.

Lemma nonBotIds_app (t1 t2 : list Event) :
  nonBotIds (t1 ++ t2) = (nonBotIds t1 ++ nonBotIds t2)%list.
Proof. unfold nonBotIds. now rewrite recordsOf_app, filter_app, map_app. Qed.

Lemma nonBotIds_reactions channel message ident after (res : Response (list User)) :
  ok res = true ->
  nonBotIds [EvReactions channel message ident after res]
  = map user_id (filter (fun usr => negb (bot usr)) (json res)).
Proof.
  intros Hok. unfold nonBotIds, recordsOf. simpl. rewrite Hok. now rewrite app_nil_r.
Qed.

Lemma nonBotIds_messages channel before (res : Response (option (list Message))) :
  nonBotIds [EvMessages channel before res] = [].
Proof. reflexivity. Qed.

(* ================================================================== *)
(** ** The reaction collector *)

Section Collector.

Variable encodeURIComponent : string -> string.
Variable net : Discord.

Lemma addUsers_In (batch : list User) : forall (users : JsSet) (u : string),
  In u (addUsers batch users) <->
  In u users \/ In u (map user_id (filter (fun usr => negb (bot usr)) batch)).
Proof.
  unfold addUsers. induction batch as [| usr batch IH]; intros users u; simpl.
  - tauto.
  - rewrite IH. destruct (bot usr); simpl.
    + tauto.
    + rewrite Set_add_In. intuition.
Qed.

Lemma addUsers_NoDup (batch : list User) : forall (users : JsSet),
  NoDup users -> NoDup (addUsers batch users).
Proof.
  unfold addUsers. induction batch as [| usr batch IH]; intros users H; simpl.
  - assumption.
  - apply IH. destruct (bot usr); [assumption | now apply Set_add_NoDup].
Qed.

Lemma reactionPages_spec (env : Env) (channelId messageId ident : string) :
  forall fuel after users tr users',
    reactionPages net fuel env channelId messageId ident after users = (tr, Returned users') ->
    (NoDup users -> NoDup users') /\
    (forall u, In u users' <-> In u users \/ In u (nonBotIds tr)).
Proof.
  induction fuel as [| fuel IH]; intros after users tr users' H;
    cbn [reactionPages] in H.
  - discriminate.
  - apply bind_Returned in H. destruct H as (tr1 & res & tr2 & Hf & Hk & ->).
    unfold dFetch_reactions in Hf. injection Hf as <- <-.
    set (res := getReactions net _ channelId messageId ident (cursor after)) in *.
    destruct (ok res) eqn:Hok; cbn [negb] in Hk; [| discriminate].
    assert (Hsingle :
      forall us, (tr2 = [] /\ us = addUsers (json res) users) ->
        (NoDup users -> NoDup us) /\
        (forall u, In u us <-> In u users \/
           In u (nonBotIds ([EvReactions channelId messageId ident (cursor after) res] ++ tr2)))).
    { intros us [-> ->]. split.
      - apply addUsers_NoDup.
      - intros u. rewrite app_nil_r, nonBotIds_reactions by assumption.
        apply addUsers_In. }
    destruct (json res) as [| u0 batch] eqn:Hj.
    + injection Hk as <- <-. apply Hsingle. split; reflexivity.
    + destruct (List.length (u0 :: batch) <? 100)%nat.
      * injection Hk as <- <-. apply Hsingle. split; reflexivity.
      * apply IH in Hk. destruct Hk as [Hnd Hin]. split.
        -- intros H0. apply Hnd. now apply addUsers_NoDup.
        -- intros u. rewrite Hin, addUsers_In, nonBotIds_app.
           rewrite in_app_iff, nonBotIds_reactions, Hj by assumption. tauto.
Qed.

Lemma reactionStep_spec (fuel : nat) (env : Env) (channelId messageId : string)
    (users : JsSet) (r : ReactionSummary) tr users' :
  reactionStep encodeURIComponent net fuel env channelId messageId users r
    = (tr, Returned users') ->
  (NoDup users -> NoDup users') /\
  (forall u, In u users' <-> In u users \/ In u (nonBotIds tr)).
Proof.
  unfold reactionStep. destruct (emoji r) as [e |].
  - destruct (count r =? 0).
    + intros H. injection H as <- <-. simpl. tauto.
    + apply reactionPages_spec.
  - intros H. injection H as <- <-. simpl. tauto.
Qed.

Lemma foldA_reactionStep_spec (fuel : nat) (env : Env) (channelId messageId : string) :
  forall rs users tr users',
    foldA (reactionStep encodeURIComponent net fuel env channelId messageId) rs users
      = (tr, Returned users') ->
    (NoDup users -> NoDup users') /\
    (forall u, In u users' <-> In u users \/ In u (nonBotIds tr)).
Proof.
  induction rs as [| r rs IH]; intros users tr users' H; simpl in H.
  - injection H as <- <-. simpl. tauto.
  - apply bind_Returned in H. destruct H as (tr1 & us & tr2 & H1 & H2 & ->).
    apply reactionStep_spec in H1. apply IH in H2.
    destruct H1 as [Hnd1 Hin1], H2 as [Hnd2 Hin2]. split.
    + auto.
    + intros u. rewrite Hin2, Hin1, nonBotIds_app, in_app_iff. tauto.
Qed.

(** The reactor set is duplicate free and holds exactly the identifiers
    of the returned records without the bot flag. *)
Lemma getReactorsForMessage_spec (fuel : nat) (env : Env) (channelId messageId : string)
    (reactionsSummary : option (list ReactionSummary)) tr users :
  getReactorsForMessage encodeURIComponent net fuel env channelId messageId reactionsSummary
    = (tr, Returned users) ->
  NoDup users /\ (forall u, In u users <-> In u (nonBotIds tr)).
Proof.
  unfold getReactorsForMessage. intros H.
  assert (Hnil : (tr, Returned users) = (@nil Event, Returned (@nil string)) ->
                 NoDup users /\ (forall u, In u users <-> In u (nonBotIds tr))).
  { intros E. injection E as -> ->. split; [constructor | simpl; tauto]. }
  destruct reactionsSummary as [[| r rs] |]; try (apply Hnil; now rewrite <- H).
  apply foldA_reactionStep_spec in H. destruct H as [Hnd Hin]. split.
  - apply Hnd. constructor.
  - intros u. rewrite Hin. simpl. tauto.
Qed.

End Collector.

(* ================================================================== *)
(** ** The message paginator of the worker *)

Lemma bind_assoc {A B C} (c : Async A) (f : A -> Async B) (g : B -> Async C) :
  bind (bind c f) g = bind c (fun x => bind (f x) g).
Proof.
  destruct c as [tr [a | e |]]; simpl; try reflexivity.
  destruct (f a) as [tr' [b | e |]]; simpl; try reflexivity.
  destruct (g b) as [tr'' o]. now rewrite app_assoc.
Qed.

Lemma bind_ext {A B} (c : Async A) (f g : A -> Async B) :
  (forall a, f a = g a) -> bind c f = bind c g.
Proof.
  intros H. destruct c as [tr [a | e |]]; simpl; try reflexivity. now rewrite H.
Qed.

Lemma bind_ret_r {A} (c : Async A) : bind c (fun a => ret a) = c.
Proof.
  destruct c as [tr [a | e |]]; simpl; try reflexivity. now rewrite app_nil_r.
Qed.

Lemma freshPrefix_app (sinceTs : Z) (pre : list Message) (m : Message) (post : list Message) :
  forallb (fun x => negb (stale sinceTs x)) pre = true ->
  stale sinceTs m = true ->
  freshPrefix sinceTs (pre ++ m :: post) = pre /\ hasStale sinceTs (pre ++ m :: post) = true.
Proof.
  intros Hpre Hm. unfold hasStale. induction pre as [| x pre IH]; simpl.
  - now rewrite Hm.
  - simpl in Hpre. apply andb_true_iff in Hpre. destruct Hpre as [Hx Hpre].
    apply negb_true_iff in Hx. rewrite Hx. simpl.
    destruct (IH Hpre) as [-> ->]. split; reflexivity.
Qed.

Lemma freshPrefix_all (sinceTs : Z) (batch : list Message) :
  hasStale sinceTs batch = false -> freshPrefix sinceTs batch = batch.
Proof.
  unfold hasStale. induction batch as [| m rest IH]; simpl; [reflexivity |].
  intros H. apply orb_false_iff in H. destruct H as [-> H]. now rewrite IH.
Qed.

Section Paginator.

Variable net : Discord.

Section Consumer.
Context {St : Type}.
Variable body : St -> Message -> Async St.

Lemma yieldBatch_eq (sinceTs : Z) : forall (batch : list Message) (s : St),
  yieldBatch body sinceTs batch s =
  s' <- foldA body (freshPrefix sinceTs batch) s ;; ret (s', hasStale sinceTs batch).
Proof.
  unfold hasStale.
  induction batch as [| m rest IH]; intros s;
    cbn [yieldBatch freshPrefix existsb foldA].
  - now rewrite bind_ret_l.
  - fold (stale sinceTs m). destruct (stale sinceTs m); cbn [orb foldA].
    + now rewrite bind_ret_l.
    + rewrite bind_assoc. apply bind_ext. intros s'. apply IH.
Qed.

(** One turn of the [while (true)] loop of [iterateMessages]. *)
Lemma iterateMessages_S (fuel : nat) (env : Env) (channelId : string) (sinceTs : Z)
    (before : option string) (s : St) :
  iterateMessages net body (S fuel) env channelId sinceTs before s =
  res <- dFetch_messages net env channelId (cursor before) ;;
  if negb (ok res) then throw ("Get messages failed: " ++ String_of (status res))
  else
    match json res with
    | None => ret s
    | Some [] => ret s
    | Some ((m0 :: _) as batch) =>
        s' <- foldA body (freshPrefix sinceTs batch) s ;;
        if hasStale sinceTs batch then ret s'
        else iterateMessages net body fuel env channelId sinceTs
               (Some (msg_id (last batch m0))) s'
    end.
Proof.
  cbn [iterateMessages]. apply bind_ext. intros res.
  destruct (negb (ok res)); [reflexivity |].
  destruct (json res) as [[| m0 rest] |]; try reflexivity.
  rewrite yieldBatch_eq, bind_assoc. apply bind_ext. intros s'.
  now rewrite bind_ret_l.
Qed.

End Consumer.

Lemma foldA_collect (msgs : list Message) : forall (acc : list Message),
  foldA (fun acc msg => ret (acc ++ [msg])%list) msgs acc = ret (acc ++ msgs)%list.
Proof.
  induction msgs as [| m msgs IH]; intros acc; cbn [foldA].
  - now rewrite app_nil_r.
  - rewrite bind_ret_l, IH. now rewrite <- app_assoc.
Qed.

Lemma foldA_app {St X} (body : St -> X -> Async St) (xs ys : list X) : forall (s : St),
  foldA body (xs ++ ys) s = s' <- foldA body xs s ;; foldA body ys s'.
Proof.
  induction xs as [| x xs IH]; intros s; cbn [foldA app].
  - now rewrite bind_ret_l.
  - rewrite bind_assoc. apply bind_ext. intros s'. apply IH.
Qed.

(** A scan that returns has run the loop body on exactly the messages the
    generator yields, in order. *)
Lemma iterateMessages_yielded {St} (body : St -> Message -> Async St)
    (env : Env) (channelId : string) (sinceTs : Z) :
  forall fuel before s acc tr s',
    iterateMessages net body fuel env channelId sinceTs before s = (tr, Returned s') ->
    exists msgs,
      outcome (iterateMessages net (fun acc msg => ret (acc ++ [msg])%list)
                 fuel env channelId sinceTs before acc) = Returned (acc ++ msgs)%list /\
      outcome (foldA body msgs s) = Returned s'.
Proof.
  induction fuel as [| fuel IH]; intros before s acc tr s' H.
  - discriminate.
  - rewrite iterateMessages_S in H. rewrite iterateMessages_S.
    apply bind_Returned in H. destruct H as (tr1 & res & tr2 & Hf & Hk & ->).
    unfold dFetch_messages in Hf |- *. injection Hf as <- <-.
    set (res := getMessages net _ channelId (cursor before)) in *.
    rewrite bind_outcome. cbn [outcome snd].
    destruct (negb (ok res)); [discriminate |].
    destruct (json res) as [[| m0 rest] |].
    + injection Hk as <- <-. exists []. now rewrite app_nil_r.
    + apply bind_Returned in Hk. destruct Hk as (tb & s1 & tr3 & Hb & Hk & ->).
      rewrite foldA_collect, bind_ret_l.
      destruct (hasStale sinceTs (m0 :: rest)).
      * injection Hk as <- <-. exists (freshPrefix sinceTs (m0 :: rest)).
        split; [reflexivity | now rewrite Hb].
      * apply (IH _ _ (acc ++ freshPrefix sinceTs (m0 :: rest))%list) in Hk.
        destruct Hk as (msgs & Hy & Hfold).
        exists (freshPrefix sinceTs (m0 :: rest) ++ msgs)%list. split.
        -- now rewrite app_assoc.
        -- rewrite foldA_app, bind_outcome, Hb. exact Hfold.
    + injection Hk as <- <-. exists []. now rewrite app_nil_r.
Qed.

End Paginator.

(* ================================================================== *)
(** ** The scorer of the worker *)

Lemma outcome_Returned {A} (c : Async A) (a : A) :
  outcome c = Returned a -> exists tr, c = (tr, Returned a).
Proof. destruct c as [tr o]. simpl. intros ->. now exists tr. Qed.

Lemma bind_outcome_Returned {A B} (c : Async A) (k : A -> Async B) (b : B) :
  outcome (bind c k) = Returned b ->
  exists a, outcome c = Returned a /\ outcome (k a) = Returned b.
Proof.
  rewrite bind_outcome. destruct (outcome c) as [a | e |]; try discriminate.
  intros H. now exists a.
Qed.

Lemma pointTotal_credit (u uid : string) (st : JsMap Z * JsSet) :
  pointTotal u (fst (credit st uid)) =
  pointTotal u (fst st) + (if (u =? uid)%string then 1 else 0).
Proof.
  destruct st as [points seenUsers]. unfold credit, pointTotal. cbn [fst].
  destruct (u =? uid)%string eqn:E.
  - apply String.eqb_eq in E. subst uid. now rewrite Map_get_set_same.
  - apply String.eqb_neq in E. rewrite Map_get_set_other by assumption. lia.
Qed.

Lemma pointTotal_credits (u : string) (reactors : JsSet) : forall (st : JsMap Z * JsSet),
  NoDup reactors ->
  pointTotal u (fst (fold_left credit reactors st)) =
  pointTotal u (fst st) + (if Set_has u reactors then 1 else 0).
Proof.
  induction reactors as [| uid reactors IH]; intros st Hnd; cbn [fold_left].
  - simpl. lia.
  - inversion Hnd as [| ? ? Hnotin Hnd']; subst.
    rewrite IH, pointTotal_credit by assumption.
    unfold Set_has. cbn [existsb]. fold (Set_has u reactors).
    destruct (u =? uid)%string eqn:E; cbn [orb].
    + apply String.eqb_eq in E. subst uid.
      destruct (Set_has u reactors) eqn:Hs; [| lia].
      apply Set_has_In in Hs. contradiction.
    + lia.
Qed.

Lemma Set_has_ext (u : string) (s1 s2 : JsSet) :
  (In u s1 <-> In u s2) -> Set_has u s1 = Set_has u s2.
Proof.
  intros H. destruct (Set_has u s1) eqn:E1, (Set_has u s2) eqn:E2; try reflexivity.
  - apply Set_has_In, H, Set_has_In in E1. congruence.
  - apply Set_has_In, H, Set_has_In in E2. congruence.
Qed.

Section Scorer.

Variable encodeURIComponent : string -> string.
Variable net : Discord.
Variable fuel : nat.
Variable env : Env.
Variable source : string.

Let score := scoreMessage encodeURIComponent net fuel env source.
Let reacted := reactedTo encodeURIComponent net fuel env source.

Lemma scoreMessage_total (u : string) (st st' : JsMap Z * JsSet) (m : Message) :
  outcome (score st m) = Returned st' ->
  pointTotal u (fst st') = pointTotal u (fst st) + (if reacted u m then 1 else 0).
Proof.
  unfold score, reacted, scoreMessage, reactedTo.
  assert (Hskip : outcome (ret st) = Returned st' ->
                  pointTotal u (fst st') = pointTotal u (fst st) + 0).
  { simpl. intros H. injection H as <-. lia. }
  destruct (reactions m) as [[| r rs] |] eqn:Hr; try exact Hskip.
  intros H. apply bind_outcome_Returned in H. destruct H as (reactors & Hg & Hret).
  simpl in Hret. injection Hret as <-.
  apply outcome_Returned in Hg. destruct Hg as [tr Hg]. rewrite Hg. cbn [trace fst].
  apply getReactorsForMessage_spec in Hg. destruct Hg as [Hnd Hin].
  rewrite pointTotal_credits by assumption.
  now rewrite (Set_has_ext u reactors (nonBotIds tr) (Hin u)).
Qed.

Lemma foldA_score_total (u : string) (msgs : list Message) :
  forall (st st' : JsMap Z * JsSet),
    outcome (foldA score msgs st) = Returned st' ->
    pointTotal u (fst st') =
    pointTotal u (fst st) + Z.of_nat (List.length (filter (reacted u) msgs)).
Proof.
  induction msgs as [| m msgs IH]; intros st st' H; cbn [foldA] in H.
  - simpl in H. injection H as <-. simpl. lia.
  - apply bind_outcome_Returned in H. destruct H as (st1 & H1 & H2).
    apply IH in H2. apply (scoreMessage_total u) in H1. rewrite H2, H1.
    cbn [filter]. destruct (reacted u m); cbn [List.length]; lia.
Qed.

End Scorer.

Lemma distinctMessages_length (p : Message -> bool) (msgs : list Message) :
  NoDup (map msg_id msgs) ->
  List.length (distinctMessages p msgs) = List.length (filter p msgs).
Proof.
  intros Hnd. unfold distinctMessages.
  assert (H : NoDup (map msg_id (filter p msgs))).
  { induction msgs as [| m msgs IH]; simpl; [constructor |].
    inversion Hnd as [| ? ? Hnotin Hnd']; subst.
    destruct (p m); simpl; [| now apply IH].
    constructor; [| now apply IH].
    intros Hin. apply Hnotin. apply in_map_iff in Hin.
    destruct Hin as (x & Hx & Hin). apply filter_In in Hin.
    apply in_map_iff. exists x. tauto. }
  rewrite nodup_fixed_point by assumption. now rewrite length_map.
Qed.

(* ================================================================== *)
(** ** The definitions on the reference history *)

Example runScan_week :
  outcome (runScan Fixture.codeUnitCompare Fixture.unreserved Fixture.week 5
             Fixture.env None Fixture.now)
  = Returned {| rows := [("u2", 2); ("u1", 1); ("u3", 1)];
                names := [("u1", "<@u1>"); ("u2", "<@u2>"); ("u3", "<@u3>")];
                uniqueReactors := 3 |}.
Proof. vm_compute. reflexivity. Qed.

Example yielded_week :
  yielded Fixture.week 5 Fixture.env "daily-reading-check" Fixture.windowStart None
  = ([EvMessages "daily-reading-check" None (Fixture.success (Some [Fixture.A; Fixture.B; Fixture.C; Fixture.D]))],
     Returned [Fixture.A; Fixture.B; Fixture.C]).
Proof. vm_compute. reflexivity. Qed.

(* ================================================================== *)
(** ** The ledger and the set of seen users *)

Lemma credit_keys (st : JsMap Z * JsSet) (uid : string) :
  map fst (fst st) = snd st -> map fst (fst (credit st uid)) = snd (credit st uid).
Proof.
  destruct st as [points seenUsers]. unfold credit. cbn [fst snd].
  intros <-. apply Map_set_keys.
Qed.

Lemma credits_keys (reactors : JsSet) : forall (st : JsMap Z * JsSet),
  map fst (fst st) = snd st ->
  map fst (fst (fold_left credit reactors st)) = snd (fold_left credit reactors st).
Proof.
  induction reactors as [| uid reactors IH]; intros st H; cbn [fold_left].
  - assumption.
  - apply IH. now apply credit_keys.
Qed.

Lemma credits_seen (reactors : JsSet) : forall (st : JsMap Z * JsSet),
  (NoDup (snd st) -> NoDup (snd (fold_left credit reactors st))) /\
  (forall u, In u (snd (fold_left credit reactors st)) <-> In u (snd st) \/ In u reactors).
Proof.
  induction reactors as [| uid reactors IH]; intros st; cbn [fold_left].
  - simpl. tauto.
  - destruct (IH (credit st uid)) as [Hnd Hin]. split.
    + intros H. apply Hnd. destruct st as [points seenUsers]. cbn [credit snd] in *.
      now apply Set_add_NoDup.
    + intros u. rewrite Hin. destruct st as [points seenUsers]. cbn [credit snd].
      rewrite Set_add_In. simpl. intuition.
Qed.

Section ScanLoop.

Variable encodeURIComponent : string -> string.
Variable net : Discord.

Lemma foldA_inv {St X} (body : St -> X -> Async St) (P : list Event -> St -> Prop) :
  (forall tr s x tb s', P tr s -> body s x = (tb, Returned s') -> P (tr ++ tb)%list s') ->
  forall xs tr0 s tr s',
    P tr0 s -> foldA body xs s = (tr, Returned s') -> P (tr0 ++ tr)%list s'.
Proof.
  intros Hbody. induction xs as [| x xs IH]; intros tr0 s tr s' HP H; cbn [foldA] in H.
  - injection H as <- <-. now rewrite app_nil_r.
  - apply bind_Returned in H. destruct H as (tr1 & s1 & tr2 & H1 & H2 & ->).
    rewrite app_assoc. eapply IH; [| exact H2]. eapply Hbody; eassumption.
Qed.

Lemma iterateMessages_inv {St} (body : St -> Message -> Async St)
    (P : list Event -> St -> Prop) (env : Env) (channelId : string) (sinceTs : Z) :
  (forall tr s ch b res, P tr s -> P (tr ++ [EvMessages ch b res])%list s) ->
  (forall tr s m tb s', P tr s -> body s m = (tb, Returned s') -> P (tr ++ tb)%list s') ->
  forall fuel before tr0 s tr s',
    P tr0 s ->
    iterateMessages net body fuel env channelId sinceTs before s = (tr, Returned s') ->
    P (tr0 ++ tr)%list s'.
Proof.
  intros Hfetch Hbody.
  induction fuel as [| fuel IH]; intros before tr0 s tr s' HP H.
  - discriminate.
  - rewrite iterateMessages_S in H.
    apply bind_Returned in H. destruct H as (tr1 & res & tr2 & Hf & Hk & ->).
    unfold dFetch_messages in Hf. injection Hf as <- <-.
    set (res := getMessages net _ channelId (cursor before)) in *.
    rewrite app_assoc.
    pose proof (Hfetch _ _ channelId (cursor before) res HP) as HP1.
    destruct (negb (ok res)); [discriminate |].
    destruct (json res) as [[| m0 rest] |].
    + injection Hk as <- <-. now rewrite app_nil_r.
    + apply bind_Returned in Hk. destruct Hk as (tb & s1 & tr3 & Hb & Hk & ->).
      rewrite app_assoc.
      pose proof (foldA_inv body P Hbody _ _ _ HP1 Hb) as HP2.
      destruct (hasStale sinceTs (m0 :: rest)).
      * injection Hk as <- <-. now rewrite app_nil_r.
      * eapply IH; eassumption.
    + injection Hk as <- <-. now rewrite app_nil_r.
Qed.

Lemma scoreMessage_inv (fuel : nat) (env : Env) (source : string)
    tr (st : JsMap Z * JsSet) (m : Message) tb st' :
  ledgerInv tr st ->
  scoreMessage encodeURIComponent net fuel env source st m = (tb, Returned st') ->
  ledgerInv (tr ++ tb) st'.
Proof.
  intros HP. unfold scoreMessage.
  assert (Hskip : ret st = (tb, Returned st') -> ledgerInv (tr ++ tb) st').
  { intros H. injection H as <- <-. now rewrite app_nil_r. }
  destruct (reactions m) as [[| r rs] |]; try exact Hskip.
  intros H. apply bind_Returned in H. destruct H as (tg & reactors & tr2 & Hg & Hret & ->).
  injection Hret as <- <-. rewrite app_nil_r.
  apply getReactorsForMessage_spec in Hg. destruct Hg as [Hnd Hin].
  destruct HP as (Hkeys & Hnds & Hseen).
  destruct (credits_seen reactors st) as [Hnd' Hin']. repeat split.
  - now apply credits_keys.
  - now apply Hnd'.
  - intros H. rewrite nonBotIds_app, in_app_iff. apply Hin' in H.
    rewrite <- Hseen, <- Hin. exact H.
  - intros H. rewrite nonBotIds_app, in_app_iff in H. apply Hin'.
    rewrite Hseen, Hin. exact H.
Qed.

(** The ledger's keys are the seen users, and the seen users are the
    identifiers of the returned records without the bot flag. *)
Lemma scanLoop_inv (fuel : nat) (env : Env) (source : string) (sinceTs : Z) tr st :
  scanLoop encodeURIComponent net fuel env source sinceTs = (tr, Returned st) ->
  ledgerInv tr st.
Proof.
  unfold scanLoop. intros H.
  change tr with ([] ++ tr)%list.
  eapply (iterateMessages_inv (scoreMessage encodeURIComponent net fuel env source) ledgerInv);
    [ | | | exact H].
  - intros tr0 s ch b res (Hk & Hn & Hs). repeat split; try assumption.
    + intros Hu. rewrite nonBotIds_app, in_app_iff. left. now apply Hs.
    + intros Hu. rewrite nonBotIds_app, in_app_iff in Hu. destruct Hu as [Hu | []].
      now apply Hs.
  - intros tr0 s m tb s' HP Hb. eapply scoreMessage_inv; eassumption.
  - repeat split; simpl; try tauto. constructor.
Qed.

End ScanLoop.

(* ================================================================== *)
(** ** Sorting and slicing *)

Section SortFacts.

Context {A : Type}.
Variable cmp : A -> A -> Z.

Let le (a b : A) : Prop := cmp a b <= 0.

Lemma insert_perm (x : A) (l : list A) : Permutation (insert cmp x l) (x :: l).
Proof.
  induction l as [| y l IH]; cbn [insert].
  - apply Permutation_refl.
  - destruct (cmp x y <=? 0).
    + apply Permutation_refl.
    + eapply Permutation_trans; [apply perm_skip, IH | apply perm_swap].
Qed.

Lemma sort_perm (l : list A) : Permutation (sort cmp l) l.
Proof.
  unfold sort. induction l as [| x l IH]; cbn [fold_right].
  - apply Permutation_refl.
  - eapply Permutation_trans; [apply insert_perm | now apply perm_skip].
Qed.

Lemma sort_length (l : list A) : List.length (sort cmp l) = List.length l.
Proof. apply Permutation_length, sort_perm. Qed.

Hypothesis cmp_total : forall a b, 0 < cmp a b -> cmp b a <= 0.
Hypothesis cmp_trans : forall a b c, cmp a b <= 0 -> cmp b c <= 0 -> cmp a c <= 0.

Lemma insert_sorted (x : A) (l : list A) :
  StronglySorted le l -> StronglySorted le (insert cmp x l).
Proof.
  induction l as [| y l IH]; cbn [insert]; intros Hs.
  - repeat constructor.
  - inversion Hs as [| ? ? Hs' Hall]; subst.
    destruct (cmp x y <=? 0) eqn:E.
    + apply Z.leb_le in E. constructor; [assumption |].
      constructor; [exact E |].
      eapply Forall_impl; [| exact Hall]. intros z Hz. unfold le in *. eauto.
    + apply Z.leb_gt in E. constructor; [now apply IH |].
      eapply Permutation_Forall; [apply Permutation_sym, insert_perm |].
      constructor; [now apply cmp_total | assumption].
Qed.

Lemma sort_sorted (l : list A) : StronglySorted le (sort cmp l).
Proof.
  unfold sort. induction l as [| x l IH]; cbn [fold_right].
  - constructor.
  - now apply insert_sorted.
Qed.

Hypothesis cmp_antisym : forall a b, cmp a b <= 0 -> cmp b a <= 0 -> a = b.

Lemma sorted_perm_eq (l1 : list A) : forall (l2 : list A),
  StronglySorted le l1 -> StronglySorted le l2 -> Permutation l1 l2 -> l1 = l2.
Proof.
  induction l1 as [| a l1 IH]; intros l2 H1 H2 Hp.
  - apply Permutation_nil in Hp. now subst.
  - destruct l2 as [| b l2].
    + apply Permutation_sym, Permutation_nil in Hp. discriminate.
    + inversion H1 as [| ? ? H1' Hall1]; subst.
      inversion H2 as [| ? ? H2' Hall2]; subst.
      assert (Hab : a = b).
      { assert (Ha : In a (b :: l2)) by (eapply Permutation_in; [exact Hp | now left]).
        assert (Hb : In b (a :: l1))
          by (eapply Permutation_in; [apply Permutation_sym, Hp | now left]).
        destruct Ha as [-> | Ha]; [reflexivity |].
        destruct Hb as [-> | Hb]; [reflexivity |].
        rewrite Forall_forall in Hall1, Hall2.
        apply cmp_antisym; [now apply Hall1 | now apply Hall2]. }
      subst b. f_equal. apply IH; try assumption.
      eapply Permutation_cons_inv. exact Hp.
Qed.

(** The sorted array does not depend on the order of the input. *)
Lemma sort_order_independent (l1 l2 : list A) :
  Permutation l1 l2 -> sort cmp l1 = sort cmp l2.
Proof.
  intros Hp. apply sorted_perm_eq; try apply sort_sorted.
  eapply Permutation_trans; [apply sort_perm |].
  eapply Permutation_trans; [exact Hp | apply Permutation_sym, sort_perm].
Qed.

End SortFacts.

(** The sort is stable: entries that the comparator does not separate keep
    their order. *)
Lemma sort_stable {A} (cmp : A -> A -> Z) (p : A -> bool) :
  (forall a b, p a = true -> p b = true -> cmp a b <= 0) ->
  forall l, filter p (sort cmp l) = filter p l.
Proof.
  intros Hp.
  assert (Hins : forall x l, filter p (insert cmp x l) = filter p (x :: l)).
  { intros x. induction l as [| y l IH]; cbn [insert]; [reflexivity |].
    destruct (cmp x y <=? 0) eqn:E; [reflexivity |].
    apply Z.leb_gt in E. cbn [filter] in *. rewrite IH.
    destruct (p x) eqn:Hx, (p y) eqn:Hy; try reflexivity.
    specialize (Hp x y Hx Hy). lia. }
  unfold sort. induction l as [| x l IH]; cbn [fold_right]; [reflexivity |].
  rewrite Hins. cbn [filter]. now rewrite IH.
Qed.

Lemma firstn_incl {A} (k : nat) : forall (l : list A), incl (firstn k l) l.
Proof.
  induction k as [| k IH]; intros l x Hx; [contradiction |].
  destruct l as [| y l]; [contradiction |].
  cbn [firstn] in Hx. destruct Hx as [-> | Hx]; [now left | right; now apply IH].
Qed.

Lemma slice0_incl {A} (n : Z) (l : list A) : incl (slice0 n l) l.
Proof. unfold slice0. destruct (n <? 0); apply firstn_incl. Qed.

Lemma slice0_length {A} (n : Z) (l : list A) :
  (List.length (slice0 n l) <= List.length l)%nat.
Proof.
  unfold slice0. destruct (n <? 0); rewrite length_firstn; apply Nat.le_min_r.
Qed.

Lemma slice0_length_bound {A} (n : Z) (l : list A) :
  0 <= n -> Z.of_nat (List.length (slice0 n l)) <= n.
Proof.
  intros Hn. unfold slice0. destruct (n <? 0) eqn:E; [apply Z.ltb_lt in E; lia |].
  rewrite length_firstn. lia.
Qed.

Lemma StronglySorted_firstn {A} (R : A -> A -> Prop) (k : nat) : forall (l : list A),
  StronglySorted R l -> StronglySorted R (firstn k l).
Proof.
  induction k as [| k IH]; intros l Hs; [constructor |].
  destruct l as [| x l]; [constructor |].
  inversion Hs as [| ? ? Hs' Hall]; subst. cbn [firstn]. constructor.
  - now apply IH.
  - rewrite Forall_forall in *. intros y Hy. apply Hall. eapply firstn_incl. exact Hy.
Qed.

Lemma StronglySorted_impl {A} (R R' : A -> A -> Prop) (l : list A) :
  (forall a b, R a b -> R' a b) -> StronglySorted R l -> StronglySorted R' l.
Proof.
  intros HR Hs. induction Hs as [| e l Hs IH Hall]; constructor; [assumption |].
  eapply Forall_impl; [| exact Hall]. intros b. apply HR.
Qed.

Lemma slice0_sorted {A} (R : A -> A -> Prop) (n : Z) (l : list A) :
  StronglySorted R l -> StronglySorted R (slice0 n l).
Proof. unfold slice0. destruct (n <? 0); apply StronglySorted_firstn. Qed.

(* ================================================================== *)
(** ** The result of [runScan] *)

Section RunScan.

Variable localeCompare : string -> string -> Z.
Variable encodeURIComponent : string -> string.
Variable net : Discord.

(** A scan that returns went through the scan loop with the configured
    source channel, and reports the top ten of its ledger and the number of
    seen users. *)
Lemma runScan_Returned (fuel : nat) (env : Env) (windowMs : option Z) (now : Z) tr r :
  runScan localeCompare encodeURIComponent net fuel env windowMs now = (tr, Returned r) ->
  exists points seenUsers,
    scanLoop encodeURIComponent net fuel env (interp (SOURCE_CHANNEL_ID env))
      (now - defaulted windowMs MS_IN_WEEK) = (tr, Returned (points, seenUsers)) /\
    rows r = topN localeCompare points (Some 10) /\
    uniqueReactors r = Z.of_nat (List.length seenUsers).
Proof.
  unfold runScan.
  destruct (negb (truthy_opt (DISCORD_BOT_TOKEN env)) || negb (truthy_opt (SOURCE_CHANNEL_ID env)));
    [discriminate |].
  intros H. apply bind_Returned in H. destruct H as (tr1 & [points seenUsers] & tr2 & Hl & Hk & ->).
  unfold buildNameMap in Hk. rewrite bind_ret_l in Hk. injection Hk as <- <-.
  exists points, seenUsers. rewrite app_nil_r. repeat split. exact Hl.
Qed.

Lemma topN_incl (points : JsMap Z) (n : option Z) :
  incl (topN localeCompare points n) points.
Proof.
  unfold topN. intros e He. apply slice0_incl in He.
  eapply Permutation_in; [apply sort_perm | exact He].
Qed.

Lemma topN_length (points : JsMap Z) (n : option Z) :
  (List.length (topN localeCompare points n) <= List.length points)%nat.
Proof.
  unfold topN. etransitivity; [apply slice0_length |]. now rewrite sort_length.
Qed.

End RunScan.

(* ================================================================== *)
(** ** Scoring: one point per message *)

Lemma calculatePoints_total (u : string) (messages : list Message) :
  pointTotal u (Leaderboard.calculatePoints messages) =
  Z.of_nat (List.length (filter (receivedReactions u) messages)).
Proof.
  unfold Leaderboard.calculatePoints.
  set (step := fun (userPoints : JsMap Z) (message : Message) => _).
  assert (H : forall acc,
    pointTotal u (fold_left step messages acc) =
    pointTotal u acc + Z.of_nat (List.length (filter (receivedReactions u) messages))).
  { induction messages as [| m messages IH]; intros acc; cbn [fold_left filter].
    - simpl. lia.
    - rewrite IH. unfold step at 1, receivedReactions.
      destruct (reactions m) as [[| r rs] |]; try lia.
      change (Map_set (author_id m) ?v acc) with (fst (credit (acc, []) (author_id m))).
      rewrite pointTotal_credit. cbn [fst].
      rewrite String.eqb_sym.
      destruct (author_id m =? u)%string; cbn [List.length]; lia. }
  rewrite H. reflexivity.
Qed.

(** C1.  In the worker, when a scan returns and the paginator
    yielded every message once, each user's total in the ledger is the
    number of distinct yielded messages on which a reaction-user record
    without the bot flag names the user, whatever the number of emoji or
    records; the rows reported are entries of that ledger.  In
    leaderboard.js a user's total is instead the number of fetched messages
    with reactions that the user authored. *)
Theorem scan_one_point_per_message
    (localeCompare : string -> string -> Z) (encodeURIComponent : string -> string)
    (net : Discord) (fuel : nat) (env : Env) (windowMs : option Z) (now : Z)
    (r : ScanResult) (msgs : list Message) :
  let source := interp (SOURCE_CHANNEL_ID env) in
  let sinceTs := now - defaulted windowMs MS_IN_WEEK in
  let reacted := reactedTo encodeURIComponent net fuel env source in
  outcome (runScan localeCompare encodeURIComponent net fuel env windowMs now) = Returned r ->
  outcome (yielded net fuel env source sinceTs None) = Returned msgs ->
  NoDup (map msg_id msgs) ->
  (exists points seenUsers,
     outcome (scanLoop encodeURIComponent net fuel env source sinceTs)
       = Returned (points, seenUsers) /\
     rows r = topN localeCompare points (Some 10) /\
     OnePointPerMessage reacted msgs points) /\
  (forall u p, In (u, p) (rows r) ->
     p = Z.of_nat (List.length (distinctMessages (reacted u) msgs))) /\
  (forall fetched u,
     pointTotal u (Leaderboard.calculatePoints fetched) =
     Z.of_nat (List.length (filter (receivedReactions u) fetched))).
Proof.
  intros source sinceTs reacted Hscan Hyield Hnd.
  apply outcome_Returned in Hscan. destruct Hscan as [tr Hscan].
  apply runScan_Returned in Hscan.
  destruct Hscan as (points & seenUsers & Hloop & Hrows & _).
  fold source sinceTs in Hloop.
  assert (Hrule : OnePointPerMessage reacted msgs points).
  { pose proof Hloop as Hl. unfold scanLoop in Hl.
    apply (iterateMessages_yielded net _ env source sinceTs fuel None _ []) in Hl.
    destruct Hl as (msgs' & Hy & Hfold).
    unfold yielded in Hyield. rewrite Hyield in Hy. injection Hy as ->.
    intros u. apply (foldA_score_total _ _ _ _ _ u) in Hfold.
    rewrite distinctMessages_length by assumption. exact Hfold. }
  split; [| split].
  - exists points, seenUsers. rewrite Hloop. auto.
  - intros u p Hin. rewrite Hrows in Hin. apply topN_incl in Hin.
    apply scanLoop_inv in Hloop. destruct Hloop as (Hkeys & Hnodup & _).
    cbn [fst snd] in *. rewrite <- Hkeys in Hnodup.
    apply Map_get_In in Hin; [| assumption].
    rewrite <- Hrule. unfold pointTotal. now rewrite Hin.
  - intros fetched u. apply calculatePoints_total.
Qed.

Lemma scan_one_point_per_message_witness :
  let msgs := [Fixture.A; Fixture.B; Fixture.C] in
  let reacted :=
    reactedTo Fixture.unreserved Fixture.week 5 Fixture.env "daily-reading-check" in
  NoDup (map msg_id msgs) /\
  (exists points seenUsers,
     outcome (scanLoop Fixture.unreserved Fixture.week 5 Fixture.env
                "daily-reading-check" Fixture.windowStart)
       = Returned (points, seenUsers) /\
     [("u2", 2); ("u1", 1); ("u3", 1)] = topN Fixture.codeUnitCompare points (Some 10) /\
     OnePointPerMessage reacted msgs points) /\
  (forall u p, In (u, p) [("u2", 2); ("u1", 1); ("u3", 1)] ->
     p = Z.of_nat (List.length (distinctMessages (reacted u) msgs))) /\
  (forall fetched u,
     pointTotal u (Leaderboard.calculatePoints fetched) =
     Z.of_nat (List.length (filter (receivedReactions u) fetched))).
Proof.
  intros msgs reacted.
  assert (Hnd : NoDup (map msg_id msgs)).
  { repeat constructor; simpl; intuition discriminate. }
  split; [exact Hnd |].
  exact (@scan_one_point_per_message Fixture.codeUnitCompare Fixture.unreserved
           Fixture.week 5 Fixture.env None Fixture.now
           {| rows := [("u2", 2); ("u1", 1); ("u3", 1)];
              names := [("u1", "<@u1>"); ("u2", "<@u2>"); ("u3", "<@u3>")];
              uniqueReactors := 3 |}
           msgs eq_refl eq_refl Hnd).
Defined.

(** On the reference history, leaderboard.js gives [u2], who reacted to two
    messages, no point: its totals do not follow the rule of C1. *)
Lemma calculatePoints_not_per_reactor :
  outcome (Leaderboard.getRecentMessages Fixture.week 5 "daily-reading-check"
             (Some "token") None Fixture.now)
    = Returned [Fixture.A; Fixture.B; Fixture.C] /\
  ~ OnePointPerMessage
      (reactedTo Fixture.unreserved Fixture.week 5 Fixture.env "daily-reading-check")
      [Fixture.A; Fixture.B; Fixture.C]
      (Leaderboard.calculatePoints [Fixture.A; Fixture.B; Fixture.C]).
Proof.
  split; [reflexivity |].
  intros H. specialize (H "u2"). vm_compute in H. discriminate.
Qed.

(* ================================================================== *)
(** ** Bots, and the number of unique reactors *)

Lemma nonBotIds_In (tr : list Event) (u : string) :
  In u (nonBotIds tr) <->
  exists usr, In usr (recordsOf tr) /\ user_id usr = u /\ bot usr = false.
Proof.
  unfold nonBotIds. rewrite in_map_iff. split.
  - intros (usr & Hid & Hin). apply filter_In in Hin. destruct Hin as [Hin Hb].
    exists usr. apply negb_true_iff in Hb. auto.
  - intros (usr & Hin & Hid & Hb). exists usr. split; [assumption |].
    apply filter_In. split; [assumption | now apply negb_true_iff].
Qed.

Lemma NoDup_length_nodup (l1 l2 : list string) :
  NoDup l1 -> (forall x, In x l1 <-> In x l2) ->
  List.length l1 = List.length (nodup string_dec l2).
Proof.
  intros Hnd Hin. apply Permutation_length, NoDup_Permutation.
  - assumption.
  - apply NoDup_nodup.
  - intros x. rewrite nodup_In. apply Hin.
Qed.

(** C6.  The reactor set of a message holds exactly the identifiers of the
    returned reaction-user records whose bot flag is not set; when a scan
    returns, so do the keys of its ledger, hence every reported row names
    such a user, and the reported number of unique reactors is the number
    of distinct identifiers among those records.  A user all of whose
    records carry the bot flag is in none of them. *)
Theorem bots_never_counted
    (localeCompare : string -> string -> Z) (encodeURIComponent : string -> string)
    (net : Discord) (fuel : nat) (env : Env) (windowMs : option Z) (now : Z)
    (tr : list Event) (r : ScanResult) :
  runScan localeCompare encodeURIComponent net fuel env windowMs now = (tr, Returned r) ->
  (forall channelId messageId reactionsSummary tr' users,
     getReactorsForMessage encodeURIComponent net fuel env channelId messageId
       reactionsSummary = (tr', Returned users) ->
     forall u, In u users <->
       exists usr, In usr (recordsOf tr') /\ user_id usr = u /\ bot usr = false) /\
  (exists points seenUsers,
     scanLoop encodeURIComponent net fuel env (interp (SOURCE_CHANNEL_ID env))
       (now - defaulted windowMs MS_IN_WEEK) = (tr, Returned (points, seenUsers)) /\
     (forall u, In u (map fst points) <-> In u (nonBotIds tr)) /\
     (forall u, In u seenUsers <-> In u (nonBotIds tr))) /\
  (forall u p, In (u, p) (rows r) ->
     exists usr, In usr (recordsOf tr) /\ user_id usr = u /\ bot usr = false) /\
  uniqueReactors r = Z.of_nat (List.length (nodup string_dec (nonBotIds tr))) /\
  (forall u,
     (forall usr, In usr (recordsOf tr) -> user_id usr = u -> bot usr = true) ->
     ~ In u (map fst (rows r))).
Proof.
  intros Hscan. apply runScan_Returned in Hscan.
  destruct Hscan as (points & seenUsers & Hloop & Hrows & Huniq).
  pose proof (scanLoop_inv _ _ _ _ _ _ Hloop) as (Hkeys & Hnd & Hseen).
  cbn [fst snd] in *.
  assert (Hrow : forall u, In u (map fst (rows r)) -> In u (nonBotIds tr)).
  { intros u Hin. apply in_map_iff in Hin. destruct Hin as ([u' p] & <- & Hin).
    rewrite Hrows in Hin. apply topN_incl in Hin.
    apply Hseen. rewrite <- Hkeys. now apply (in_map fst) in Hin. }
  repeat split.
  - intros Hin. apply nonBotIds_In.
    now apply (getReactorsForMessage_spec _ _ _ _ _ _ _ H).
  - intros Hex. apply (getReactorsForMessage_spec _ _ _ _ _ _ _ H).
    now apply nonBotIds_In.
  - exists points, seenUsers. rewrite Hkeys. repeat split; try apply Hseen. exact Hloop.
  - intros u p Hin. apply nonBotIds_In, Hrow. now apply (in_map fst) in Hin.
  - rewrite Huniq. f_equal. now apply NoDup_length_nodup.
  - intros u Hbot Hin. apply Hrow, nonBotIds_In in Hin.
    destruct Hin as (usr & Hin & Hid & Hb). rewrite (Hbot usr Hin Hid) in Hb. discriminate.
Qed.

Lemma bots_never_counted_witness :
  exists tr,
    runScan Fixture.codeUnitCompare Fixture.unreserved Fixture.week 5 Fixture.env None
      Fixture.now
    = (tr, Returned {| rows := [("u2", 2); ("u1", 1); ("u3", 1)];
                       names := [("u1", "<@u1>"); ("u2", "<@u2>"); ("u3", "<@u3>")];
                       uniqueReactors := 3 |}) /\
    In (Fixture.robot "bot9") (recordsOf tr) /\
    3 = Z.of_nat (List.length (nodup string_dec (nonBotIds tr))) /\
    ~ In "bot9" (map fst [("u2", 2); ("u1", 1); ("u3", 1)]).
Proof.
  eexists. split; [vm_compute; reflexivity |].
  split; [vm_compute; tauto |].
  pose proof (@bots_never_counted Fixture.codeUnitCompare Fixture.unreserved Fixture.week 5
                Fixture.env None Fixture.now _ _ eq_refl) as (_ & _ & _ & Hcount & Hbot).
  split; [exact Hcount |].
  apply Hbot. vm_compute. intros usr H Hid.
  repeat (destruct H as [<- | H]; [first [reflexivity | discriminate Hid] |]).
  contradiction.
Defined.

(** C9.  When a scan returns, the reported number of unique reactors is the
    size of the set of seen users, which is computed before any slice is
    taken, and for every [n] the top-[n] slice of the ledger has at most
    that many entries; the reported rows are the top-10 slice. *)
Theorem unique_reactors_bound_every_slice
    (localeCompare : string -> string -> Z) (encodeURIComponent : string -> string)
    (net : Discord) (fuel : nat) (env : Env) (windowMs : option Z) (now : Z)
    (tr : list Event) (r : ScanResult) :
  runScan localeCompare encodeURIComponent net fuel env windowMs now = (tr, Returned r) ->
  exists points seenUsers,
    scanLoop encodeURIComponent net fuel env (interp (SOURCE_CHANNEL_ID env))
      (now - defaulted windowMs MS_IN_WEEK) = (tr, Returned (points, seenUsers)) /\
    uniqueReactors r = Z.of_nat (List.length seenUsers) /\
    rows r = topN localeCompare points (Some 10) /\
    (forall n : option Z,
       Z.of_nat (List.length (topN localeCompare points n)) <= uniqueReactors r) /\
    Z.of_nat (List.length (rows r)) <= uniqueReactors r.
Proof.
  intros Hscan. apply runScan_Returned in Hscan.
  destruct Hscan as (points & seenUsers & Hloop & Hrows & Huniq).
  pose proof (scanLoop_inv _ _ _ _ _ _ Hloop) as (Hkeys & _ & _).
  cbn [fst snd] in Hkeys.
  assert (Hlen : List.length points = List.length seenUsers).
  { rewrite <- Hkeys. now rewrite length_map. }
  assert (Hall : forall n : option Z,
    Z.of_nat (List.length (topN localeCompare points n)) <= uniqueReactors r).
  { intros n. rewrite Huniq, <- Hlen. apply Nat2Z.inj_le, topN_length. }
  exists points, seenUsers. repeat split; try assumption.
  rewrite Hrows. apply Hall.
Qed.

Lemma unique_reactors_bound_every_slice_witness :
  exists points seenUsers,
    outcome (scanLoop Fixture.unreserved Fixture.week 5 Fixture.env "daily-reading-check"
               Fixture.windowStart) = Returned (points, seenUsers) /\
    3 = Z.of_nat (List.length seenUsers) /\
    (forall n : option Z,
       Z.of_nat (List.length (topN Fixture.codeUnitCompare points n)) <= 3).
Proof.
  destruct (@unique_reactors_bound_every_slice Fixture.codeUnitCompare Fixture.unreserved
              Fixture.week 5 Fixture.env None Fixture.now _ _ eq_refl)
    as (points & seenUsers & Hloop & Huniq & _ & Hall & _).
  exists points, seenUsers. split; [| split].
  - exact (f_equal snd Hloop).
  - exact Huniq.
  - exact Hall.
Defined.

(* ================================================================== *)
(** ** Early termination of the paginators *)

Lemma filter_recent_newestFirst (sinceTs : Z) (batch : list Message) :
  newestFirst batch ->
  filter (fun msg => ge_nan (timestamp msg) sinceTs) batch = freshPrefix sinceTs batch.
Proof.
  unfold newestFirst. intros [Hs Hv]. revert Hs Hv.
  induction batch as [| m rest IH]; intros Hs Hv; [reflexivity |].
  inversion Hs as [| ? ? Hs' Hall]; subst. inversion Hv as [| ? ? Hm Hv']; subst.
  cbn [filter freshPrefix]. unfold stale.
  destruct (timestamp m) as [t |] eqn:Ht; [| congruence]. cbn [ge_nan lt_nan].
  destruct (t <? sinceTs) eqn:E.
  - apply Z.ltb_lt in E. replace (sinceTs <=? t) with false by (symmetry; apply Z.leb_gt; lia).
    clear IH Hs' Hs Hv. induction rest as [| x rest IHr]; [reflexivity |].
    inversion Hall as [| ? ? Hx Hall']; subst. inversion Hv' as [| ? ? _ Hv'']; subst.
    cbn [filter]. destruct (timestamp x) as [tx |]; [| contradiction]. cbn [ge_nan].
    replace (sinceTs <=? tx) with false by (symmetry; apply Z.leb_gt; lia).
    now apply IHr.
  - apply Z.ltb_ge in E. replace (sinceTs <=? t) with true by (symmetry; apply Z.leb_le; lia).
    f_equal. now apply IH.
Qed.

Section EarlyTermination.

Variable net : Discord.

Let collect := fun (acc : list Message) (msg : Message) => ret (acc ++ [msg])%list.

(** On a page with a stale message the generator performs this one request,
    hands the messages in front of the stale one to the consumer, and
    returns: whatever follows in the page, and whatever the bound on
    further turns, plays no part. *)
Lemma iterateMessages_stale_page {St} (body : St -> Message -> Async St)
    (fuel : nat) (env : Env) (channelId : string) (sinceTs : Z) (before : option string)
    (s : St) (pre : list Message) (m : Message) (post : list Message) :
  let res := getMessages net (authorization (DISCORD_BOT_TOKEN env)) channelId (cursor before) in
  ok res = true ->
  json res = Some (pre ++ m :: post)%list ->
  forallb (fun x => negb (stale sinceTs x)) pre = true ->
  stale sinceTs m = true ->
  iterateMessages net body (S fuel) env channelId sinceTs before s =
  ((EvMessages channelId (cursor before) res :: trace (foldA body pre s))%list,
   outcome (foldA body pre s)).
Proof.
  intros res Hok Hj Hpre Hm. rewrite iterateMessages_S. unfold dFetch_messages.
  fold res. cbn [bind]. rewrite Hok, Hj. cbn [negb].
  destruct (freshPrefix_app sinceTs pre m post Hpre Hm) as [Hfp Hst].
  destruct (pre ++ m :: post)%list as [| m0 rest] eqn:Hb.
  - destruct pre; discriminate.
  - rewrite Hfp, Hst, bind_ret_r.
    destruct (foldA body pre s) as [tb o]; reflexivity.
Qed.

Lemma fetch_bind_trace {A B} (ev : Event) (a : A) (k : A -> Async B) :
  trace (bind ([ev], Returned a) k) = ev :: trace (k a).
Proof. cbn [bind]. now destruct (k a). Qed.

Lemma fetch_bind_outcome {A B} (ev : Event) (a : A) (k : A -> Async B) :
  outcome (bind ([ev], Returned a) k) = outcome (k a).
Proof. cbn [bind]. now destruct (k a). Qed.

Lemma yielded_stops (env : Env) (channelId : string) (sinceTs : Z) :
  forall fuel before acc,
    StopsAtFirstStale sinceTs
      (iterateMessages net collect fuel env channelId sinceTs before acc).
Proof.
  induction fuel as [| fuel IH]; intros before acc t1 channel b res t2 pre m post
    Htr Hok Hj Hpre Hm.
  - destruct t1; discriminate.
  - rewrite iterateMessages_S in Htr. rewrite iterateMessages_S.
    unfold dFetch_messages in Htr |- *.
    rewrite fetch_bind_trace in Htr. rewrite fetch_bind_outcome.
    remember (getMessages net (authorization (DISCORD_BOT_TOKEN env)) channelId
                (cursor before)) as res0 eqn:Hres0.
    clear Hres0.
    destruct (freshPrefix_app sinceTs pre m post Hpre Hm) as [Hfp Hst].
    assert (Hone :
      (EvMessages channelId (cursor before) res0 :: []
         = t1 ++ EvMessages channel b res :: t2)%list ->
      res = res0 /\ t2 = []).
    { intros E. destruct t1 as [| e t1].
      - injection E as _ _ -> <-. auto.
      - injection E as _ E. destruct t1; discriminate. }
    destruct (ok res0) eqn:Hok0; cbn [negb] in Htr |- *.
    + destruct (json res0) as [[| m0 rest] |] eqn:Hj0.
      * destruct (Hone Htr) as (-> & _).
        rewrite Hj0 in Hj. destruct pre; discriminate.
      * unfold collect in Htr |- *. rewrite foldA_collect, bind_ret_l in Htr.
        rewrite foldA_collect, bind_ret_l.
        destruct (hasStale sinceTs (m0 :: rest)) eqn:Hs.
        -- destruct (Hone Htr) as (-> & ->).
           rewrite Hj0 in Hj. injection Hj as Hj. rewrite Hj, Hfp.
           split; [reflexivity | now exists acc].
        -- fold collect in Htr |- *.
           destruct t1 as [| e t1].
           ++ injection Htr as _ _ Hres _. subst res0.
              rewrite Hj0 in Hj. injection Hj as Hj. rewrite Hj, Hst in Hs. discriminate.
           ++ injection Htr as _ Htr.
              apply (IH (Some (msg_id (last (m0 :: rest) m0)))
                        (acc ++ freshPrefix sinceTs (m0 :: rest))%list
                        t1 channel b res t2 pre m post); assumption.
      * destruct (Hone Htr) as (-> & _).
        rewrite Hj0 in Hj. discriminate.
    + destruct (Hone Htr) as (-> & _). congruence.
Qed.

End EarlyTermination.

Section RecentMessages.

Variable net : Discord.

(** On a page whose last message is older than the window start,
    [getRecentMessages] performs this one request and returns what it has
    collected followed by the messages of the page that are in the window,
    wherever they stand in the page. *)
Lemma recentLoop_stale_page (fuel : nat) (channelId : string) (botToken : option string)
    (limit oneWeekAgo : Z) (lastId : option string) (messages : list Message)
    (m0 : Message) (rest : list Message) :
  let res := getMessages net (authorization botToken) channelId (cursor lastId) in
  ok res = true ->
  json res = Some (m0 :: rest) ->
  stale oneWeekAgo (last (m0 :: rest) m0) = true ->
  Leaderboard.recentLoop net (S fuel) channelId botToken limit oneWeekAgo lastId messages =
  ([EvMessages channelId (cursor lastId) res],
   Returned (messages ++ filter (fun msg => ge_nan (timestamp msg) oneWeekAgo) (m0 :: rest))%list).
Proof.
  intros res Hok Hj Hs. cbn [Leaderboard.recentLoop]. fold res. cbn [bind].
  rewrite Hok, Hj. cbn [negb]. unfold stale in Hs. rewrite Hs. reflexivity.
Qed.

(** On a page ordered newest first that holds a stale message, the last
    message is stale. *)
Lemma newestFirst_last_stale (sinceTs : Z) (batch : list Message) (d m : Message) :
  newestFirst batch -> In m batch -> stale sinceTs m = true ->
  stale sinceTs (last batch d) = true.
Proof.
  unfold newestFirst. intros [Hs Hv]. revert Hs Hv m.
  induction batch as [| x rest IH]; intros Hs Hv m Hin Hm; [destruct Hin |].
  inversion Hs as [| ? ? Hs' Hall]; subst. inversion Hv as [| ? ? _ Hv']; subst.
  destruct rest as [| y rest'].
  - destruct Hin as [-> | []]. exact Hm.
  - change (last (x :: y :: rest') d) with (last (y :: rest') d).
    destruct Hin as [-> | Hin]; [| now apply (IH Hs' Hv' m)].
    assert (Hlast : In (last (y :: rest') d) (y :: rest')).
    { assert (Hne : y :: rest' <> []) by discriminate.
      rewrite (app_removelast_last d Hne) at 2. apply in_or_app. right. now left. }
    rewrite Forall_forall in Hall. specialize (Hall _ Hlast).
    unfold stale in Hm |- *.
    destruct (timestamp m) as [tm |]; [| discriminate].
    destruct (timestamp (last (y :: rest') d)) as [tl |]; [| contradiction].
    cbn [lt_nan] in Hm |- *. apply Z.ltb_lt in Hm. apply Z.ltb_lt. lia.
Qed.

(** On pages ordered newest first, [getRecentMessages] stops at the first
    stale message: the page that holds it is the last one requested, and
    of that page the messages in front of the stale one are returned. *)
Lemma recentLoop_stops (channelId : string) (botToken : option string)
    (limit oneWeekAgo : Z) :
  (forall c batch,
     json (getMessages net (authorization botToken) channelId c) = Some batch ->
     newestFirst batch) ->
  forall fuel lastId messages,
    StopsAtFirstStale oneWeekAgo
      (Leaderboard.recentLoop net fuel channelId botToken limit oneWeekAgo lastId messages).
Proof.
  intros Hpages.
  induction fuel as [| fuel IH]; intros lastId messages t1 channel b res t2 pre m post
    Htr Hok Hj Hpre Hm.
  - destruct t1; discriminate.
  - cbn [Leaderboard.recentLoop] in Htr |- *.
    rewrite fetch_bind_trace in Htr. rewrite fetch_bind_outcome.
    pose proof (Hpages (cursor lastId)) as Hnf.
    remember (getMessages net (authorization botToken) channelId (cursor lastId))
      as res0 eqn:Hres0.
    clear Hres0.
    destruct (freshPrefix_app oneWeekAgo pre m post Hpre Hm) as [Hfp _].
    assert (Hone :
      (EvMessages channelId (cursor lastId) res0 :: []
         = t1 ++ EvMessages channel b res :: t2)%list ->
      res = res0 /\ t2 = []).
    { intros E. destruct t1 as [| e t1].
      - injection E as _ _ -> <-. auto.
      - injection E as _ E. destruct t1; discriminate. }
    destruct (ok res0) eqn:Hok0; cbn [negb] in Htr |- *;
      [| destruct (Hone Htr) as (-> & _); congruence].
    destruct (json res0) as [[| m0 rest] |] eqn:Hj0.
    + destruct (Hone Htr) as (-> & _). rewrite Hj0 in Hj. destruct pre; discriminate.
    + specialize (Hnf _ eq_refl).
      destruct (lt_nan (timestamp (last (m0 :: rest) m0)) oneWeekAgo) eqn:Hlast.
      * destruct (Hone Htr) as (-> & ->).
        rewrite Hj0 in Hj. injection Hj as Hj.
        rewrite (filter_recent_newestFirst oneWeekAgo Hnf), Hj, Hfp.
        split; [reflexivity | now exists messages].
      * destruct t1 as [| e t1].
        -- injection Htr as _ _ Hres _. subst res0.
           rewrite Hj0 in Hj. injection Hj as Hj.
           assert (Hs : stale oneWeekAgo (last (m0 :: rest) m0) = true).
           { apply (newestFirst_last_stale oneWeekAgo m0 m Hnf); [| exact Hm].
             rewrite Hj. apply in_or_app. right. now left. }
           unfold stale in Hs. congruence.
        -- injection Htr as _ Htr.
           destruct (limit <=? Z.of_nat (List.length (messages ++ m0 :: rest))).
           ++ destruct (limit <? 0); destruct t1; discriminate.
           ++ apply (IH (Some (msg_id (last (m0 :: rest) m0))) (messages ++ m0 :: rest)%list
                        t1 channel b res t2 pre m post); assumption.
    + destruct (Hone Htr) as (-> & _). rewrite Hj0 in Hj. discriminate.
Qed.

End RecentMessages.

(** C2.  The paginators stop at the first stale message of a page.  The
    generator of the worker hands the messages in front of it to the
    consumer, yields nothing behind it and requests no further page.
    [getRecentMessages] decides on the last message of the page: when that
    one is stale it requests no further page and keeps the messages of the
    page that are in the window; on pages ordered newest first, as the
    source delivers them, a stale message makes the last one stale and the
    messages kept are those in front of the first stale one, so that
    [getRecentMessages] stops at the first stale message too. *)
Theorem paginators_stop_at_stale_message
    (net : Discord) (env : Env) (channelId : string) (sinceTs : Z) :
  (forall fuel before,
     StopsAtFirstStale sinceTs (yielded net fuel env channelId sinceTs before)) /\
  (forall (St : Type) (body : St -> Message -> Async St) fuel before s pre m post,
     let res :=
       getMessages net (authorization (DISCORD_BOT_TOKEN env)) channelId (cursor before) in
     ok res = true ->
     json res = Some (pre ++ m :: post)%list ->
     forallb (fun x => negb (stale sinceTs x)) pre = true ->
     stale sinceTs m = true ->
     iterateMessages net body (S fuel) env channelId sinceTs before s =
     ((EvMessages channelId (cursor before) res :: trace (foldA body pre s))%list,
      outcome (foldA body pre s))) /\
  (forall fuel botToken limit lastId messages m0 rest,
     let res := getMessages net (authorization botToken) channelId (cursor lastId) in
     let recent := filter (fun msg => ge_nan (timestamp msg) sinceTs) (m0 :: rest) in
     ok res = true ->
     json res = Some (m0 :: rest) ->
     stale sinceTs (last (m0 :: rest) m0) = true ->
     Leaderboard.recentLoop net (S fuel) channelId botToken limit sinceTs lastId messages =
     ([EvMessages channelId (cursor lastId) res], Returned (messages ++ recent)%list) /\
     (newestFirst (m0 :: rest) -> recent = freshPrefix sinceTs (m0 :: rest))) /\
  (forall fuel botToken limit now,
     (forall c batch,
        json (getMessages net (authorization botToken) channelId c) = Some batch ->
        newestFirst batch) ->
     StopsAtFirstStale (now - MS_IN_WEEK)
       (Leaderboard.getRecentMessages net fuel channelId botToken limit now)).
Proof.
  split; [| split; [| split]].
  - intros fuel before. unfold yielded. apply yielded_stops.
  - intros St body fuel before s pre m post. apply iterateMessages_stale_page.
  - intros fuel botToken limit lastId messages m0 rest res recent Hok Hj Hs. split.
    + now apply recentLoop_stale_page.
    + intros Hsorted. now apply filter_recent_newestFirst.
  - intros fuel botToken limit now Hpages. unfold Leaderboard.getRecentMessages.
    now apply recentLoop_stops.
Qed.

Lemma week_newestFirst (auth channelId : string) (c : option string)
    (batch : list Message) :
  json (getMessages Fixture.week auth channelId c) = Some batch -> newestFirst batch.
Proof.
  destruct c as [c |]; cbn; intros H; injection H as <-.
  - split; constructor.
  - split.
    + repeat constructor; cbn; lia.
    + repeat constructor; discriminate.
Qed.

Lemma paginators_stop_at_stale_message_witness :
  let run :=
    Leaderboard.getRecentMessages Fixture.week 5 "daily-reading-check" (Some "token")
      None Fixture.now in
  StopsAtFirstStale (Fixture.now - MS_IN_WEEK) run /\
  run = ([EvMessages "daily-reading-check" None
            (Fixture.success (Some [Fixture.A; Fixture.B; Fixture.C; Fixture.D]))],
         Returned [Fixture.A; Fixture.B; Fixture.C]).
Proof.
  split; [| reflexivity].
  apply (proj2 (proj2 (proj2 (@paginators_stop_at_stale_message Fixture.week Fixture.env
                                "daily-reading-check" (Fixture.now - MS_IN_WEEK))))).
  intros c batch. apply week_newestFirst.
Defined.

(** On a page that is not ordered newest first, [getRecentMessages] returns
    a message that stands behind a stale one, where the generator of the
    worker stops; and when the last message of the page is in the window it
    keeps the stale message and requests a further page. *)
Lemma getRecentMessages_passes_stale_message :
  let run :=
    Leaderboard.getRecentMessages Fixture.outOfOrder 5 "daily-reading-check"
      (Some "token") None Fixture.now in
  outcome run = Returned [Fixture.A; Fixture.B] /\
  ~ StopsAtFirstStale Fixture.windowStart run /\
  outcome (yielded Fixture.outOfOrder 5 Fixture.env "daily-reading-check"
             Fixture.windowStart None) = Returned [Fixture.A] /\
  Leaderboard.getRecentMessages Fixture.staleInside 5 "daily-reading-check"
    (Some "token") None Fixture.now
  = ([EvMessages "daily-reading-check" None
        (Fixture.success (Some [Fixture.A; Fixture.D; Fixture.B]));
      EvMessages "daily-reading-check" (Some "B") (Fixture.success (Some []))],
     Returned [Fixture.A; Fixture.D; Fixture.B]).
Proof.
  intros run. split; [reflexivity |]. split; [| split; reflexivity].
  intros H.
  destruct (H [] "daily-reading-check" None
              (Fixture.success (Some [Fixture.A; Fixture.D; Fixture.B; Fixture.E]))
              [] [Fixture.A] Fixture.D [Fixture.B; Fixture.E]
              eq_refl eq_refl eq_refl eq_refl eq_refl) as (_ & earlier & He).
  change (outcome run) with (Returned [Fixture.A; Fixture.B]) in He.
  injection He as He. apply (f_equal (@rev Message)) in He.
  rewrite rev_app_distr in He. cbn [rev app] in He. discriminate.
Qed.

(* ================================================================== *)
(** ** The ranking *)

Lemma codeUnitCompare_collation : Collation Fixture.codeUnitCompare.
Proof.
  assert (Hle : forall a b, Fixture.codeUnitCompare a b <= 0 <->
                            a = b \/ String_as_OT.lt a b).
  { intros a b. unfold Fixture.codeUnitCompare.
    destruct (String_as_OT.compare_spec a b) as [He | Hl | Hg].
    - split; [auto | lia].
    - split; [auto | lia].
    - split; [lia |]. intros [-> | Hl].
      + exfalso. eapply StrictOrder_Irreflexive. exact Hg.
      + exfalso. eapply StrictOrder_Irreflexive. etransitivity; eassumption. }
  constructor.
  - intros a b H. apply Hle. unfold Fixture.codeUnitCompare in H.
    destruct (String_as_OT.compare_spec a b) as [He | Hl | Hg]; try lia. now right.
  - intros a b c Hab Hbc. apply Hle. apply Hle in Hab, Hbc.
    destruct Hab as [-> | Hab]; [assumption |].
    destruct Hbc as [<- | Hbc]; [now right |].
    right. etransitivity; eassumption.
  - intros a b Hab Hba. apply Hle in Hab, Hba.
    destruct Hab as [-> | Hab]; [reflexivity |].
    destruct Hba as [-> | Hba]; [reflexivity |].
    exfalso. eapply StrictOrder_Irreflexive. etransitivity; eassumption.
Qed.

Section Ranking.

Variable localeCompare : string -> string -> Z.
Hypothesis collation : Collation localeCompare.

Lemma byPointsThenId_le (a b : string * Z) :
  byPointsThenId localeCompare a b <= 0 <-> rankedBefore localeCompare a b.
Proof.
  unfold byPointsThenId, rankedBefore.
  destruct (snd b - snd a =? 0) eqn:E.
  - apply Z.eqb_eq in E. split; [intros H; right; split; [lia | exact H] |].
    intros [H | [_ H]]; [lia | exact H].
  - apply Z.eqb_neq in E. split; [intros H; left; lia | intros [H | [H _]]; lia].
Qed.

Lemma byPointsThenId_total (a b : string * Z) :
  0 < byPointsThenId localeCompare a b -> byPointsThenId localeCompare b a <= 0.
Proof.
  intros H. apply byPointsThenId_le. unfold byPointsThenId, rankedBefore in *.
  destruct (snd b - snd a =? 0) eqn:E.
  - apply Z.eqb_eq in E. right. split; [lia |]. now apply (collation_total collation).
  - left. lia.
Qed.

Lemma byPointsThenId_trans (a b c : string * Z) :
  byPointsThenId localeCompare a b <= 0 -> byPointsThenId localeCompare b c <= 0 ->
  byPointsThenId localeCompare a c <= 0.
Proof.
  rewrite !byPointsThenId_le. unfold rankedBefore.
  intros [H1 | [H1 L1]] [H2 | [H2 L2]]; try (left; lia).
  right. split; [lia |]. eapply (collation_trans collation); eassumption.
Qed.

Lemma byPointsThenId_antisym (a b : string * Z) :
  byPointsThenId localeCompare a b <= 0 -> byPointsThenId localeCompare b a <= 0 -> a = b.
Proof.
  rewrite !byPointsThenId_le. unfold rankedBefore.
  intros [H1 | [H1 L1]] [H2 | [H2 L2]]; try lia.
  destruct a as [ka pa], b as [kb pb]. cbn [fst snd] in *. subst pb. f_equal.
  now apply (collation_separates collation).
Qed.

Lemma topN_sorted (points : JsMap Z) (n : option Z) :
  StronglySorted (rankedBefore localeCompare) (topN localeCompare points n).
Proof.
  unfold topN. apply slice0_sorted.
  eapply StronglySorted_impl;
    [| exact (sort_sorted (byPointsThenId localeCompare)
                byPointsThenId_total byPointsThenId_trans points)].
  intros a b Hab. now apply byPointsThenId_le.
Qed.

Lemma topN_order_independent (points points' : JsMap Z) (n : option Z) :
  Permutation points points' ->
  topN localeCompare points' n = topN localeCompare points n.
Proof.
  intros Hp. unfold topN. f_equal. symmetry.
  apply (sort_order_independent (byPointsThenId localeCompare)
           byPointsThenId_total byPointsThenId_trans byPointsThenId_antisym).
  exact Hp.
Qed.

End Ranking.

Lemma sortedUsers_sorted (userPoints : JsMap Z) :
  StronglySorted notFewerPoints (sortedUsers userPoints).
Proof.
  unfold sortedUsers. apply slice0_sorted.
  eapply StronglySorted_impl; [| apply (sort_sorted Leaderboard.byPoints)].
  - unfold notFewerPoints, Leaderboard.byPoints. intros a b Hab. cbv beta in Hab. lia.
  - unfold Leaderboard.byPoints. intros; lia.
  - unfold Leaderboard.byPoints. intros; lia.
Qed.

Lemma sortedUsers_ties (userPoints : JsMap Z) (p : Z) :
  filter (fun e => snd e =? p) (sort Leaderboard.byPoints userPoints)
  = filter (fun e => snd e =? p) userPoints.
Proof.
  apply sort_stable. intros a b Ha Hb.
  apply Z.eqb_eq in Ha, Hb. unfold Leaderboard.byPoints. lia.
Qed.

Lemma mapi_from_ext {A B} (f g : A -> nat -> B) (l : list A) : forall i,
  (forall x j, f x j = g x j) -> mapi_from f i l = mapi_from g i l.
Proof.
  induction l as [| x l IH]; intros i H; cbn [mapi_from]; [reflexivity |].
  now rewrite H, IH.
Qed.

Lemma generateLeaderboardEmbed_fields (userPoints : JsMap Z) (iso : string) :
  fields (Leaderboard.generateLeaderboardEmbed userPoints iso)
  = mapi_from fieldOf 0 (sortedUsers userPoints).
Proof.
  unfold Leaderboard.generateLeaderboardEmbed, sortedUsers. cbn [fields].
  apply mapi_from_ext. intros [userId points] j. reflexivity.
Qed.

(** C3.  [topN] of the worker lists entries of the ledger, at
    most [n] of them (10 by default) for a non-negative [n], sorted by
    points descending and, among equal points, by identifier ascending in
    the order of [localeCompare]; when [localeCompare] is a total order
    that tells distinct identifiers apart, the list does not depend on the
    order of the ledger's entries.  [generateLeaderboardEmbed] lists at
    most 10 entries sorted by points descending only: entries with equal
    points keep the order they have in the ledger. *)
Theorem leaderboard_ranking_order
    (localeCompare : string -> string -> Z) (points : JsMap Z) (n : option Z)
    (iso : string) :
  Collation localeCompare ->
  (StronglySorted (rankedBefore localeCompare) (topN localeCompare points n) /\
   incl (topN localeCompare points n) points /\
   (0 <= defaulted n 10 ->
    Z.of_nat (List.length (topN localeCompare points n)) <= defaulted n 10) /\
   (forall points', Permutation points points' ->
      topN localeCompare points' n = topN localeCompare points n)) /\
  (StronglySorted notFewerPoints (sortedUsers points) /\
   Z.of_nat (List.length (sortedUsers points)) <= 10 /\
   (forall p, filter (fun e => snd e =? p) (sort Leaderboard.byPoints points)
              = filter (fun e => snd e =? p) points) /\
   fields (Leaderboard.generateLeaderboardEmbed points iso)
   = mapi_from fieldOf 0 (sortedUsers points)).
Proof.
  intros Hc. split; repeat split.
  - now apply topN_sorted.
  - apply topN_incl.
  - intros Hn. unfold topN. now apply slice0_length_bound.
  - intros points' Hp. now apply topN_order_independent.
  - apply sortedUsers_sorted.
  - unfold sortedUsers. apply slice0_length_bound. lia.
  - apply sortedUsers_ties.
  - apply generateLeaderboardEmbed_fields.
Qed.

Lemma leaderboard_ranking_order_witness :
  Collation Fixture.codeUnitCompare /\
  topN Fixture.codeUnitCompare [("u1", 1); ("u2", 2); ("u3", 1)] None
    = [("u2", 2); ("u1", 1); ("u3", 1)] /\
  StronglySorted (rankedBefore Fixture.codeUnitCompare)
    (topN Fixture.codeUnitCompare [("u1", 1); ("u2", 2); ("u3", 1)] None) /\
  topN Fixture.codeUnitCompare [("u3", 1); ("u2", 2); ("u1", 1)] None
    = topN Fixture.codeUnitCompare [("u1", 1); ("u2", 2); ("u3", 1)] None.
Proof.
  split; [exact codeUnitCompare_collation |]. split; [reflexivity |].
  destruct (@leaderboard_ranking_order Fixture.codeUnitCompare
              [("u1", 1); ("u2", 2); ("u3", 1)] None "" codeUnitCompare_collation)
    as [(Hsorted & _ & _ & Hperm) _].
  split; [exact Hsorted |].
  apply Hperm.
  apply perm_trans with (l' := [("u2", 2); ("u1", 1); ("u3", 1)]).
  - apply perm_swap.
  - apply perm_trans with (l' := [("u2", 2); ("u3", 1); ("u1", 1)]).
    + apply perm_skip, perm_swap.
    + apply perm_swap.
Defined.

(** In leaderboard.js two users with equal points are ranked in the order
    of the ledger, here the later identifier first, and the ranking changes
    with the order of the ledger's entries. *)
Lemma generateLeaderboardEmbed_ties_follow_ledger :
  let ledger := Leaderboard.calculatePoints [Fixture.B; Fixture.A] in
  ledger = [("bob", 1); ("alice", 1)] /\
  sortedUsers ledger = [("bob", 1); ("alice", 1)] /\
  ~ StronglySorted (rankedBefore Fixture.codeUnitCompare) (sortedUsers ledger) /\
  sortedUsers [("alice", 1); ("bob", 1)] <> sortedUsers ledger /\
  fields (Leaderboard.generateLeaderboardEmbed ledger "")
  = [{| field_name := "#1"; field_value := "<@bob> - 1 points"; inline := false |};
     {| field_name := "#2"; field_value := "<@alice> - 1 points"; inline := false |}].
Proof.
  intros ledger. split; [reflexivity |]. split; [reflexivity |].
  split; [| split; [discriminate | reflexivity]].
  intros Hs. change (sortedUsers ledger) with [("bob", 1); ("alice", 1)] in Hs.
  inversion Hs as [| ? ? _ Hall]; subst. inversion Hall as [| ? ? Hr _]; subst.
  unfold rankedBefore in Hr. cbn in Hr. destruct Hr as [Hr | [_ Hr]]; lia.
Qed.

(* ================================================================== *)
(** ** Transport failures *)

Section Propagation.

Variable err : Event -> string.

Lemma Propagates_pure {A} (o : Outcome A) : Propagates err (([] : list Event), o).
Proof. intros ev []. Qed.

Lemma Propagates_bind {A B} (c : Async A) (k : A -> Async B) :
  Propagates err c -> (forall a, Propagates err (k a)) -> Propagates err (bind c k).
Proof.
  intros Hc Hk ev Hin Hf. rewrite bind_trace in Hin. rewrite bind_outcome.
  destruct (outcome c) as [a | e |] eqn:Ho.
  - apply in_app_iff in Hin. destruct Hin as [Hin | Hin].
    + specialize (Hc ev Hin Hf). congruence.
    + now apply Hk.
  - specialize (Hc ev Hin Hf). congruence.
  - specialize (Hc ev Hin Hf). congruence.
Qed.

(** A request followed by [if (!res.ok) throw ...]. *)
Lemma Propagates_fetch {A B} (ev : Event) (a : A) (k : A -> Async B) :
  (failed ev = true -> k a = throw (err ev)) ->
  (failed ev = false -> Propagates err (k a)) ->
  Propagates err (bind ([ev], Returned a) k).
Proof.
  intros Hbad Hk ev' Hin Hf. rewrite fetch_bind_trace in Hin. rewrite fetch_bind_outcome.
  destruct (failed ev) eqn:E.
  - rewrite Hbad in Hin |- * by reflexivity. destruct Hin as [<- | []]. reflexivity.
  - destruct Hin as [<- | Hin]; [congruence | now apply Hk].
Qed.

Lemma Propagates_foldA {St X} (body : St -> X -> Async St) :
  (forall s x, Propagates err (body s x)) ->
  forall xs s, Propagates err (foldA body xs s).
Proof.
  intros Hb. induction xs as [| x xs IH]; intros s; cbn [foldA].
  - apply Propagates_pure.
  - apply Propagates_bind; [apply Hb | intros s'; apply IH].
Qed.

End Propagation.

(** A request whose response [res] is checked with [if (!res.ok) throw]:
    the failed case throws the error of the response, the other case is
    left to prove. *)
Ltac fetch_then_check res :=
  apply Propagates_fetch; unfold failed;
  cbn [failedStatus workerError leaderboardError];
  destruct (ok res); intros ?Hf; try discriminate; cbn [negb]; [reflexivity |].

Lemma ReadOnly_pure {A} (o : Outcome A) : ReadOnly (([] : list Event), o).
Proof. constructor. Qed.

Lemma ReadOnly_bind {A B} (c : Async A) (k : A -> Async B) :
  ReadOnly c -> (forall a, ReadOnly (k a)) -> ReadOnly (bind c k).
Proof.
  unfold ReadOnly. intros Hc Hk. rewrite bind_trace.
  destruct (outcome c) as [a | e |]; try assumption.
  apply Forall_app. split; [assumption | apply Hk].
Qed.

Lemma ReadOnly_foldA {St X} (body : St -> X -> Async St) :
  (forall s x, ReadOnly (body s x)) ->
  forall xs s, ReadOnly (foldA body xs s).
Proof.
  intros Hb. induction xs as [| x xs IH]; intros s; cbn [foldA].
  - apply ReadOnly_pure.
  - apply ReadOnly_bind; [apply Hb | intros s'; apply IH].
Qed.

Section WorkerFailures.

Variable localeCompare : string -> string -> Z.
Variable encodeURIComponent : string -> string.
Variable net : Discord.

Lemma iterateMessages_propagates {St} (body : St -> Message -> Async St)
    (env : Env) (channelId : string) (sinceTs : Z) :
  (forall s m, Propagates workerError (body s m)) ->
  forall fuel before s,
    Propagates workerError (iterateMessages net body fuel env channelId sinceTs before s).
Proof.
  intros Hb. induction fuel as [| fuel IH]; intros before s.
  - apply Propagates_pure.
  - rewrite iterateMessages_S. unfold dFetch_messages.
    set (res := getMessages net _ channelId (cursor before)).
    fetch_then_check res.
    destruct (json res) as [[| m0 rest] |]; try apply Propagates_pure.
    apply Propagates_bind; [now apply Propagates_foldA |].
    intros s'. destruct (hasStale sinceTs (m0 :: rest)); [apply Propagates_pure | apply IH].
Qed.

Lemma iterateMessages_readOnly {St} (body : St -> Message -> Async St)
    (env : Env) (channelId : string) (sinceTs : Z) :
  (forall s m, ReadOnly (body s m)) ->
  forall fuel before s,
    ReadOnly (iterateMessages net body fuel env channelId sinceTs before s).
Proof.
  intros Hb. induction fuel as [| fuel IH]; intros before s.
  - apply ReadOnly_pure.
  - rewrite iterateMessages_S. apply ReadOnly_bind; [repeat constructor |].
    intros res. destruct (negb (ok res)); [apply ReadOnly_pure |].
    destruct (json res) as [[| m0 rest] |]; try apply ReadOnly_pure.
    apply ReadOnly_bind; [now apply ReadOnly_foldA |].
    intros s'. destruct (hasStale sinceTs (m0 :: rest)); [apply ReadOnly_pure | apply IH].
Qed.

Lemma reactionPages_propagates (env : Env) (channelId messageId ident : string) :
  forall fuel after users,
    Propagates workerError (reactionPages net fuel env channelId messageId ident after users).
Proof.
  induction fuel as [| fuel IH]; intros after users; cbn [reactionPages].
  - apply Propagates_pure.
  - unfold dFetch_reactions.
    set (res := getReactions net _ channelId messageId ident (cursor after)).
    fetch_then_check res.
    destruct (json res) as [| u0 batch]; [apply Propagates_pure |].
    destruct (List.length (u0 :: batch) <? 100)%nat; [apply Propagates_pure | apply IH].
Qed.

Lemma reactionPages_readOnly (env : Env) (channelId messageId ident : string) :
  forall fuel after users,
    ReadOnly (reactionPages net fuel env channelId messageId ident after users).
Proof.
  induction fuel as [| fuel IH]; intros after users; cbn [reactionPages].
  - apply ReadOnly_pure.
  - apply ReadOnly_bind; [repeat constructor |].
    intros res. destruct (negb (ok res)); [apply ReadOnly_pure |].
    destruct (json res) as [| u0 batch]; [apply ReadOnly_pure |].
    destruct (List.length (u0 :: batch) <? 100)%nat; [apply ReadOnly_pure | apply IH].
Qed.

Lemma getReactorsForMessage_propagates (fuel : nat) (env : Env) (channelId messageId : string)
    (reactionsSummary : option (list ReactionSummary)) :
  Propagates workerError
    (getReactorsForMessage encodeURIComponent net fuel env channelId messageId
       reactionsSummary) /\
  ReadOnly
    (getReactorsForMessage encodeURIComponent net fuel env channelId messageId
       reactionsSummary).
Proof.
  unfold getReactorsForMessage.
  destruct reactionsSummary as [[| r rs] |];
    try (split; [apply Propagates_pure | apply ReadOnly_pure]).
  split.
  - apply Propagates_foldA. intros users r'. unfold reactionStep.
    destruct (emoji r'); [| apply Propagates_pure].
    destruct (count r' =? 0); [apply Propagates_pure | apply reactionPages_propagates].
  - apply ReadOnly_foldA. intros users r'. unfold reactionStep.
    destruct (emoji r'); [| apply ReadOnly_pure].
    destruct (count r' =? 0); [apply ReadOnly_pure | apply reactionPages_readOnly].
Qed.

Lemma scoreMessage_propagates (fuel : nat) (env : Env) (source : string)
    (st : JsMap Z * JsSet) (m : Message) :
  Propagates workerError (scoreMessage encodeURIComponent net fuel env source st m) /\
  ReadOnly (scoreMessage encodeURIComponent net fuel env source st m).
Proof.
  unfold scoreMessage.
  destruct (reactions m) as [[| r rs] |];
    try (split; [apply Propagates_pure | apply ReadOnly_pure]).
  split.
  - apply Propagates_bind; [apply getReactorsForMessage_propagates |].
    intros reactors. apply Propagates_pure.
  - apply ReadOnly_bind; [apply getReactorsForMessage_propagates |].
    intros reactors. apply ReadOnly_pure.
Qed.

Lemma runScan_propagates (fuel : nat) (env : Env) (windowMs : option Z) (now : Z) :
  Propagates workerError
    (runScan localeCompare encodeURIComponent net fuel env windowMs now) /\
  ReadOnly (runScan localeCompare encodeURIComponent net fuel env windowMs now).
Proof.
  unfold runScan.
  destruct (negb (truthy_opt (DISCORD_BOT_TOKEN env))
            || negb (truthy_opt (SOURCE_CHANNEL_ID env)));
    [split; [apply Propagates_pure | apply ReadOnly_pure] |].
  split.
  - apply Propagates_bind.
    + unfold scanLoop. apply iterateMessages_propagates.
      intros s m. apply scoreMessage_propagates.
    + intros st. unfold buildNameMap. rewrite bind_ret_l. apply Propagates_pure.
  - apply ReadOnly_bind.
    + unfold scanLoop. apply iterateMessages_readOnly.
      intros s m. apply scoreMessage_propagates.
    + intros st. unfold buildNameMap. rewrite bind_ret_l. apply ReadOnly_pure.
Qed.

End WorkerFailures.

Lemma String_of_inj (a b : Z) : String_of a = String_of b -> a = b.
Proof.
  unfold String_of. intros H. apply DecimalZ.to_int_inj.
  apply (f_equal NilEmpty.int_of_string) in H.
  rewrite !NilEmpty.isi in H. now injection H.
Qed.

Lemma append_inj_l (p a b : string) : (p ++ a = p ++ b)%string -> a = b.
Proof.
  induction p as [| c p IH]; cbn [append]; intros H; [assumption |].
  injection H as H. now apply IH.
Qed.

(** The worker's error for a failed read tells the status code. *)
Lemma workerError_identifies (ev ev' : Event) (code code' : Z) :
  isPost ev = false -> isPost ev' = false ->
  failedStatus ev = Some code -> failedStatus ev' = Some code' ->
  workerError ev = workerError ev' -> code = code'.
Proof.
  destruct ev as [c b res | c m i a res | c e res];
    destruct ev' as [c' b' res' | c' m' i' a' res' | c' e' res'];
    cbn [isPost failedStatus workerError]; intros Hp Hp' Hc Hc' H;
    try discriminate Hp; try discriminate Hp';
    try (exfalso; cbn in H; discriminate H).
  - destruct (ok res); [discriminate |]. destruct (ok res'); [discriminate |].
    injection Hc as <-. injection Hc' as <-.
    apply append_inj_l in H. now apply String_of_inj.
  - destruct (ok res); [discriminate |]. destruct (ok res'); [discriminate |].
    injection Hc as <-. injection Hc' as <-.
    apply append_inj_l in H. now apply String_of_inj.
Qed.

Section LeaderboardFailures.

Variable net : Discord.

Lemma recentLoop_propagates (channelId : string) (botToken : option string)
    (limit oneWeekAgo : Z) :
  forall fuel lastId messages,
    Propagates leaderboardError
      (Leaderboard.recentLoop net fuel channelId botToken limit oneWeekAgo lastId messages) /\
    ReadOnly
      (Leaderboard.recentLoop net fuel channelId botToken limit oneWeekAgo lastId messages).
Proof.
  induction fuel as [| fuel IH]; intros lastId messages; cbn [Leaderboard.recentLoop].
  - split; [apply Propagates_pure | apply ReadOnly_pure].
  - set (res := getMessages net _ channelId (cursor lastId)).
    split.
    + fetch_then_check res.
      destruct (json res) as [[| m0 rest] |]; try apply Propagates_pure.
      destruct (lt_nan (timestamp (last (m0 :: rest) m0)) oneWeekAgo);
        [apply Propagates_pure |].
      destruct (limit <=? Z.of_nat (List.length (messages ++ m0 :: rest))).
      * destruct (limit <? 0); apply Propagates_pure.
      * apply IH.
    + apply ReadOnly_bind; [repeat constructor |]. intros r.
      destruct (negb (ok r)); [apply ReadOnly_pure |].
      destruct (json r) as [[| m0 rest] |]; try apply ReadOnly_pure.
      destruct (lt_nan (timestamp (last (m0 :: rest) m0)) oneWeekAgo);
        [apply ReadOnly_pure |].
      destruct (limit <=? Z.of_nat (List.length (messages ++ m0 :: rest))).
      * destruct (limit <? 0); apply ReadOnly_pure.
      * apply IH.
Qed.

Lemma generateAndPostLeaderboard_propagates (fuel : nat) (env : Env) (limit : option Z)
    (now : Z) (iso : string) :
  Propagates leaderboardError
    (Leaderboard.generateAndPostLeaderboard net fuel env limit now iso).
Proof.
  unfold Leaderboard.generateAndPostLeaderboard, Leaderboard.getRecentMessages.
  apply Propagates_bind; [apply recentLoop_propagates |].
  intros messages. apply Propagates_bind; [| intros []; apply Propagates_pure].
  unfold Leaderboard.postLeaderboard.
  set (embed := Leaderboard.generateLeaderboardEmbed _ iso).
  set (res := postMessage net _ _ embed).
  fetch_then_check res. apply Propagates_pure.
Qed.

End LeaderboardFailures.

(** When the scan of a scheduled run met a failed read, nothing was
    posted. *)
Lemma post_after_scan_readOnly {A} (err : Event -> string) (scan : Async A)
    (post : A -> Async unit) :
  Propagates err scan -> ReadOnly scan ->
  (forall a ev, In ev (trace (post a)) -> isPost ev = true) ->
  forall ev, In ev (trace (bind scan post)) -> failed ev = true -> isPost ev = false ->
             ReadOnly (bind scan post).
Proof.
  intros Hp Hr Hpost ev Hin Hf Hnp. unfold ReadOnly. rewrite bind_trace in Hin |- *.
  destruct (outcome scan) as [a | e |] eqn:Ho; try assumption.
  apply in_app_iff in Hin. destruct Hin as [Hin | Hin].
  - specialize (Hp ev Hin Hf). congruence.
  - apply Hpost in Hin. congruence.
Qed.

Lemma postFancyLeaderboard_propagates (net : Discord) (env : Env) (channelId : string)
    (rows : list (string * Z)) (nameLookup : JsMap string) (meta : option Meta)
    (iso : string) :
  Propagates workerError
    (postFancyLeaderboard net env channelId rows nameLookup meta iso) /\
  (forall ev, In ev (trace (postFancyLeaderboard net env channelId rows nameLookup meta iso)) ->
              isPost ev = true).
Proof.
  unfold postFancyLeaderboard, dFetch_post.
  set (embed := fancyEmbed rows nameLookup meta iso).
  set (res := postMessage net _ channelId embed). split.
  - fetch_then_check res. apply Propagates_pure.
  - intros ev Hin. rewrite fetch_bind_trace in Hin.
    destruct (negb (ok res)); destruct Hin as [<- | []]; reflexivity.
Qed.

(** C5.  In both variants a response that is not a success,
    to any request of a scan, makes the scan throw the error of that
    response: the scan does not return, so no leaderboard is built from
    what was collected, and the scheduled run posts nothing.  In the worker
    the error of a failed read tells the status code, and the slash command
    answers with the failure notice.  In leaderboard.js the error carries
    the status text of the response, not its status code. *)
Theorem transport_failure_aborts_scan
    (localeCompare : string -> string -> Z) (encodeURIComponent : string -> string)
    (net : Discord) (fuel : nat) (env : Env) (windowMs limit : option Z) (now : Z)
    (iso : string) :
  let scan := runScan localeCompare encodeURIComponent net fuel env windowMs now in
  let weekly := scheduled localeCompare encodeURIComponent net fuel env now iso in
  let routed := Leaderboard.generateAndPostLeaderboard net fuel env limit now iso in
  (Propagates workerError scan /\
   Propagates workerError weekly /\
   (forall ev, In ev (trace weekly) -> failed ev = true -> isPost ev = false ->
               ReadOnly weekly) /\
   (forall ev,
      In ev (trace (runScan localeCompare encodeURIComponent net fuel env None now)) ->
      failed ev = true ->
      slashLeaderboard localeCompare encodeURIComponent net fuel env now iso
      = Some (FollowContent "Failed to compute leaderboard.")) /\
   (forall ev ev' code code',
      isPost ev = false -> isPost ev' = false ->
      failedStatus ev = Some code -> failedStatus ev' = Some code' ->
      workerError ev = workerError ev' -> code = code')) /\
  (Propagates leaderboardError routed /\
   (forall channel before res,
      leaderboardError (EvMessages channel before res)
      = "Failed to fetch messages: " ++ statusText res)).
Proof.
  intros scan weekly routed. split; [| split].
  - split; [apply runScan_propagates |]. split; [| split; [| split]].
    + unfold weekly, scheduled. apply Propagates_bind; [apply runScan_propagates |].
      intros r. apply postFancyLeaderboard_propagates.
    + unfold weekly, scheduled. apply (@post_after_scan_readOnly _ workerError).
      * apply runScan_propagates.
      * apply runScan_propagates.
      * intros r. apply postFancyLeaderboard_propagates.
    + intros ev Hin Hf. unfold slashLeaderboard.
      destruct (runScan_propagates localeCompare encodeURIComponent net fuel env None now)
        as [Hp _].
      now rewrite (Hp ev Hin Hf).
    + apply workerError_identifies.
  - apply generateAndPostLeaderboard_propagates.
  - reflexivity.
Qed.

(** On a Discord that refuses the first page of messages, leaderboard.js
    raises the same error for the status codes 404 and 500, while the
    worker raises an error with the code; so does the worker when the users
    of a reaction are refused. *)
Lemma getRecentMessages_error_omits_status :
  outcome (Leaderboard.generateAndPostLeaderboard (Fixture.down 404) 5 Fixture.env None
             Fixture.now "") = Threw "Failed to fetch messages: " /\
  outcome (Leaderboard.generateAndPostLeaderboard (Fixture.down 500) 5 Fixture.env None
             Fixture.now "") = Threw "Failed to fetch messages: " /\
  outcome (runScan Fixture.codeUnitCompare Fixture.unreserved (Fixture.down 404) 5
             Fixture.env None Fixture.now) = Threw "Get messages failed: 404" /\
  outcome (runScan Fixture.codeUnitCompare Fixture.unreserved (Fixture.down 500) 5
             Fixture.env None Fixture.now) = Threw "Get messages failed: 500" /\
  outcome (runScan Fixture.codeUnitCompare Fixture.unreserved (Fixture.reactionsDown 429) 5
             Fixture.env None Fixture.now) = Threw "Get reactions failed: 429".
Proof. repeat split; vm_compute; reflexivity. Qed.

(* ================================================================== *)
(** ** The empty ledger *)

Lemma renderLines_nil (nameLookup : JsMap string) : renderLines nameLookup [] = [].
Proof. reflexivity. Qed.

(** C8.  When a scan returns with an empty ledger, no user was seen: the
    scan reports no row and 0 unique reactors, and both renderers emit the
    placeholder line, which reads [No points this week.], in place of the
    list of entries; the posted embed shows the count 0.  This is the case
    when the first message of the first page is older than the window
    start: the scan then returns after that one request. *)
Theorem empty_ledger_placeholder
    (localeCompare : string -> string -> Z) (encodeURIComponent : string -> string)
    (net : Discord) (fuel : nat) (env : Env) (windowMs : option Z) (now : Z) (iso : string)
    (tr : list Event) (r : ScanResult) (seenUsers : JsSet) :
  runScan localeCompare encodeURIComponent net fuel env windowMs now = (tr, Returned r) ->
  scanLoop encodeURIComponent net fuel env (interp (SOURCE_CHANNEL_ID env))
    (now - defaulted windowMs MS_IN_WEEK) = (tr, Returned ([], seenUsers)) ->
  (rows r = [] /\
   uniqueReactors r = 0 /\
   description (slashEmbed r iso) = "No points this week." /\
   fields (slashEmbed r iso)
   = [{| field_name := "Unique reactors"; field_value := "0"; inline := true |}] /\
   description
     (fancyEmbed (rows r) (names r)
        (Some {| meta_uniqueReactors := Some (uniqueReactors r) |}) iso)
   = "No points this week." /\
   fields
     (fancyEmbed (rows r) (names r)
        (Some {| meta_uniqueReactors := Some (uniqueReactors r) |}) iso)
   = [{| field_name := "Unique reactors (7d)"; field_value := "0"; inline := true |}]) /\
  (forall fuel' m0 rest,
     let source := interp (SOURCE_CHANNEL_ID env) in
     let res := getMessages net (authorization (DISCORD_BOT_TOKEN env)) source None in
     truthy_opt (DISCORD_BOT_TOKEN env) = true ->
     truthy_opt (SOURCE_CHANNEL_ID env) = true ->
     ok res = true ->
     json res = Some (m0 :: rest) ->
     stale (now - defaulted windowMs MS_IN_WEEK) m0 = true ->
     runScan localeCompare encodeURIComponent net (S fuel') env windowMs now
     = ([EvMessages source None res],
        Returned {| rows := []; names := []; uniqueReactors := 0 |})).
Proof.
  intros Hscan Hloop. split.
  - apply runScan_Returned in Hscan.
    destruct Hscan as (points & seen & Hloop' & Hrows & Huniq).
    rewrite Hloop in Hloop'. injection Hloop' as <- <-.
    apply scanLoop_inv in Hloop. destruct Hloop as (Hkeys & _ & _).
    cbn [fst snd map] in Hkeys. subst seenUsers.
    assert (Hr : rows r = []) by (rewrite Hrows; reflexivity).
    cbn [List.length Z.of_nat] in Huniq.
    unfold slashEmbed, fancyEmbed. cbn [description fields]. rewrite Hr, Huniq.
    repeat split; reflexivity.
  - intros fuel' m0 rest source res Htok Hsrc Hok Hj Hstale. subst source res.
    unfold runScan. rewrite Htok, Hsrc. cbn [negb orb]. cbv zeta. unfold scanLoop.
    rewrite (iterateMessages_stale_page net
               (scoreMessage encodeURIComponent net (S fuel') env
                  (interp (SOURCE_CHANNEL_ID env)))
               fuel' env (interp (SOURCE_CHANNEL_ID env))
               (now - defaulted windowMs MS_IN_WEEK) None ([], [])
               [] m0 rest Hok Hj eq_refl Hstale).
    reflexivity.
Qed.

Lemma empty_ledger_placeholder_witness :
  runScan Fixture.codeUnitCompare Fixture.unreserved Fixture.quiet 5 Fixture.env None
    Fixture.now
  = ([EvMessages "daily-reading-check" None
        (Fixture.success (Some [Fixture.D; Fixture.E]))],
     Returned {| rows := []; names := []; uniqueReactors := 0 |}) /\
  description
    (slashEmbed {| rows := []; names := []; uniqueReactors := 0 |} "2025-01-01T00:00:00.000Z")
  = "No points this week." /\
  fields
    (fancyEmbed [] [] (Some {| meta_uniqueReactors := Some 0 |}) "2025-01-01T00:00:00.000Z")
  = [{| field_name := "Unique reactors (7d)"; field_value := "0"; inline := true |}].
Proof.
  destruct (@empty_ledger_placeholder Fixture.codeUnitCompare Fixture.unreserved
              Fixture.quiet 5 Fixture.env None Fixture.now "2025-01-01T00:00:00.000Z"
              _ _ [] eq_refl eq_refl)
    as [(_ & _ & Hd & _ & _ & Hf) Hfirst].
  split; [| split].
  - exact (Hfirst 4%nat Fixture.D [Fixture.E] eq_refl eq_refl eq_refl eq_refl eq_refl).
  - exact Hd.
  - exact Hf.
Defined.

(** On a channel whose messages are all older than the window, the
    placeholder of both renderers is the line [No points this week.], with
    a capital letter and a full stop: it is not the line
    [no points this week]. *)
Lemma empty_ledger_placeholder_is_capitalised :
  let r := {| rows := []; names := []; uniqueReactors := 0 |} in
  let iso := "2025-01-01T00:00:00.000Z" in
  outcome (runScan Fixture.codeUnitCompare Fixture.unreserved Fixture.quiet 5 Fixture.env
             None Fixture.now) = Returned r /\
  description (slashEmbed r iso) = "No points this week." /\
  description (fancyEmbed (rows r) (names r)
                 (Some {| meta_uniqueReactors := Some (uniqueReactors r) |}) iso)
  = "No points this week." /\
  description (slashEmbed r iso) <> "no points this week" /\
  description (fancyEmbed (rows r) (names r)
                 (Some {| meta_uniqueReactors := Some (uniqueReactors r) |}) iso)
  <> "no points this week".
Proof.
  intros r iso. repeat split; try reflexivity; discriminate.
Qed.

(* ================================================================== *)
(** ** Running a scan again *)

Lemma Extends_refl {A} (c : Async A) : Extends c c.
Proof. intros tr a H. exact H. Qed.

Lemma Extends_pending {A} (c : Async A) : Extends pending c.
Proof. intros tr a H. discriminate. Qed.

Lemma Extends_bind {A B} (c1 c2 : Async A) (k1 k2 : A -> Async B) :
  Extends c1 c2 -> (forall a, Extends (k1 a) (k2 a)) -> Extends (bind c1 k1) (bind c2 k2).
Proof.
  intros Hc Hk tr b H. apply bind_Returned in H.
  destruct H as (tr1 & a & tr2 & H1 & H2 & ->).
  rewrite (Hc _ _ H1). cbn [bind]. now rewrite (Hk _ _ _ H2).
Qed.

Lemma Extends_foldA {St X} (b1 b2 : St -> X -> Async St) :
  (forall s x, Extends (b1 s x) (b2 s x)) ->
  forall xs s, Extends (foldA b1 xs s) (foldA b2 xs s).
Proof.
  intros Hb. induction xs as [| x xs IH]; intros s; cbn [foldA].
  - apply Extends_refl.
  - apply Extends_bind; [apply Hb | intros s'; apply IH].
Qed.

Section MoreTurns.

Variable localeCompare : string -> string -> Z.
Variable encodeURIComponent : string -> string.
Variable net : Discord.

Lemma reactionPages_more (env : Env) (channelId messageId ident : string) :
  forall fuel fuel' after users,
    (fuel <= fuel')%nat ->
    Extends (reactionPages net fuel env channelId messageId ident after users)
            (reactionPages net fuel' env channelId messageId ident after users).
Proof.
  induction fuel as [| fuel IH]; intros fuel' after users Hle.
  - apply Extends_pending.
  - destruct fuel' as [| fuel']; [lia |]. cbn [reactionPages].
    apply Extends_bind; [apply Extends_refl |]. intros res.
    destruct (negb (ok res)); [apply Extends_refl |].
    destruct (json res) as [| u0 batch]; [apply Extends_refl |].
    destruct (List.length (u0 :: batch) <? 100)%nat; [apply Extends_refl |].
    apply IH. lia.
Qed.

Lemma scoreMessage_more (fuel fuel' : nat) (env : Env) (source : string)
    (st : JsMap Z * JsSet) (m : Message) :
  (fuel <= fuel')%nat ->
  Extends (scoreMessage encodeURIComponent net fuel env source st m)
          (scoreMessage encodeURIComponent net fuel' env source st m).
Proof.
  intros Hle. unfold scoreMessage.
  destruct (reactions m) as [[| r rs] |]; try apply Extends_refl.
  apply Extends_bind; [| intros reactors; apply Extends_refl].
  unfold getReactorsForMessage. apply Extends_foldA. intros users r'.
  unfold reactionStep. destruct (emoji r'); [| apply Extends_refl].
  destruct (count r' =? 0); [apply Extends_refl | now apply reactionPages_more].
Qed.

Lemma iterateMessages_more {St} (b1 b2 : St -> Message -> Async St)
    (env : Env) (channelId : string) (sinceTs : Z) :
  (forall s m, Extends (b1 s m) (b2 s m)) ->
  forall fuel fuel' before s,
    (fuel <= fuel')%nat ->
    Extends (iterateMessages net b1 fuel env channelId sinceTs before s)
            (iterateMessages net b2 fuel' env channelId sinceTs before s).
Proof.
  intros Hb. induction fuel as [| fuel IH]; intros fuel' before s Hle.
  - apply Extends_pending.
  - destruct fuel' as [| fuel']; [lia |]. rewrite !iterateMessages_S.
    apply Extends_bind; [apply Extends_refl |]. intros res.
    destruct (negb (ok res)); [apply Extends_refl |].
    destruct (json res) as [[| m0 rest] |]; try apply Extends_refl.
    apply Extends_bind; [now apply Extends_foldA |]. intros s'.
    destruct (hasStale sinceTs (m0 :: rest)); [apply Extends_refl |].
    apply IH. lia.
Qed.

Lemma runScan_more (fuel fuel' : nat) (env : Env) (windowMs : option Z) (now : Z) :
  (fuel <= fuel')%nat ->
  Extends (runScan localeCompare encodeURIComponent net fuel env windowMs now)
          (runScan localeCompare encodeURIComponent net fuel' env windowMs now).
Proof.
  intros Hle. unfold runScan.
  destruct (negb (truthy_opt (DISCORD_BOT_TOKEN env))
            || negb (truthy_opt (SOURCE_CHANNEL_ID env))); [apply Extends_refl |].
  apply Extends_bind; [| intros st; apply Extends_refl].
  unfold scanLoop. apply iterateMessages_more; [| assumption].
  intros s m. now apply scoreMessage_more.
Qed.

Lemma runScan_window (fuel : nat) (env : Env) (w1 w2 : option Z) (now1 now2 : Z) :
  now1 - defaulted w1 MS_IN_WEEK = now2 - defaulted w2 MS_IN_WEEK ->
  runScan localeCompare encodeURIComponent net fuel env w1 now1
  = runScan localeCompare encodeURIComponent net fuel env w2 now2.
Proof. intros H. unfold runScan. cbv zeta. now rewrite H. Qed.

Lemma recentLoop_more (channelId : string) (botToken : option string)
    (limit oneWeekAgo : Z) :
  forall fuel fuel' lastId messages,
    (fuel <= fuel')%nat ->
    Extends
      (Leaderboard.recentLoop net fuel channelId botToken limit oneWeekAgo lastId messages)
      (Leaderboard.recentLoop net fuel' channelId botToken limit oneWeekAgo lastId messages).
Proof.
  induction fuel as [| fuel IH]; intros fuel' lastId messages Hle.
  - apply Extends_pending.
  - destruct fuel' as [| fuel']; [lia |]. cbn [Leaderboard.recentLoop].
    apply Extends_bind; [apply Extends_refl |]. intros r.
    destruct (negb (ok r)); [apply Extends_refl |].
    destruct (json r) as [[| m0 rest] |]; try apply Extends_refl.
    destruct (lt_nan (timestamp (last (m0 :: rest) m0)) oneWeekAgo); [apply Extends_refl |].
    destruct (limit <=? Z.of_nat (List.length (messages ++ m0 :: rest)));
      [apply Extends_refl |].
    apply IH. lia.
Qed.

End MoreTurns.

Lemma Extends_agree {A} (run : nat -> Async A) :
  (forall fuel fuel', (fuel <= fuel')%nat -> Extends (run fuel) (run fuel')) ->
  forall fuel1 fuel2 a1 a2,
    outcome (run fuel1) = Returned a1 -> outcome (run fuel2) = Returned a2 -> a1 = a2.
Proof.
  intros Hmore fuel1 fuel2 a1 a2 H1 H2.
  apply outcome_Returned in H1, H2. destruct H1 as [tr1 H1], H2 as [tr2 H2].
  apply (Hmore fuel1 (Nat.max fuel1 fuel2) (Nat.le_max_l _ _)) in H1.
  apply (Hmore fuel2 (Nat.max fuel1 fuel2) (Nat.le_max_r _ _)) in H2.
  rewrite H1 in H2. now injection H2.
Qed.

Lemma generateAndPostLeaderboard_Returned (net : Discord) (fuel : nat) (env : Env)
    (limit : option Z) (now : Z) (iso : string) (e : Embed) :
  outcome (Leaderboard.generateAndPostLeaderboard net fuel env limit now iso) = Returned e ->
  exists messages,
    outcome (Leaderboard.getRecentMessages net fuel (interp (SOURCE_CHANNEL_ID env))
               (DISCORD_BOT_TOKEN env) limit now) = Returned messages /\
    e = Leaderboard.generateLeaderboardEmbed (Leaderboard.calculatePoints messages) iso.
Proof.
  unfold Leaderboard.generateAndPostLeaderboard. intros H.
  apply bind_outcome_Returned in H. destruct H as (messages & Hm & H).
  apply bind_outcome_Returned in H. destruct H as (u & _ & H).
  cbn in H. injection H as <-. now exists messages.
Qed.

(** C7.  Two scans of the same Discord with the same window start that
    both return, whatever the bounds on their loops and the clock readings
    at rendering, return the same rows, names and count, and render the
    same ranked lines and the same fields, byte for byte, in the slash
    embed and in the posted embed; the embeds differ at most in the
    timestamp of rendering.  The same holds of the title, description and
    ranked fields of the embed of leaderboard.js for two runs at the same
    time. *)
Theorem rescan_renders_identically
    (localeCompare : string -> string -> Z) (encodeURIComponent : string -> string)
    (net : Discord) (env : Env) (fuel1 fuel2 : nat) (w1 w2 : option Z) (now1 now2 : Z)
    (iso1 iso2 : string) (r1 r2 : ScanResult) :
  now1 - defaulted w1 MS_IN_WEEK = now2 - defaulted w2 MS_IN_WEEK ->
  outcome (runScan localeCompare encodeURIComponent net fuel1 env w1 now1) = Returned r1 ->
  outcome (runScan localeCompare encodeURIComponent net fuel2 env w2 now2) = Returned r2 ->
  r1 = r2 /\
  description (slashEmbed r1 iso1) = description (slashEmbed r2 iso2) /\
  fields (slashEmbed r1 iso1) = fields (slashEmbed r2 iso2) /\
  description
    (fancyEmbed (rows r1) (names r1)
       (Some {| meta_uniqueReactors := Some (uniqueReactors r1) |}) iso1)
  = description
      (fancyEmbed (rows r2) (names r2)
         (Some {| meta_uniqueReactors := Some (uniqueReactors r2) |}) iso2) /\
  fields
    (fancyEmbed (rows r1) (names r1)
       (Some {| meta_uniqueReactors := Some (uniqueReactors r1) |}) iso1)
  = fields
      (fancyEmbed (rows r2) (names r2)
         (Some {| meta_uniqueReactors := Some (uniqueReactors r2) |}) iso2) /\
  (iso1 = iso2 -> slashEmbed r1 iso1 = slashEmbed r2 iso2) /\
  (forall limit e1 e2,
     outcome (Leaderboard.generateAndPostLeaderboard net fuel1 env limit now1 iso1)
       = Returned e1 ->
     outcome (Leaderboard.generateAndPostLeaderboard net fuel2 env limit now1 iso2)
       = Returned e2 ->
     title e1 = title e2 /\ description e1 = description e2 /\ fields e1 = fields e2).
Proof.
  intros Hw H1 H2.
  rewrite (runScan_window localeCompare encodeURIComponent net fuel1 env w1 w2 now1 now2 Hw)
    in H1.
  assert (Hr : r1 = r2).
  { eapply (@Extends_agree _
              (fun fuel => runScan localeCompare encodeURIComponent net fuel env w2 now2));
      [| exact H1 | exact H2].
    intros f f' Hle. now apply runScan_more. }
  subst r2.
  do 5 (split; [reflexivity |]).
  split; [intros ->; reflexivity |].
  intros limit e1 e2 He1 He2.
  apply generateAndPostLeaderboard_Returned in He1, He2.
  destruct He1 as (m1 & Hm1 & ->). destruct He2 as (m2 & Hm2 & ->).
  assert (Hm : m1 = m2).
  { unfold Leaderboard.getRecentMessages in Hm1, Hm2.
    eapply (@Extends_agree _
              (fun fuel => Leaderboard.recentLoop net fuel (interp (SOURCE_CHANNEL_ID env))
                             (DISCORD_BOT_TOKEN env) (defaulted limit 100)
                             (now1 - MS_IN_WEEK) None []));
      [| exact Hm1 | exact Hm2].
    intros f f' Hle. now apply recentLoop_more. }
  subst m2. repeat split.
Qed.

Lemma rescan_renders_identically_witness :
  outcome (runScan Fixture.codeUnitCompare Fixture.unreserved Fixture.week 3 Fixture.env
             None Fixture.now)
  = outcome (runScan Fixture.codeUnitCompare Fixture.unreserved Fixture.week 7 Fixture.env
               (Some (MS_IN_WEEK + 1000)) (Fixture.now + 1000)) /\
  description
    (slashEmbed {| rows := [("u2", 2); ("u1", 1); ("u3", 1)];
                   names := [("u1", "<@u1>"); ("u2", "<@u2>"); ("u3", "<@u3>")];
                   uniqueReactors := 3 |} "2025-01-01T00:00:00.000Z")
  = description
      (slashEmbed {| rows := [("u2", 2); ("u1", 1); ("u3", 1)];
                     names := [("u1", "<@u1>"); ("u2", "<@u2>"); ("u3", "<@u3>")];
                     uniqueReactors := 3 |} "2025-01-01T00:00:01.000Z").
Proof.
  destruct (@rescan_renders_identically Fixture.codeUnitCompare Fixture.unreserved
              Fixture.week Fixture.env 3 7 None (Some (MS_IN_WEEK + 1000))
              Fixture.now (Fixture.now + 1000)
              "2025-01-01T00:00:00.000Z" "2025-01-01T00:00:01.000Z"
              _ _ eq_refl eq_refl eq_refl)
    as (Hr & Hd & _).
  split; [reflexivity | exact Hd].
Defined.

(* ================================================================== *)
(** ** The message cap of [getRecentMessages] *)

Lemma filter_length_le {A} (p : A -> bool) (l : list A) :
  (List.length (filter p l) <= List.length l)%nat.
Proof.
  induction l as [| x l IH]; cbn [filter List.length]; [lia |].
  destruct (p x); cbn [List.length]; lia.
Qed.

Lemma recentLoop_default_cap (net : Discord) (channelId : string) (botToken : option string)
    (oneWeekAgo : Z) (fuel : nat) :
  pagesAtMost100 net (authorization botToken) channelId ->
  shortPageIsLast net (authorization botToken) channelId ->
  (forall msgs,
     outcome (Leaderboard.recentLoop net fuel channelId botToken 100 oneWeekAgo None [])
       = Returned msgs ->
     (List.length msgs <= 100)%nat) /\
  ((2 <= fuel)%nat ->
   outcome (Leaderboard.recentLoop net fuel channelId botToken 100 oneWeekAgo None [])
     <> Pending).
Proof.
  intros Hsize Hlast.
  destruct fuel as [| fuel]; [split; [discriminate | lia] |].
  cbn [Leaderboard.recentLoop]. rewrite fetch_bind_outcome.
  remember (getMessages net (authorization botToken) channelId (cursor None)) as res eqn:Hres.
  destruct (ok res); cbn [negb]; [| split; [discriminate | intros _; discriminate]].
  destruct (json res) as [[| m0 rest] |] eqn:Hj.
  - split; [| intros _; discriminate]. intros msgs H. injection H as <-. cbn. lia.
  - pose proof Hj as Hj'. rewrite Hres in Hj'. pose proof (Hsize _ _ Hj') as Hs.
    assert (Hrecent :
      (List.length (filter (fun msg => ge_nan (timestamp msg) oneWeekAgo) (m0 :: rest))
       <= 100)%nat)
      by (etransitivity; [apply filter_length_le | exact Hs]).
    assert (Hcut : (List.length (firstn (Z.to_nat 100) (m0 :: rest)) <= 100)%nat)
      by (etransitivity; [apply firstn_le_length | lia]).
    destruct (lt_nan (timestamp (last (m0 :: rest) m0)) oneWeekAgo).
    + split; [| intros _; discriminate]. intros msgs H. injection H as <-. exact Hrecent.
    + cbn [app].
      destruct (100 <=? Z.of_nat (List.length (m0 :: rest))) eqn:Hcap.
      * change (100 <? 0) with false. cbv iota.
        split; [| intros _; discriminate]. intros msgs H. injection H as <-. exact Hcut.
      * apply Z.leb_gt in Hcap.
        assert (Hshort : (List.length (m0 :: rest) < 100)%nat) by lia.
        pose proof (Hlast _ _ _ Hj' Hshort) as Hnext.
        destruct fuel as [| fuel]; [split; [discriminate | lia] |].
        cbn [Leaderboard.recentLoop]. rewrite fetch_bind_outcome. rewrite Hnext.
        destruct (ok (getMessages net (authorization botToken) channelId
                        (cursor (Some (msg_id (last (m0 :: rest) m0))))));
          cbn [negb]; [| split; [discriminate | intros _; discriminate]].
        split; [| intros _; discriminate]. intros msgs H. injection H as <-. lia.
  - split; [discriminate | intros _; discriminate].
Qed.

(** [generateAndPostLeaderboard(env)], as the slash command and the
    scheduled handler call it, passes no limit, so [getRecentMessages]
    takes its default 100.  When Discord serves pages of at most 100
    messages and a shorter page is the last one, the messages it returns,
    which are the messages the scan scores, are at most 100; it settles
    within two requests. *)
Theorem uncapped_scan_at_most_100
    (net : Discord) (fuel : nat) (env : Env) (now : Z) (iso : string) :
  let source := interp (SOURCE_CHANNEL_ID env) in
  let token := DISCORD_BOT_TOKEN env in
  pagesAtMost100 net (authorization token) source ->
  shortPageIsLast net (authorization token) source ->
  Leaderboard.leaderboardCommand net fuel env now iso
    = Leaderboard.generateAndPostLeaderboard net fuel env None now iso /\
  Leaderboard.scheduled net fuel env now iso
    = Leaderboard.generateAndPostLeaderboard net fuel env None now iso /\
  Leaderboard.getRecentMessages net fuel source token None now
    = Leaderboard.getRecentMessages net fuel source token (Some 100) now /\
  (forall msgs,
     outcome (Leaderboard.getRecentMessages net fuel source token None now) = Returned msgs ->
     (List.length msgs <= 100)%nat) /\
  ((2 <= fuel)%nat ->
   outcome (Leaderboard.getRecentMessages net fuel source token None now) <> Pending) /\
  (forall e,
     outcome (Leaderboard.generateAndPostLeaderboard net fuel env None now iso) = Returned e ->
     exists msgs,
       (List.length msgs <= 100)%nat /\
       e = Leaderboard.generateLeaderboardEmbed (Leaderboard.calculatePoints msgs) iso).
Proof.
  intros source token Hsize Hlast.
  destruct (@recentLoop_default_cap net source token (now - MS_IN_WEEK) fuel Hsize Hlast)
    as [Hbound Hsettles].
  do 3 (split; [reflexivity |]).
  split; [exact Hbound |]. split; [exact Hsettles |].
  intros e He. apply generateAndPostLeaderboard_Returned in He.
  destruct He as (msgs & Hm & ->). exists msgs. split; [| reflexivity].
  now apply Hbound.
Qed.

Lemma week_pages (auth channelId : string) :
  pagesAtMost100 Fixture.week auth channelId /\ shortPageIsLast Fixture.week auth channelId.
Proof.
  split.
  - intros [s |] batch H; cbn in H; injection H as <-; cbn; lia.
  - intros [s |] m0 rest H Hlen; cbn in H; [discriminate |].
    injection H as <- <-. reflexivity.
Qed.

Lemma uncapped_scan_at_most_100_witness :
  outcome (Leaderboard.getRecentMessages Fixture.week 5 "daily-reading-check" (Some "token")
             None Fixture.now) = Returned [Fixture.A; Fixture.B; Fixture.C] /\
  (forall msgs,
     outcome (Leaderboard.getRecentMessages Fixture.week 5 "daily-reading-check"
                (Some "token") None Fixture.now) = Returned msgs ->
     (List.length msgs <= 100)%nat).
Proof.
  split; [reflexivity |].
  destruct (@uncapped_scan_at_most_100 Fixture.week 5 Fixture.env Fixture.now ""
              (proj1 (week_pages _ _)) (proj2 (week_pages _ _)))
    as (_ & _ & _ & Hbound & _).
  exact Hbound.
Defined.


(** C4.  With the cap 1 on the reference history, whose only page ends
    with a message older than a week, [getRecentMessages] returns the three
    messages of the window: the branch that stops on a stale page does not
    apply the cap.  The branch that stops on the cap truncates to it. *)
Theorem getRecentMessages_exceeds_cap :
  outcome (Leaderboard.getRecentMessages Fixture.week 5 "daily-reading-check" (Some "token")
             (Some 1) Fixture.now) = Returned [Fixture.A; Fixture.B; Fixture.C] /\
  outcome (Leaderboard.getRecentMessages Fixture.staleInside 5 "daily-reading-check"
             (Some "token") (Some 1) Fixture.now) = Returned [Fixture.A].
Proof. split; reflexivity. Qed.

(* ================================================================== *)
(** ** A scan settles when the paging makes progress *)

Lemma bind_not_Pending {A B} (c : Async A) (k : A -> Async B) :
  outcome c <> Pending -> (forall a, outcome (k a) <> Pending) ->
  outcome (bind c k) <> Pending.
Proof.
  intros Hc Hk. rewrite bind_outcome.
  destruct (outcome c) as [a | e |]; [apply Hk | discriminate | contradiction].
Qed.

Lemma foldA_not_Pending {St X} (body : St -> X -> Async St) :
  (forall s x, outcome (body s x) <> Pending) ->
  forall xs s, outcome (foldA body xs s) <> Pending.
Proof.
  intros Hb. induction xs as [| x xs IH]; intros s; cbn [foldA].
  - discriminate.
  - apply bind_not_Pending; [apply Hb | intros s'; apply IH].
Qed.

Section Settles.

Variable encodeURIComponent : string -> string.
Variable net : Discord.
Variable env : Env.
Variable source : string.
Variable sinceTs : Z.

(** The number of pages left behind a cursor, for the messages of the
    source channel and for the users of a reaction. *)
Variable pagesLeft : option string -> nat.
Variable userPagesLeft : string -> string -> option string -> nat.

Hypothesis messages_progress : forall c m0 rest,
  let res := getMessages net (authorization (DISCORD_BOT_TOKEN env)) source (cursor c) in
  ok res = true ->
  json res = Some (m0 :: rest) ->
  hasStale sinceTs (m0 :: rest) = false ->
  (pagesLeft (Some (msg_id (last (m0 :: rest) m0))) < pagesLeft c)%nat.

Hypothesis users_progress : forall messageId ident c u0 batch,
  let res :=
    getReactions net (authorization (DISCORD_BOT_TOKEN env)) source messageId ident
      (cursor c) in
  ok res = true ->
  json res = u0 :: batch ->
  (List.length (u0 :: batch) <? 100)%nat = false ->
  (userPagesLeft messageId ident (Some (user_id (last (u0 :: batch) u0)))
   < userPagesLeft messageId ident c)%nat.

Lemma reactionPages_settles (messageId ident : string) :
  forall fuel after users,
    (userPagesLeft messageId ident after < fuel)%nat ->
    outcome (reactionPages net fuel env source messageId ident after users) <> Pending.
Proof.
  induction fuel as [| fuel IH]; intros after users Hlt; [lia |].
  cbn [reactionPages]. unfold dFetch_reactions. rewrite fetch_bind_outcome.
  pose proof (users_progress messageId ident after) as Hp. cbv zeta in Hp.
  destruct (ok (getReactions net (authorization (DISCORD_BOT_TOKEN env)) source messageId
                  ident (cursor after))); cbn [negb]; [| discriminate].
  destruct (json (getReactions net (authorization (DISCORD_BOT_TOKEN env)) source messageId
                    ident (cursor after))) as [| u0 batch]; [discriminate |].
  destruct (List.length (u0 :: batch) <? 100)%nat eqn:Hfull; [discriminate |].
  apply IH. specialize (Hp u0 batch eq_refl eq_refl Hfull). lia.
Qed.

Lemma scoreMessage_settles (fuel : nat) (st : JsMap Z * JsSet) (m : Message) :
  (forall messageId ident, (userPagesLeft messageId ident None < fuel)%nat) ->
  outcome (scoreMessage encodeURIComponent net fuel env source st m) <> Pending.
Proof.
  intros Hfuel. unfold scoreMessage.
  destruct (reactions m) as [[| r rs] |]; try discriminate.
  apply bind_not_Pending; [| intros reactors; discriminate].
  unfold getReactorsForMessage. apply foldA_not_Pending. intros users r'.
  unfold reactionStep. destruct (emoji r'); [| discriminate].
  destruct (count r' =? 0); [discriminate |]. apply reactionPages_settles, Hfuel.
Qed.

Lemma iterateMessages_settles {St} (body : St -> Message -> Async St) :
  (forall s m, outcome (body s m) <> Pending) ->
  forall fuel before s,
    (pagesLeft before < fuel)%nat ->
    outcome (iterateMessages net body fuel env source sinceTs before s) <> Pending.
Proof.
  intros Hb. induction fuel as [| fuel IH]; intros before s Hlt; [lia |].
  rewrite iterateMessages_S. unfold dFetch_messages. rewrite fetch_bind_outcome.
  pose proof (messages_progress before) as Hp. cbv zeta in Hp.
  destruct (ok (getMessages net (authorization (DISCORD_BOT_TOKEN env)) source
                  (cursor before))); cbn [negb]; [| discriminate].
  destruct (json (getMessages net (authorization (DISCORD_BOT_TOKEN env)) source
                    (cursor before))) as [[| m0 rest] |]; try discriminate.
  apply bind_not_Pending; [now apply foldA_not_Pending |]. intros s'.
  destruct (hasStale sinceTs (m0 :: rest)) eqn:Hs; [discriminate |].
  apply IH. specialize (Hp m0 rest eq_refl eq_refl Hs). lia.
Qed.

(** With a bound above the number of pages of messages and of users of any
    reaction, the scan loop returns or throws. *)
Lemma scanLoop_settles (fuel : nat) :
  (pagesLeft None < fuel)%nat ->
  (forall messageId ident, (userPagesLeft messageId ident None < fuel)%nat) ->
  outcome (scanLoop encodeURIComponent net fuel env source sinceTs) <> Pending.
Proof.
  intros Hm Hu. unfold scanLoop. apply iterateMessages_settles; [| assumption].
  intros s m. now apply scoreMessage_settles.
Qed.

End Settles.

Lemma Returns_bind {A B} (c : Async A) (k : A -> Async B) :
  Returns c -> (forall a, Returns (k a)) -> Returns (bind c k).
Proof.
  intros [a Ha] Hk. unfold Returns. rewrite bind_outcome, Ha. apply Hk.
Qed.

Lemma Returns_ret {A} (a : A) : Returns (ret a).
Proof. now exists a. Qed.

Lemma Returns_foldA {St X} (body : St -> X -> Async St) :
  (forall s x, Returns (body s x)) -> forall xs s, Returns (foldA body xs s).
Proof.
  intros Hb. induction xs as [| x xs IH]; intros s; cbn [foldA].
  - apply Returns_ret.
  - apply Returns_bind; [apply Hb | intros s'; apply IH].
Qed.

Section Healthy.

Variable localeCompare : string -> string -> Z.
Variable encodeURIComponent : string -> string.
Variable net : Discord.
Variable env : Env.

Let source := interp (SOURCE_CHANNEL_ID env).
Let auth := authorization (DISCORD_BOT_TOKEN env).

Variable sinceTs : Z.
Variable pagesLeft : option string -> nat.
Variable userPagesLeft : string -> string -> option string -> nat.

(** Discord answers every read with a success, and each page brings the
    paging closer to its end. *)
Hypothesis messages_ok : forall c, ok (getMessages net auth source c) = true.
Hypothesis users_ok : forall messageId ident c,
  ok (getReactions net auth source messageId ident c) = true.

Hypothesis messages_progress : forall c m0 rest,
  json (getMessages net auth source (cursor c)) = Some (m0 :: rest) ->
  hasStale sinceTs (m0 :: rest) = false ->
  (pagesLeft (Some (msg_id (last (m0 :: rest) m0))) < pagesLeft c)%nat.

Hypothesis users_progress : forall messageId ident c u0 batch,
  json (getReactions net auth source messageId ident (cursor c)) = u0 :: batch ->
  (List.length (u0 :: batch) <? 100)%nat = false ->
  (userPagesLeft messageId ident (Some (user_id (last (u0 :: batch) u0)))
   < userPagesLeft messageId ident c)%nat.

Lemma reactionPages_returns (messageId ident : string) :
  forall fuel after users,
    (userPagesLeft messageId ident after < fuel)%nat ->
    Returns (reactionPages net fuel env source messageId ident after users).
Proof.
  induction fuel as [| fuel IH]; intros after users Hlt; [lia |].
  cbn [reactionPages]. unfold dFetch_reactions. fold auth.
  unfold Returns. rewrite fetch_bind_outcome. rewrite users_ok. cbn [negb].
  pose proof (users_progress messageId ident after) as Hp.
  destruct (json (getReactions net auth source messageId ident (cursor after)))
    as [| u0 batch]; [eexists; reflexivity |].
  destruct (List.length (u0 :: batch) <? 100)%nat eqn:Hfull; [eexists; reflexivity |].
  apply IH. specialize (Hp u0 batch eq_refl Hfull). lia.
Qed.

Lemma scoreMessage_returns (fuel : nat) (st : JsMap Z * JsSet) (m : Message) :
  (forall messageId ident, (userPagesLeft messageId ident None < fuel)%nat) ->
  Returns (scoreMessage encodeURIComponent net fuel env source st m).
Proof.
  intros Hfuel. unfold scoreMessage.
  destruct (reactions m) as [[| r rs] |]; try apply Returns_ret.
  apply Returns_bind; [| intros reactors; apply Returns_ret].
  unfold getReactorsForMessage. apply Returns_foldA. intros users r'.
  unfold reactionStep. destruct (emoji r'); [| apply Returns_ret].
  destruct (count r' =? 0); [apply Returns_ret |]. apply reactionPages_returns, Hfuel.
Qed.

Lemma iterateMessages_returns {St} (body : St -> Message -> Async St) :
  (forall s m, Returns (body s m)) ->
  forall fuel before s,
    (pagesLeft before < fuel)%nat ->
    Returns (iterateMessages net body fuel env source sinceTs before s).
Proof.
  intros Hb. induction fuel as [| fuel IH]; intros before s Hlt; [lia |].
  rewrite iterateMessages_S. unfold dFetch_messages. fold auth.
  unfold Returns. rewrite fetch_bind_outcome. rewrite messages_ok. cbn [negb].
  pose proof (messages_progress before) as Hp.
  destruct (json (getMessages net auth source (cursor before))) as [[| m0 rest] |];
    try (eexists; reflexivity).
  apply Returns_bind; [now apply Returns_foldA |]. intros s'.
  destruct (hasStale sinceTs (m0 :: rest)) eqn:Hs; [apply Returns_ret |].
  apply IH. specialize (Hp m0 rest eq_refl Hs). lia.
Qed.

(** On such a Discord a configured scan returns once the bound on the
    turns of its loops exceeds the number of pages. *)
Lemma runScan_returns (fuel : nat) (windowMs : option Z) (now : Z) :
  sinceTs = now - defaulted windowMs MS_IN_WEEK ->
  truthy_opt (DISCORD_BOT_TOKEN env) = true ->
  truthy_opt (SOURCE_CHANNEL_ID env) = true ->
  (pagesLeft None < fuel)%nat ->
  (forall messageId ident, (userPagesLeft messageId ident None < fuel)%nat) ->
  Returns (runScan localeCompare encodeURIComponent net fuel env windowMs now).
Proof.
  intros Hs Htok Hsrc Hm Hu. unfold runScan. rewrite Htok, Hsrc. cbn [negb orb]. cbv zeta.
  rewrite <- Hs. fold source.
  apply Returns_bind.
  - unfold scanLoop. apply iterateMessages_returns; [| assumption].
    intros s m. now apply scoreMessage_returns.
  - intros st. unfold buildNameMap. rewrite bind_ret_l. apply Returns_ret.
Qed.

End Healthy.

(* ================================================================== *)
(** ** The loops on the reference histories *)

(** The users of an emoji are collected over two pages. *)
Example getReactorsForMessage_crowd :
  let run :=
    getReactorsForMessage Fixture.unreserved Fixture.crowd 3 Fixture.env
      "daily-reading-check" "P" (reactions Fixture.P) in
  outcome run = Returned (map user_id (Fixture.users 0 150)) /\
  map (fun ev => match ev with EvReactions _ _ _ after _ => after | _ => None end) (trace run)
  = [None; Some "u99"].
Proof. vm_compute. split; reflexivity. Qed.

Example runScan_crowd :
  exists names,
    outcome (runScan Fixture.codeUnitCompare Fixture.unreserved Fixture.crowd 3 Fixture.env
               None Fixture.now)
    = Returned {| rows := [("u0", 1); ("u1", 1); ("u10", 1); ("u100", 1); ("u101", 1);
                           ("u102", 1); ("u103", 1); ("u104", 1); ("u105", 1); ("u106", 1)];
                  names := names;
                  uniqueReactors := 150 |}.
Proof. eexists. vm_compute. reflexivity. Qed.

(** The reference history meets the conditions under which a scan
    returns. *)
Example runScan_returns_week (fuel : nat) :
  (1 < fuel)%nat ->
  Returns (runScan Fixture.codeUnitCompare Fixture.unreserved Fixture.week fuel Fixture.env
             None Fixture.now).
Proof.
  intros Hfuel.
  apply (@runScan_returns Fixture.codeUnitCompare Fixture.unreserved Fixture.week Fixture.env
           Fixture.windowStart Fixture.onePage (fun _ _ _ => 0%nat)).
  - intros [c |]; reflexivity.
  - intros messageId ident c. cbn.
    repeat match goal with
           | |- context [if ?b then _ else _] => destruct b
           end; reflexivity.
  - intros [c |] m0 rest H Hs.
    + cbn in H. destruct (truthy c); cbn in H.
      * discriminate.
      * injection H as <- <-. discriminate Hs.
    + cbn in H. injection H as <- <-. discriminate Hs.
  - intros messageId ident c u0 batch H Hfull. exfalso. cbn in H.
    repeat match type of H with
           | context [if ?b then _ else _] => destruct b
           end; cbn in H; try discriminate;
      injection H as <- <-; discriminate Hfull.
  - reflexivity.
  - reflexivity.
  - reflexivity.
  - exact Hfuel.
  - intros. lia.
Qed.

(* ================================================================== *)
(** ** What the generator yields, and the cursors of the requests *)

Lemma freshPrefix_fresh (sinceTs : Z) (batch : list Message) :
  Forall (fun m => stale sinceTs m = false) (freshPrefix sinceTs batch).
Proof.
  induction batch as [| m rest IH]; cbn [freshPrefix]; [constructor |].
  destruct (stale sinceTs m) eqn:E; constructor; assumption.
Qed.

Section Yielded.

Variable net : Discord.

Let collect := fun (acc : list Message) (msg : Message) => ret (acc ++ [msg])%list.

Lemma yielded_pages (env : Env) (channelId : string) (sinceTs : Z) :
  forall fuel before acc tr msgs,
    iterateMessages net collect fuel env channelId sinceTs before acc = (tr, Returned msgs) ->
    msgs = (acc ++ flat_map (fun ev => freshPrefix sinceTs (pageOf ev)) tr)%list.
Proof.
  induction fuel as [| fuel IH]; intros before acc tr msgs H; [discriminate |].
  rewrite iterateMessages_S in H. unfold dFetch_messages in H.
  apply bind_Returned in H. destruct H as (tr1 & res & tr2 & Hf & Hk & ->).
  injection Hf as <- Hres. cbn [app flat_map pageOf]. rewrite Hres.
  destruct (ok res); cbn [negb] in Hk; [| discriminate].
  destruct (json res) as [[| m0 rest] |].
  - injection Hk as <- <-. cbn. now rewrite app_nil_r.
  - unfold collect in Hk. rewrite foldA_collect, bind_ret_l in Hk. fold collect in Hk.
    destruct (hasStale sinceTs (m0 :: rest)).
    + injection Hk as <- <-. cbn [flat_map]. now rewrite app_nil_r.
    + apply IH in Hk. rewrite Hk. now rewrite app_assoc.
  - injection Hk as <- <-. cbn. now rewrite app_nil_r.
Qed.

Lemma yielded_chained (env : Env) (channelId : string) (sinceTs : Z) :
  forall fuel before acc,
    chained before (trace (iterateMessages net collect fuel env channelId sinceTs before acc)).
Proof.
  induction fuel as [| fuel IH]; intros before acc; [exact I |].
  rewrite iterateMessages_S. unfold dFetch_messages. rewrite fetch_bind_trace.
  cbn [chained]. split; [reflexivity |].
  destruct (ok (getMessages net (authorization (DISCORD_BOT_TOKEN env)) channelId
                  (cursor before))); cbn [negb].
  - destruct (json (getMessages net (authorization (DISCORD_BOT_TOKEN env)) channelId
                      (cursor before))) as [[| m0 rest] |]; try reflexivity.
    unfold collect. rewrite foldA_collect, bind_ret_l. fold collect.
    destruct (hasStale sinceTs (m0 :: rest)); [exact I | apply IH].
  - destruct (json (getMessages net (authorization (DISCORD_BOT_TOKEN env)) channelId
                      (cursor before))) as [[| m0 rest] |]; try reflexivity; try exact I.
Qed.

Lemma recentLoop_chained (channelId : string) (botToken : option string)
    (limit oneWeekAgo : Z) :
  forall fuel lastId messages,
    chained lastId
      (trace (Leaderboard.recentLoop net fuel channelId botToken limit oneWeekAgo
                lastId messages)).
Proof.
  induction fuel as [| fuel IH]; intros lastId messages; [exact I |].
  cbn [Leaderboard.recentLoop]. rewrite fetch_bind_trace.
  cbn [chained]. split; [reflexivity |].
  destruct (ok (getMessages net (authorization botToken) channelId (cursor lastId)));
    cbn [negb].
  - destruct (json (getMessages net (authorization botToken) channelId (cursor lastId)))
      as [[| m0 rest] |]; try reflexivity.
    destruct (lt_nan (timestamp (last (m0 :: rest) m0)) oneWeekAgo); [exact I |].
    destruct (limit <=? Z.of_nat (List.length (messages ++ m0 :: rest))).
    + destruct (limit <? 0); exact I.
    + apply IH.
  - destruct (json (getMessages net (authorization botToken) channelId (cursor lastId)))
      as [[| m0 rest] |]; try reflexivity; try exact I.
Qed.

End Yielded.

(** X1.  When the generator of the worker returns, the messages it yielded
    are the messages in front of the first stale one of each page served,
    page after page: none of them is older than the window start, and each
    comes from a page that was fetched. *)
Theorem yielded_are_fresh_prefixes
    (net : Discord) (fuel : nat) (env : Env) (channelId : string) (sinceTs : Z)
    (tr : list Event) (msgs : list Message) :
  yielded net fuel env channelId sinceTs None = (tr, Returned msgs) ->
  msgs = flat_map (fun ev => freshPrefix sinceTs (pageOf ev)) tr /\
  Forall (fun m => stale sinceTs m = false) msgs /\
  (forall m, In m msgs -> exists ev, In ev tr /\ In m (pageOf ev)).
Proof.
  intros H. unfold yielded in H. apply yielded_pages in H. cbn [app] in H.
  split; [exact H |]. subst msgs. split.
  - apply Forall_flat_map. apply Forall_forall. intros ev _. apply freshPrefix_fresh.
  - intros m Hin. apply in_flat_map in Hin. destruct Hin as (ev & Hev & Hm).
    exists ev. split; [assumption |].
    clear - Hm. induction (pageOf ev) as [| x l IH]; cbn [freshPrefix] in Hm; [contradiction |].
    destruct (stale sinceTs x); [contradiction |].
    destruct Hm as [-> | Hm]; [now left | right; now apply IH].
Qed.

Lemma yielded_are_fresh_prefixes_witness :
  [Fixture.A] = flat_map (fun ev => freshPrefix Fixture.windowStart (pageOf ev))
                  [EvMessages "daily-reading-check" None
                     (Fixture.success (Some [Fixture.A; Fixture.D; Fixture.B; Fixture.E]))] /\
  Forall (fun m => stale Fixture.windowStart m = false) [Fixture.A].
Proof.
  destruct (@yielded_are_fresh_prefixes Fixture.outOfOrder 5 Fixture.env
              "daily-reading-check" Fixture.windowStart _ _ eq_refl) as (H1 & H2 & _).
  split; [exact H1 | exact H2].
Defined.

(** X2.  In both variants the requests for message pages follow one another
    by cursor: the first carries no cursor, and each further one asks for
    the page before the last message of the page served just before; no
    request follows an empty page. *)
Theorem message_requests_chained_by_cursor
    (net : Discord) (fuel : nat) (env : Env) (channelId : string) (sinceTs : Z)
    (botToken : option string) (limit : option Z) (now : Z) :
  chained None (trace (yielded net fuel env channelId sinceTs None)) /\
  chained None
    (trace (Leaderboard.getRecentMessages net fuel channelId botToken limit now)).
Proof.
  split.
  - unfold yielded. apply yielded_chained.
  - unfold Leaderboard.getRecentMessages. apply recentLoop_chained.
Qed.

(* ================================================================== *)
(** ** The entries of the ledger and the rows of a scan *)

Lemma Map_get_Some_In {V} (k : string) (v : V) (m : JsMap V) :
  Map_get k m = Some v -> In (k, v) m.
Proof.
  induction m as [| [k' v'] m IH]; cbn [Map_get]; [discriminate |].
  destruct (k =? k')%string eqn:E.
  - apply String.eqb_eq in E. subst k'. intros H. injection H as ->. now left.
  - intros H. right. now apply IH.
Qed.

Lemma Map_set_Forall {V} (P : string * V -> Prop) (k : string) (v : V) (m : JsMap V) :
  Forall P m -> P (k, v) -> Forall P (Map_set k v m).
Proof.
  intros Hm Hk. induction m as [| [k' v'] m IH]; cbn [Map_set].
  - repeat constructor. exact Hk.
  - inversion Hm as [| ? ? Hh Ht]; subst.
    destruct (k =? k')%string eqn:E.
    + apply String.eqb_eq in E. subst k'. constructor; assumption.
    + constructor; [assumption | now apply IH].
Qed.





(* ================================================================== *)
(** ** Names and rendered lines *)

Lemma Map_get_names (u : string) (userIds : list string) : forall (acc : JsMap string),
  Map_get u (fold_left (fun names uid => Map_set uid ("<@" ++ uid ++ ">") names) userIds acc)
  = if Set_has u userIds then Some (mention u) else Map_get u acc.
Proof.
  induction userIds as [| uid userIds IH]; intros acc; cbn [fold_left].
  - reflexivity.
  - rewrite IH. unfold Set_has. cbn [existsb]. fold (Set_has u userIds).
    destruct (Set_has u userIds); [now rewrite orb_true_r |].
    rewrite orb_false_r. destruct (u =? uid)%string eqn:E.
    + apply String.eqb_eq in E. subst uid. now rewrite Map_get_set_same.
    + apply String.eqb_neq in E. now rewrite Map_get_set_other.
Qed.

Lemma runScan_names (localeCompare : string -> string -> Z)
    (encodeURIComponent : string -> string) (net : Discord) (fuel : nat) (env : Env)
    (windowMs : option Z) (now : Z) tr r :
  runScan localeCompare encodeURIComponent net fuel env windowMs now = (tr, Returned r) ->
  exists points seenUsers,
    scanLoop encodeURIComponent net fuel env (interp (SOURCE_CHANNEL_ID env))
      (now - defaulted windowMs MS_IN_WEEK) = (tr, Returned (points, seenUsers)) /\
    names r = fold_left (fun names uid => Map_set uid ("<@" ++ uid ++ ">") names) seenUsers [].
Proof.
  unfold runScan.
  destruct (negb (truthy_opt (DISCORD_BOT_TOKEN env)) || negb (truthy_opt (SOURCE_CHANNEL_ID env)));
    [discriminate |].
  intros H. apply bind_Returned in H. destruct H as (tr1 & [points seenUsers] & tr2 & Hl & Hk & ->).
  unfold buildNameMap in Hk. rewrite bind_ret_l in Hk. injection Hk as <- <-.
  exists points, seenUsers. rewrite app_nil_r. split; [exact Hl | reflexivity].
Qed.

(** X4.  The name map of a scan holds the mention [<@uid>] of every seen
    user, that is of every user of a returned reaction record without the
    bot flag, and holds no name for anybody else.  The users of the rows
    are seen users: the lines rendered from a scan show each of them as a
    mention, never by the fallback [User uid]; a line ends in [1 pt] for
    one point and in [pts] otherwise. *)
Theorem rows_render_as_mentions
    (localeCompare : string -> string -> Z) (encodeURIComponent : string -> string)
    (net : Discord) (fuel : nat) (env : Env) (windowMs : option Z) (now : Z)
    (tr : list Event) (r : ScanResult) :
  runScan localeCompare encodeURIComponent net fuel env windowMs now = (tr, Returned r) ->
  (forall u, In u (nonBotIds tr) -> Map_get u (names r) = Some (mention u)) /\
  (forall u, ~ In u (nonBotIds tr) -> Map_get u (names r) = None) /\
  (forall u p, In (u, p) (rows r) ->
     In u (nonBotIds tr) /\ Map_get u (names r) = Some (mention u)) /\
  (forall u p i, In (u, p) (rows r) ->
     renderLine (names r) (u, p) i =
     medal i ++ " **" ++ String_of (Z.of_nat i + 1) ++ ". " ++ mention u ++ "** — "
       ++ String_of p ++ (if p =? 1 then " pt" else " pts")).
Proof.
  intros Hscan.
  destruct (runScan_names _ _ _ _ _ _ _ Hscan) as (points & seenUsers & Hloop & Hnames).
  apply runScan_Returned in Hscan.
  destruct Hscan as (points' & seenUsers' & Hloop' & Hrows & _).
  rewrite Hloop in Hloop'. injection Hloop' as <- <-.
  pose proof (scanLoop_inv _ _ _ _ _ _ Hloop) as (Hkeys & _ & Hseen).
  cbn [fst snd] in Hkeys, Hseen.
  assert (Hin : forall u, In u (nonBotIds tr) -> Map_get u (names r) = Some (mention u)).
  { intros u Hu. rewrite Hnames, Map_get_names.
    assert (Hs : Set_has u seenUsers = true) by (apply Set_has_In; now apply Hseen).
    now rewrite Hs. }
  assert (Hrow : forall u p, In (u, p) (rows r) -> In u (nonBotIds tr)).
  { intros u p Hr. rewrite Hrows in Hr. apply topN_incl in Hr.
    apply Hseen. rewrite <- Hkeys. now apply (in_map fst) in Hr. }
  split; [exact Hin |]. split; [| split].
  - intros u Hu. rewrite Hnames, Map_get_names.
    destruct (Set_has u seenUsers) eqn:Hs; [| reflexivity].
    apply Set_has_In in Hs. contradiction Hu. now apply Hseen.
  - intros u p Hr. split; [now apply (Hrow u p) | apply Hin; now apply (Hrow u p)].
  - intros u p i Hr. unfold renderLine. rewrite (Hin u (Hrow u p Hr)).
    unfold orElse, mention, truthy. cbn [append String.eqb negb].
    destruct (p =? 1); reflexivity.
Qed.

Lemma rows_render_as_mentions_witness :
  let scan :=
    runScan Fixture.codeUnitCompare Fixture.unreserved Fixture.week 5 Fixture.env None
      Fixture.now in
  let names := [("u1", "<@u1>"); ("u2", "<@u2>"); ("u3", "<@u3>")] in
  nonBotIds (trace scan) = ["u1"; "u2"; "u2"; "u2"; "u3"] /\
  Map_get "u3" names = Some "<@u3>" /\
  Map_get "bot9" names = None /\
  renderLine names ("u2", 2) 0 = "🥇 **1. <@u2>** — 2 pts" /\
  renderLine names ("u3", 1) 2 = "🥉 **3. <@u3>** — 1 pt".
Proof.
  intros scan names.
  destruct (@rows_render_as_mentions Fixture.codeUnitCompare Fixture.unreserved Fixture.week 5
              Fixture.env None Fixture.now _ _ eq_refl) as (Hin & Hout & _ & H).
  split; [reflexivity |]. split; [| split; [| split]].
  - apply (Hin "u3"). cbn. tauto.
  - apply (Hout "bot9"). cbn. intros Hb. repeat destruct Hb as [Hb | Hb]; discriminate || exact Hb.
  - exact (H "u2" 2 0%nat (or_introl eq_refl)).
  - exact (H "u3" 1 2%nat (or_intror (or_intror (or_introl eq_refl)))).
Defined.

(** X5.  Both renderers of the worker show the placeholder line exactly
    when there is no row, and the lines rendered are as many as the
    rows. *)
Theorem placeholder_only_without_rows
    (rows : list (string * Z)) (nameLookup : JsMap string) (meta : option Meta)
    (uniqueReactors : Z) (iso : string) :
  (description (fancyEmbed rows nameLookup meta iso) = "No points this week." <-> rows = []) /\
  (description
     (slashEmbed {| rows := rows; names := nameLookup; uniqueReactors := uniqueReactors |} iso)
   = "No points this week." <-> rows = []) /\
  List.length (renderLines nameLookup rows) = List.length rows.
Proof.
  assert (Hhead : forall row rest,
    exists c s,
      join newline (renderLines nameLookup (row :: rest)) = String c s /\ c <> "N"%char).
  { intros [u p] rest. unfold renderLines. cbn [mapi_from].
    assert (Hl : exists s, renderLine nameLookup (u, p) 0 = String (ascii_of_nat 240) s).
    { unfold renderLine. cbn [medal append]. eexists. reflexivity. }
    destruct Hl as [s Hl]. rewrite Hl. cbn [join].
    destruct (mapi_from (renderLine nameLookup) 1 rest);
      cbn [append]; eexists; eexists; (split; [reflexivity | discriminate]). }
  assert (Hiff : forall d,
    d = orElse (join newline (renderLines nameLookup rows)) "No points this week." ->
    (d = "No points this week." <-> rows = [])).
  { intros d ->. split.
    - destruct rows as [| row rest]; [reflexivity |].
      destruct (Hhead row rest) as (c & s & -> & Hc).
      unfold orElse, truthy. cbn [String.eqb negb]. intros H. injection H as H _.
      contradiction.
    - intros ->. reflexivity. }
  split; [apply Hiff; reflexivity |]. split; [apply Hiff; reflexivity |].
  clear Hiff. unfold renderLines. generalize 0%nat.
  induction rows as [| row rest IH]; intros i; [reflexivity |].
  cbn [mapi_from]. cbn [List.length]. f_equal. apply IH.
Qed.

(* ================================================================== *)
(** ** The requests of a scan *)

Section Requests.

Variable P : Event -> Prop.

Lemma AllRequests_pure {A} (o : Outcome A) : AllRequests P (([] : list Event), o).
Proof. constructor. Qed.

Lemma AllRequests_bind {A B} (c : Async A) (k : A -> Async B) :
  AllRequests P c -> (forall a, AllRequests P (k a)) -> AllRequests P (bind c k).
Proof.
  unfold AllRequests. intros Hc Hk. rewrite bind_trace.
  destruct (outcome c) as [a | e |]; try assumption.
  apply Forall_app. split; [assumption | apply Hk].
Qed.

Lemma AllRequests_fetch {A B} (ev : Event) (a : A) (k : A -> Async B) :
  P ev -> AllRequests P (k a) -> AllRequests P (bind ([ev], Returned a) k).
Proof.
  unfold AllRequests. intros Hev Hk. rewrite fetch_bind_trace. now constructor.
Qed.

Lemma AllRequests_foldA {St X} (body : St -> X -> Async St) (xs : list X) :
  (forall s x, In x xs -> AllRequests P (body s x)) ->
  forall s, AllRequests P (foldA body xs s).
Proof.
  induction xs as [| x xs IH]; intros Hb s; cbn [foldA].
  - apply AllRequests_pure.
  - apply AllRequests_bind; [apply Hb; now left |].
    intros s'. apply IH. intros s0 x0 Hx. apply Hb. now right.
Qed.

End Requests.

Lemma AllRequests_impl (P Q : Event -> Prop) {A} (c : Async A) :
  (forall ev, P ev -> Q ev) -> AllRequests P c -> AllRequests Q c.
Proof. unfold AllRequests. intros H. apply Forall_impl. exact H. Qed.

Section ScanRequests.

Variable localeCompare : string -> string -> Z.
Variable encodeURIComponent : string -> string.
Variable net : Discord.

Lemma reactionPages_requests (env : Env) (channelId messageId ident : string) :
  forall fuel after users,
    AllRequests (fun ev => exists a res, ev = EvReactions channelId messageId ident a res)
      (reactionPages net fuel env channelId messageId ident after users).
Proof.
  induction fuel as [| fuel IH]; intros after users; cbn [reactionPages].
  - apply AllRequests_pure.
  - unfold dFetch_reactions. apply AllRequests_fetch; [eexists; eexists; reflexivity |].
    destruct (negb (ok _)); [apply AllRequests_pure |].
    destruct (json _) as [| u0 batch]; [apply AllRequests_pure |].
    destruct (List.length (u0 :: batch) <? 100)%nat; [apply AllRequests_pure | apply IH].
Qed.

Lemma getReactorsForMessage_requests (fuel : nat) (env : Env) (channelId messageId : string)
    (reactionsSummary : option (list ReactionSummary)) :
  AllRequests
    (asksCountedReaction encodeURIComponent channelId messageId
       (match reactionsSummary with Some rs => rs | None => [] end))
    (getReactorsForMessage encodeURIComponent net fuel env channelId messageId
       reactionsSummary).
Proof.
  unfold getReactorsForMessage.
  destruct reactionsSummary as [[| r0 rs] |]; try apply AllRequests_pure.
  apply AllRequests_foldA. intros users r Hr. unfold reactionStep.
  destruct (emoji r) as [e |] eqn:He; [| apply AllRequests_pure].
  destruct (count r =? 0) eqn:Hc; [apply AllRequests_pure |].
  apply Z.eqb_neq in Hc.
  eapply AllRequests_impl; [| apply reactionPages_requests].
  intros ev (a & res & ->). exists r, e, a, res. repeat split; assumption.
Qed.

Lemma iterateMessages_requests {St} (body : St -> Message -> Async St) (P : Event -> Prop)
    (env : Env) (channelId : string) (sinceTs : Z) :
  (forall b res, P (EvMessages channelId b res)) ->
  (forall s m, AllRequests P (body s m)) ->
  forall fuel before s,
    AllRequests P (iterateMessages net body fuel env channelId sinceTs before s).
Proof.
  intros Hm Hb. induction fuel as [| fuel IH]; intros before s.
  - apply AllRequests_pure.
  - rewrite iterateMessages_S. unfold dFetch_messages.
    apply AllRequests_fetch; [apply Hm |].
    destruct (negb (ok _)); [apply AllRequests_pure |].
    destruct (json _) as [[| m0 rest] |]; try apply AllRequests_pure.
    apply AllRequests_bind; [apply AllRequests_foldA; intros; apply Hb |].
    intros s'. destruct (hasStale sinceTs (m0 :: rest)); [apply AllRequests_pure | apply IH].
Qed.

Lemma runScan_requests (fuel : nat) (env : Env) (windowMs : option Z) (now : Z) :
  AllRequests (readsChannel (interp (SOURCE_CHANNEL_ID env)))
    (runScan localeCompare encodeURIComponent net fuel env windowMs now).
Proof.
  unfold runScan.
  destruct (negb (truthy_opt (DISCORD_BOT_TOKEN env))
            || negb (truthy_opt (SOURCE_CHANNEL_ID env))); [apply AllRequests_pure |].
  apply AllRequests_bind.
  - unfold scanLoop. apply iterateMessages_requests; [reflexivity |].
    intros s m. unfold scoreMessage.
    destruct (reactions m) as [[| r rs] |]; try apply AllRequests_pure.
    apply AllRequests_bind; [| intros; apply AllRequests_pure].
    eapply AllRequests_impl; [| apply getReactorsForMessage_requests].
    intros ev (r0 & e & a & res & _ & _ & _ & ->). reflexivity.
  - intros st. unfold buildNameMap. rewrite bind_ret_l. apply AllRequests_pure.
Qed.

End ScanRequests.

(** X6.  A scan of the worker without a bot token or a source channel
    throws before any request.  A configured scan starts with the request,
    under the bot's authorization, for the newest page of the source
    channel; all it ever requests are pages of messages of the source
    channel and pages of users who reacted to messages of that channel. *)
Theorem scan_reads_only_source_channel
    (localeCompare : string -> string -> Z) (encodeURIComponent : string -> string)
    (net : Discord) (fuel : nat) (env : Env) (windowMs : option Z) (now : Z) :
  let source := interp (SOURCE_CHANNEL_ID env) in
  let scan := runScan localeCompare encodeURIComponent net in
  (truthy_opt (DISCORD_BOT_TOKEN env) && truthy_opt (SOURCE_CHANNEL_ID env) = false ->
   scan fuel env windowMs now = ([], Threw "Missing DISCORD_BOT_TOKEN or SOURCE_CHANNEL_ID")) /\
  (truthy_opt (DISCORD_BOT_TOKEN env) && truthy_opt (SOURCE_CHANNEL_ID env) = true ->
   exists rest,
     trace (scan (S fuel) env windowMs now)
     = EvMessages source None
         (getMessages net ("Bot " ++ interp (DISCORD_BOT_TOKEN env)) source None) :: rest) /\
  Forall (readsChannel source) (trace (scan fuel env windowMs now)).
Proof.
  intros source scan. split; [| split].
  - intros H. unfold scan, runScan.
    destruct (truthy_opt (DISCORD_BOT_TOKEN env)), (truthy_opt (SOURCE_CHANNEL_ID env));
      try discriminate H; reflexivity.
  - intros H. apply andb_true_iff in H. destruct H as [Ht Hs].
    unfold scan, runScan. rewrite Ht, Hs. cbn [negb orb]. cbv zeta.
    unfold scanLoop. rewrite iterateMessages_S. unfold dFetch_messages.
    rewrite bind_assoc, fetch_bind_trace. eexists. reflexivity.
  - apply runScan_requests.
Qed.

(** X7.  The reaction collector asks for users only of this message and
    only for emoji of reaction summaries that carry an emoji and a count
    other than 0, under the name [name:id] of a custom emoji and the
    encoded name of any other; without such a summary it makes no request
    and returns the empty set. *)
Theorem reactors_requested_for_counted_emoji
    (encodeURIComponent : string -> string) (net : Discord) (fuel : nat) (env : Env)
    (channelId messageId : string) (rs : list ReactionSummary) :
  Forall (asksCountedReaction encodeURIComponent channelId messageId rs)
    (trace (getReactorsForMessage encodeURIComponent net fuel env channelId messageId
              (Some rs))) /\
  ((forall r, In r rs -> emoji r = None \/ count r = 0) ->
   getReactorsForMessage encodeURIComponent net fuel env channelId messageId (Some rs)
   = ([], Returned [])).
Proof.
  split; [apply (getReactorsForMessage_requests encodeURIComponent net fuel env channelId
                   messageId (Some rs)) |].
  intros Hnone. unfold getReactorsForMessage. destruct rs as [| r0 rs0]; [reflexivity |].
  remember (r0 :: rs0) as rs eqn:Hrs. clear Hrs.
  induction rs as [| r rs IH]; cbn [foldA]; [reflexivity |].
  assert (Hstep : reactionStep encodeURIComponent net fuel env channelId messageId [] r
                  = ret []).
  { unfold reactionStep. destruct (Hnone r (or_introl eq_refl)) as [-> | ->]; [reflexivity |].
    destruct (emoji r); reflexivity. }
  rewrite Hstep, bind_ret_l. apply IH. intros r' Hr. apply Hnone. now right.
Qed.

(** X8.  On a Discord that answers every read of the source channel with a
    success, and on which every page of messages without a stale message
    and every full page of users leaves fewer pages behind its last
    element, a configured scan of the worker returns as soon as the bound
    on the turns of its loops exceeds the numbers of pages. *)
Theorem scan_returns_when_paging_ends
    (localeCompare : string -> string -> Z) (encodeURIComponent : string -> string)
    (net : Discord) (env : Env) (pagesLeft : option string -> nat)
    (userPagesLeft : string -> string -> option string -> nat)
    (fuel : nat) (windowMs : option Z) (now : Z) :
  let source := interp (SOURCE_CHANNEL_ID env) in
  let auth := authorization (DISCORD_BOT_TOKEN env) in
  let sinceTs := now - defaulted windowMs MS_IN_WEEK in
  (forall c, ok (getMessages net auth source c) = true) ->
  (forall messageId ident c, ok (getReactions net auth source messageId ident c) = true) ->
  (forall c m0 rest,
     json (getMessages net auth source (cursor c)) = Some (m0 :: rest) ->
     hasStale sinceTs (m0 :: rest) = false ->
     (pagesLeft (Some (msg_id (last (m0 :: rest) m0))) < pagesLeft c)%nat) ->
  (forall messageId ident c u0 batch,
     json (getReactions net auth source messageId ident (cursor c)) = u0 :: batch ->
     (List.length (u0 :: batch) <? 100)%nat = false ->
     (userPagesLeft messageId ident (Some (user_id (last (u0 :: batch) u0)))
      < userPagesLeft messageId ident c)%nat) ->
  truthy_opt (DISCORD_BOT_TOKEN env) = true ->
  truthy_opt (SOURCE_CHANNEL_ID env) = true ->
  (pagesLeft None < fuel)%nat ->
  (forall messageId ident, (userPagesLeft messageId ident None < fuel)%nat) ->
  exists r, outcome (runScan localeCompare encodeURIComponent net fuel env windowMs now)
            = Returned r.
Proof.
  intros source auth sinceTs Hmok Huok Hmp Hup Htok Hsrc Hfuel Hufuel.
  apply (@runScan_returns localeCompare encodeURIComponent net env sinceTs pagesLeft
           userPagesLeft Hmok Huok Hmp Hup fuel windowMs now eq_refl Htok Hsrc Hfuel Hufuel).
Qed.

Lemma scan_returns_when_paging_ends_witness :
  exists r,
    outcome (runScan Fixture.codeUnitCompare Fixture.unreserved Fixture.week 2 Fixture.env
               None Fixture.now) = Returned r.
Proof.
  apply (@scan_returns_when_paging_ends Fixture.codeUnitCompare Fixture.unreserved
           Fixture.week Fixture.env Fixture.onePage (fun _ _ _ => 0%nat) 2 None Fixture.now).
  - intros [c |]; reflexivity.
  - intros messageId ident c. cbn.
    repeat match goal with
           | |- context [if ?b then _ else _] => destruct b
           end; reflexivity.
  - intros [c |] m0 rest H Hs.
    + cbn in H. destruct (truthy c); cbn in H.
      * discriminate.
      * injection H as <- <-. discriminate Hs.
    + cbn in H. injection H as <- <-. discriminate Hs.
  - intros messageId ident c u0 batch H Hfull. exfalso. cbn in H.
    repeat match type of H with
           | context [if ?b then _ else _] => destruct b
           end; cbn in H; try discriminate;
      injection H as <- <-; discriminate Hfull.
  - reflexivity.
  - reflexivity.
  - repeat constructor.
  - intros. repeat constructor.
Defined.

(* ================================================================== *)
(** ** Posting the leaderboard *)

Lemma ReadOnly_no_post (tr : list Event) :
  Forall (fun ev => isPost ev = false) tr -> filter isPost tr = [].
Proof.
  induction 1 as [| ev tr Hev _ IH]; cbn [filter]; [reflexivity |]. now rewrite Hev.
Qed.

Lemma postFancyLeaderboard_trace (net : Discord) (env : Env) (channelId : string)
    (rows : list (string * Z)) (nameLookup : JsMap string) (meta : option Meta)
    (iso : string) :
  trace (postFancyLeaderboard net env channelId rows nameLookup meta iso)
  = [EvPost channelId (fancyEmbed rows nameLookup meta iso)
       (postMessage net (authorization (DISCORD_BOT_TOKEN env)) channelId
          (fancyEmbed rows nameLookup meta iso))].
Proof.
  unfold postFancyLeaderboard, dFetch_post. rewrite fetch_bind_trace.
  now destruct (negb (ok _)).
Qed.

(** X9.  A scheduled run of the worker, and a [/cron-test] run, post at
    most once: exactly once, as their last request, when the scan
    returned, and then the embed rendered from the rows, names and count
    of that scan, to the channel [POST_CHANNEL_ID]; not at all when the
    scan threw. *)
Theorem scheduled_posts_once_after_scan
    (localeCompare : string -> string -> Z) (encodeURIComponent : string -> string)
    (net : Discord) (fuel : nat) (env : Env) (now : Z) (iso : string) :
  let posted (r : ScanResult) :=
    fancyEmbed (rows r) (names r) (Some {| meta_uniqueReactors := Some (uniqueReactors r) |})
      iso in
  let channel := interp (POST_CHANNEL_ID env) in
  let post (r : ScanResult) :=
    EvPost channel (posted r)
      (postMessage net (authorization (DISCORD_BOT_TOKEN env)) channel (posted r)) in
  let after (scan : Async ScanResult) (run : Async unit) :=
    trace run = (trace scan ++ match outcome scan with Returned r => [post r] | _ => [] end)%list
    /\ List.length (filter isPost (trace run))
       = match outcome scan with Returned _ => 1%nat | _ => 0%nat end in
  after (runScan localeCompare encodeURIComponent net fuel env None now)
        (scheduled localeCompare encodeURIComponent net fuel env now iso) /\
  after (runScan localeCompare encodeURIComponent net fuel env (Some (30 * 60 * 1000)) now)
        (cronTest localeCompare encodeURIComponent net fuel env now iso).
Proof.
  intros posted channel post after.
  assert (H : forall windowMs,
    after (runScan localeCompare encodeURIComponent net fuel env windowMs now)
          (r <- runScan localeCompare encodeURIComponent net fuel env windowMs now ;;
           postFancyLeaderboard net env channel (rows r) (names r)
             (Some {| meta_uniqueReactors := Some (uniqueReactors r) |}) iso)).
  { intros windowMs. unfold after.
    destruct (runScan_propagates localeCompare encodeURIComponent net fuel env windowMs now)
      as [_ Hro].
    apply ReadOnly_no_post in Hro.
    rewrite bind_trace.
    destruct (outcome (runScan localeCompare encodeURIComponent net fuel env windowMs now))
      as [r | e |].
    - rewrite postFancyLeaderboard_trace. split; [reflexivity |].
      rewrite filter_app, Hro. reflexivity.
    - rewrite app_nil_r. split; [reflexivity | now rewrite Hro].
    - rewrite app_nil_r. split; [reflexivity | now rewrite Hro]. }
  split; apply H.
Qed.

(* ================================================================== *)
(** ** How far [getRecentMessages] can exceed its cap *)

Lemma filter_without_last {A} (p : A -> bool) (x : A) (l : list A) :
  p (last (x :: l) x) = false ->
  (List.length (filter p (x :: l)) < List.length (x :: l))%nat.
Proof.
  intros Hp.
  assert (Hne : x :: l <> []) by discriminate.
  rewrite (app_removelast_last x Hne) at 1 2.
  rewrite filter_app, !length_app. cbn [filter]. rewrite Hp. cbn [List.length].
  pose proof (filter_length_le p (removelast (x :: l))). lia.
Qed.

Lemma stale_not_recent (sinceTs : Z) (m : Message) :
  stale sinceTs m = true -> ge_nan (timestamp m) sinceTs = false.
Proof.
  unfold stale. destruct (timestamp m) as [t |]; cbn [lt_nan ge_nan]; [| discriminate].
  intros H. apply Z.ltb_lt in H. apply Z.leb_gt. exact H.
Qed.

Lemma recentLoop_overshoot (net : Discord) (channelId : string) (botToken : option string)
    (limit oneWeekAgo : Z) :
  pagesAtMost100 net (authorization botToken) channelId ->
  0 <= limit ->
  forall fuel lastId messages tr msgs,
    Z.of_nat (List.length messages) <= Z.max (limit - 1) 0 ->
    Leaderboard.recentLoop net fuel channelId botToken limit oneWeekAgo lastId messages
      = (tr, Returned msgs) ->
    Z.of_nat (List.length msgs) <= limit + 99 /\
    (limit < Z.of_nat (List.length msgs) ->
     exists t ev m0 rest,
       tr = (t ++ [ev])%list /\ pageOf ev = m0 :: rest /\
       stale oneWeekAgo (last (m0 :: rest) m0) = true).
Proof.
  intros Hsize Hlimit.
  assert (Hmx : limit - 1 <= Z.max (limit - 1) 0 <= limit).
  { split; [apply Z.le_max_l | apply Z.max_lub; lia]. }
  remember (Z.max (limit - 1) 0) as mx eqn:Emx. clear Emx.
  induction fuel as [| fuel IH]; intros lastId messages tr msgs Hinv H; [discriminate |].
  cbn [Leaderboard.recentLoop] in H.
  apply bind_Returned in H. destruct H as (tr1 & res & tr2 & Hf & Hk & ->).
  injection Hf as <- Hres.
  destruct (ok res) eqn:Hok; cbn [negb] in Hk; [| discriminate].
  destruct (json res) as [[| m0 rest] |] eqn:Hj; [| | discriminate].
  - injection Hk as <- <-. split; [lia | intros Hgt; exfalso; lia].
  - assert (Hlen : (List.length (m0 :: rest) <= 100)%nat).
    { apply (Hsize (cursor lastId)). rewrite Hres. exact Hj. }
    destruct (lt_nan (timestamp (last (m0 :: rest) m0)) oneWeekAgo) eqn:Hst.
    + injection Hk as <- <-.
      pose proof (filter_without_last (fun msg => ge_nan (timestamp msg) oneWeekAgo)
                    m0 rest (stale_not_recent oneWeekAgo _ Hst)) as Hfl.
      cbn [filter] in Hfl. rewrite length_app. split; [lia |].
      intros _. exists [], (EvMessages channelId (cursor lastId) res), m0, rest.
      rewrite Hres. split; [reflexivity | split].
      * cbn [pageOf]. now rewrite Hok, Hj.
      * exact Hst.
    + destruct (limit <=? Z.of_nat (List.length (messages ++ m0 :: rest))) eqn:Hcap.
      * destruct (limit <? 0) eqn:Hneg; [apply Z.ltb_lt in Hneg; lia |].
        injection Hk as <- <-.
        pose proof (firstn_le_length (Z.to_nat limit) (messages ++ m0 :: rest)) as Hfn.
        split; [lia | intros Hgt; exfalso; lia].
      * apply Z.leb_gt in Hcap. apply IH in Hk; [| lia].
        destruct Hk as [Hb Hover]. split; [exact Hb |].
        intros Hgt. destruct (Hover Hgt) as (t & ev & m1 & rest1 & -> & Hp & Hs).
        exists (EvMessages channelId (cursor lastId) res :: t), ev, m1, rest1.
        rewrite Hres. split; [reflexivity | split; assumption].
Qed.

(** X10.  When Discord serves pages of at most 100 messages,
    [getRecentMessages] with a cap that is not negative returns fewer than
    one page beyond the cap, at most [limit + 99] messages, and more than
    the cap only when the last page it was served ends with a message
    older than a week. *)
Theorem getRecentMessages_overshoot_below_one_page
    (net : Discord) (fuel : nat) (channelId : string) (botToken : option string)
    (limit now : Z) (tr : list Event) (msgs : list Message) :
  pagesAtMost100 net (authorization botToken) channelId ->
  0 <= limit ->
  Leaderboard.getRecentMessages net fuel channelId botToken (Some limit) now
    = (tr, Returned msgs) ->
  Z.of_nat (List.length msgs) <= limit + 99 /\
  (limit < Z.of_nat (List.length msgs) ->
   exists t ev m0 rest,
     tr = (t ++ [ev])%list /\ pageOf ev = m0 :: rest /\
     stale (now - MS_IN_WEEK) (last (m0 :: rest) m0) = true).
Proof.
  intros Hsize Hlimit H. unfold Leaderboard.getRecentMessages in H. cbn [defaulted] in H.
  eapply recentLoop_overshoot; try eassumption. cbn [List.length Z.of_nat].
  apply Z.le_max_r.
Qed.

Lemma getRecentMessages_overshoot_below_one_page_witness :
  Z.of_nat (List.length [Fixture.A; Fixture.B; Fixture.C]) <= 1 + 99 /\
  (1 < Z.of_nat (List.length [Fixture.A; Fixture.B; Fixture.C]) ->
   exists t ev m0 rest,
     [EvMessages "daily-reading-check" None
        (Fixture.success (Some [Fixture.A; Fixture.B; Fixture.C; Fixture.D]))]
     = (t ++ [ev])%list /\ pageOf ev = m0 :: rest /\
     stale (Fixture.now - MS_IN_WEEK) (last (m0 :: rest) m0) = true).
Proof.
  apply (@getRecentMessages_overshoot_below_one_page Fixture.week 5 "daily-reading-check"
           (Some "token") 1 Fixture.now _ _ (proj1 (week_pages _ _))).
  - lia.
  - reflexivity.
Defined.

(** X11.  On a first page that does not end with a message older than a
    week, [getRecentMessages] with the cap 0 returns no message after that
    one request, and with a negative cap it throws the error of
    [messages.length = limit], a RangeError whose message is
    [Invalid array length]. *)
Theorem getRecentMessages_cap_not_positive
    (net : Discord) (fuel : nat) (channelId : string) (botToken : option string)
    (limit now : Z) (m0 : Message) (rest : list Message) :
  let res := getMessages net (authorization botToken) channelId None in
  let run := Leaderboard.getRecentMessages net (S fuel) channelId botToken (Some limit) now in
  ok res = true ->
  json res = Some (m0 :: rest) ->
  stale (now - MS_IN_WEEK) (last (m0 :: rest) m0) = false ->
  limit <= 0 ->
  run = ([EvMessages channelId None res],
         if limit <? 0 then Threw "Invalid array length" else Returned []).
Proof.
  intros res run Hok Hj Hs Hlimit. unfold run, Leaderboard.getRecentMessages.
  cbn [defaulted Leaderboard.recentLoop cursor]. fold res. cbn [bind].
  rewrite Hok, Hj. cbn [negb]. unfold stale in Hs. rewrite Hs.
  assert (Hcap : (limit <=? Z.of_nat (List.length ([] ++ m0 :: rest))) = true)
    by (apply Z.leb_le; lia).
  rewrite Hcap. destruct (limit <? 0) eqn:Hneg; [reflexivity |].
  apply Z.ltb_ge in Hneg. replace limit with 0 by lia. reflexivity.
Qed.

Lemma getRecentMessages_cap_not_positive_witness :
  Leaderboard.getRecentMessages Fixture.staleInside 1 "daily-reading-check" (Some "token")
    (Some (-1)) Fixture.now
  = ([EvMessages "daily-reading-check" None
        (Fixture.success (Some [Fixture.A; Fixture.D; Fixture.B]))],
     Threw "Invalid array length").
Proof.
  apply (@getRecentMessages_cap_not_positive Fixture.staleInside 0 "daily-reading-check"
           (Some "token") (-1) Fixture.now Fixture.A [Fixture.D; Fixture.B]
           eq_refl eq_refl eq_refl).
  lia.
Defined.

(* ================================================================== *)
(** ** The ledger and the embed of leaderboard.js *)

Lemma totalPoints_set (k : string) (v : Z) (m : JsMap Z) :
  totalPoints (Map_set k v m) = totalPoints m - pointTotal k m + v.
Proof.
  unfold totalPoints, pointTotal.
  induction m as [| [k' v'] m IH]; cbn [Map_set Map_get map snd fold_right].
  - lia.
  - destruct (k =? k')%string eqn:E; cbn [map snd fold_right]; [lia | rewrite IH; lia].
Qed.

Lemma entry_le_totalPoints (m : JsMap Z) (e : string * Z) :
  Forall (fun e => 1 <= snd e) m -> In e m -> snd e <= totalPoints m.
Proof.
  unfold totalPoints. induction m as [| e' m IH]; cbn [map fold_right]; [intros _ [] |].
  intros Hpos [-> | Hin]; inversion Hpos as [| ? ? Hh Ht]; subst.
  - assert (0 <= fold_right Z.add 0 (map snd m)); [| lia].
    clear -Ht. induction Ht as [| x l Hx _ IHl]; cbn [map fold_right]; lia.
  - specialize (IH Ht Hin). lia.
Qed.

Lemma authors_added (l : list Message) : forall (s : JsSet),
  let s' := fold_left (fun s m => Set_add (author_id m) s) l s in
  (NoDup s -> NoDup s') /\
  (forall u, In u s' <-> In u s \/ exists m, In m l /\ author_id m = u).
Proof.
  induction l as [| m l IH]; intros s; cbn [fold_left].
  - split; [auto |]. intros u. split; [auto | intros [H | (m & [] & _)]; exact H].
  - destruct (IH (Set_add (author_id m) s)) as [Hnd Hin]. split.
    + intros H. apply Hnd. now apply Set_add_NoDup.
    + intros u. rewrite Hin, Set_add_In. split.
      * intros [[-> | H] | (m' & Hm' & Hu)].
        -- right. exists m. split; [now left | reflexivity].
        -- now left.
        -- right. exists m'. split; [now right | assumption].
      * intros [H | (m' & [<- | Hm'] & Hu)].
        -- left. now right.
        -- left. left. now symmetry.
        -- right. now exists m'.
Qed.

Lemma calculatePoints_fold (step : JsMap Z -> Message -> JsMap Z) :
  (forall acc m,
     step acc m = if hasReactions m
                  then Map_set (author_id m) (pointTotal (author_id m) acc + 1) acc
                  else acc) ->
  forall messages acc,
    let userPoints := fold_left step messages acc in
    totalPoints userPoints
    = totalPoints acc + Z.of_nat (List.length (filter hasReactions messages)) /\
    map fst userPoints
    = fold_left (fun s m => Set_add (author_id m) s) (filter hasReactions messages)
        (map fst acc) /\
    (Forall (fun e => 1 <= snd e) acc -> Forall (fun e => 1 <= snd e) userPoints).
Proof.
  intros Hstep. induction messages as [| m messages IH]; intros acc; cbn [fold_left filter].
  - repeat split; [cbn [List.length Z.of_nat]; lia | auto].
  - destruct (IH (step acc m)) as (Ht & Hk & Hp). rewrite Hstep in Ht, Hk, Hp |- *.
    destruct (hasReactions m) eqn:E.
    + split; [| split].
      * rewrite Ht, totalPoints_set. cbn [List.length]. lia.
      * rewrite Hk, Map_set_keys. reflexivity.
      * intros Hacc. apply Hp. apply Map_set_Forall; [assumption |]. cbn [snd].
        unfold pointTotal. destruct (Map_get (author_id m) acc) as [p |] eqn:Eg; [| lia].
        apply Map_get_Some_In in Eg. rewrite Forall_forall in Hacc.
        specialize (Hacc _ Eg). cbn [snd] in Hacc. lia.
    + split; [exact Ht | split; [exact Hk | exact Hp]].
Qed.

(** X12.  The ledger of [calculatePoints] holds one point for each message
    with a non-empty list of reactions and none for the others: its point
    totals add up to the number of such messages, its keys are, once each,
    the authors of such messages, and every total is at least 1 and at
    most the number of messages. *)
Theorem calculatePoints_one_point_per_reacted_message (messages : list Message) :
  let userPoints := Leaderboard.calculatePoints messages in
  totalPoints userPoints = Z.of_nat (List.length (filter hasReactions messages)) /\
  NoDup (map fst userPoints) /\
  (forall u, In u (map fst userPoints) <->
             exists m, In m messages /\ hasReactions m = true /\ author_id m = u) /\
  Forall (fun e => 1 <= snd e <= Z.of_nat (List.length messages)) userPoints.
Proof.
  intros userPoints.
  assert (H : totalPoints userPoints
              = totalPoints [] + Z.of_nat (List.length (filter hasReactions messages)) /\
              map fst userPoints
              = fold_left (fun s m => Set_add (author_id m) s)
                  (filter hasReactions messages) [] /\
              (Forall (fun e : string * Z => 1 <= snd e) [] ->
               Forall (fun e => 1 <= snd e) userPoints)).
  { refine (@calculatePoints_fold _ _ messages []).
    intros acc m. unfold hasReactions, pointTotal.
    destruct (reactions m) as [[| r rs] |]; reflexivity. }
  destruct H as (Ht & Hk & Hp). change (totalPoints []) with 0 in Ht.
  destruct (authors_added (filter hasReactions messages) []) as [Hnd Hin].
  rewrite <- Hk in Hnd, Hin.
  split; [lia | split; [apply Hnd; constructor | split]].
  - intros u. rewrite Hin. split.
    + intros [[] | (m & Hm & Hu)]. apply filter_In in Hm. exists m. tauto.
    + intros (m & Hm & Hr & Hu). right. exists m. split; [| assumption].
      apply filter_In. tauto.
  - specialize (Hp (Forall_nil _)). rewrite Forall_forall in Hp |- *. intros e He.
    split; [now apply Hp |].
    pose proof (@entry_le_totalPoints userPoints e (proj2 (Forall_forall _ _) Hp) He) as Hle.
    pose proof (filter_length_le hasReactions messages). lia.
Qed.

Lemma StronglySorted_app_le {A} (R : A -> A -> Prop) (l1 l2 : list A) :
  StronglySorted R (l1 ++ l2) -> forall a b, In a l1 -> In b l2 -> R a b.
Proof.
  induction l1 as [| x l1 IH]; cbn [app]; intros Hs a b Ha Hb; [destruct Ha |].
  inversion Hs as [| ? ? Hs' Hall]; subst. destruct Ha as [-> | Ha].
  - rewrite Forall_forall in Hall. apply Hall. apply in_or_app. now right.
  - now apply IH.
Qed.

Lemma mapi_from_names (l : list (string * Z)) : forall i,
  map field_name (mapi_from fieldOf i l)
  = map (fun j => "#" ++ String_of (Z.of_nat j + 1)) (seq i (List.length l)).
Proof.
  induction l as [| e l IH]; intros i; cbn [mapi_from map List.length seq]; [reflexivity |].
  now rewrite IH.
Qed.

Lemma mapi_from_values (l : list (string * Z)) : forall i,
  map field_value (mapi_from fieldOf i l)
  = map (fun e => "<@" ++ fst e ++ "> - " ++ String_of (snd e) ++ " points") l.
Proof.
  induction l as [| e l IH]; intros i; cbn [mapi_from map]; [reflexivity |].
  now rewrite IH.
Qed.

Lemma mapi_from_inline (l : list (string * Z)) : forall i,
  Forall (fun f => inline f = false) (mapi_from fieldOf i l).
Proof.
  induction l as [| e l IH]; intros i; cbn [mapi_from]; constructor; [reflexivity | apply IH].
Qed.

(** X13.  The fields of the embed of [generateLeaderboardEmbed] show the
    users with the most points, most points first: the users shown and
    those left out make up the ledger, 10 users are shown or the whole
    ledger when that is smaller, no user left out has more points than a
    user shown, and the fields are, in this order, the mention and the
    points of each user shown, under the labels [#1], [#2] and so on.  The
    description is the same whether or not anybody scored. *)
Theorem generateLeaderboardEmbed_shows_highest (userPoints : JsMap Z) (iso : string) :
  let embed := Leaderboard.generateLeaderboardEmbed userPoints iso in
  exists shown dropped,
    Permutation (shown ++ dropped) userPoints /\
    List.length shown = Nat.min 10 (List.length userPoints) /\
    StronglySorted notFewerPoints shown /\
    (forall r d, In r shown -> In d dropped -> snd d <= snd r) /\
    map field_value (fields embed)
    = map (fun e => "<@" ++ fst e ++ "> - " ++ String_of (snd e) ++ " points") shown /\
    map field_name (fields embed)
    = map (fun j => "#" ++ String_of (Z.of_nat j + 1)) (seq 0 (List.length shown)) /\
    NoDup (map field_name (fields embed)) /\
    Forall (fun f => inline f = false) (fields embed) /\
    description embed = "Top 10 users who received reactions in the past week:".
Proof.
  intros embed. unfold embed. rewrite generateLeaderboardEmbed_fields.
  exists (sortedUsers userPoints), (skipn 10 (sort Leaderboard.byPoints userPoints)).
  assert (Hshown : sortedUsers userPoints = firstn 10 (sort Leaderboard.byPoints userPoints))
    by reflexivity.
  split; [| split; [| split; [| split; [| split; [| split; [| split; [| split]]]]]]].
  - rewrite Hshown, firstn_skipn. apply sort_perm.
  - rewrite Hshown, length_firstn, sort_length. reflexivity.
  - apply sortedUsers_sorted.
  - intros r d Hr Hd.
    assert (Hs : StronglySorted notFewerPoints (sort Leaderboard.byPoints userPoints)).
    { eapply StronglySorted_impl; [| apply (sort_sorted Leaderboard.byPoints)].
      - unfold notFewerPoints, Leaderboard.byPoints. intros a b Hab. cbv beta in Hab. lia.
      - unfold Leaderboard.byPoints. intros; lia.
      - unfold Leaderboard.byPoints. intros; lia. }
    rewrite <- (firstn_skipn 10) in Hs. rewrite Hshown in Hr.
    exact (@StronglySorted_app_le _ _ _ _ Hs r d Hr Hd).
  - apply mapi_from_values.
  - apply mapi_from_names.
  - rewrite mapi_from_names. apply Finite.Injective_map_NoDup; [| apply seq_NoDup].
    intros i j H. apply append_inj_l, String_of_inj in H. lia.
  - apply mapi_from_inline.
  - reflexivity.
Qed.

Section LeaderboardRequests.

Variable net : Discord.

Lemma recentLoop_requests (channelId : string) (botToken : option string)
    (limit oneWeekAgo : Z) :
  forall fuel lastId messages,
    AllRequests (fun ev => exists before res, ev = EvMessages channelId before res)
      (Leaderboard.recentLoop net fuel channelId botToken limit oneWeekAgo lastId messages).
Proof.
  induction fuel as [| fuel IH]; intros lastId messages; cbn [Leaderboard.recentLoop].
  - apply AllRequests_pure.
  - apply AllRequests_fetch; [eauto |].
    destruct (negb (ok _)); [apply AllRequests_pure |].
    destruct (json _) as [[| m0 rest] |]; try apply AllRequests_pure.
    destruct (lt_nan (timestamp (last (m0 :: rest) m0)) oneWeekAgo);
      [apply AllRequests_pure |].
    destruct (limit <=? Z.of_nat (List.length (messages ++ m0 :: rest))).
    + destruct (limit <? 0); apply AllRequests_pure.
    + apply IH.
Qed.

End LeaderboardRequests.

(** X14.  The requests of [generateAndPostLeaderboard] are pages of
    messages of the source channel, followed by at most one post to the
    post channel; leaderboard.js never asks who reacted to a message.  When
    the run returns an embed, that embed is the one it posted, last and
    with success; when it throws after a post, the post failed and the
    error carries the status text of its response; while the paging is
    still running nothing is posted. *)
Theorem generateAndPostLeaderboard_reads_then_posts
    (net : Discord) (fuel : nat) (env : Env) (limit : option Z) (now : Z) (iso : string) :
  let run := Leaderboard.generateAndPostLeaderboard net fuel env limit now iso in
  let source := interp (SOURCE_CHANNEL_ID env) in
  let target := interp (POST_CHANNEL_ID env) in
  exists reads posts,
    trace run = (reads ++ posts)%list /\
    Forall (fun ev => exists before res, ev = EvMessages source before res) reads /\
    match outcome run with
    | Returned embed => exists res, posts = [EvPost target embed res] /\ ok res = true
    | Threw message =>
        posts = [] \/
        exists embed res,
          posts = [EvPost target embed res] /\ ok res = false /\
          message = "Failed to post leaderboard: " ++ statusText res
    | Pending => posts = []
    end.
Proof.
  intros run source target. unfold run, Leaderboard.generateAndPostLeaderboard.
  pose proof (recentLoop_requests net source (DISCORD_BOT_TOKEN env) (defaulted limit 100)
                (now - MS_IN_WEEK) fuel None []) as Hreads.
  fold (Leaderboard.getRecentMessages net fuel source (DISCORD_BOT_TOKEN env) limit now)
    in Hreads.
  fold source target. unfold AllRequests in Hreads.
  destruct (Leaderboard.getRecentMessages net fuel source (DISCORD_BOT_TOKEN env) limit now)
    as [reads [messages | message |]]; cbn [trace fst] in Hreads.
  - rewrite bind_trace, bind_outcome. cbn [trace outcome fst snd]. cbv beta.
    unfold Leaderboard.postLeaderboard.
    set (embed := Leaderboard.generateLeaderboardEmbed _ iso).
    set (res := postMessage net _ target embed).
    exists reads, [EvPost target embed res].
    cbn [bind]. destruct (ok res) eqn:Hok; cbn [negb bind throw ret trace outcome fst snd app].
    + split; [reflexivity | split; [assumption |]]. now exists res.
    + split; [reflexivity | split; [assumption |]]. right. now exists embed, res.
  - exists reads, []. cbn [bind trace outcome fst snd]. rewrite app_nil_r.
    split; [reflexivity | split; [assumption | now left]].
  - exists reads, []. cbn [bind trace outcome fst snd]. rewrite app_nil_r.
    split; [reflexivity | split; [assumption | reflexivity]].
Qed.

(* ================================================================== *)
(** ** The entry points: calls and results *)

Lemma hbind_calls {A B} (c : Handled A) (k : A -> Handled B) :
  calls (hbind c k) =
  match result c with
  | Returned a => (calls c ++ calls (k a))%list
  | _ => calls c
  end.
Proof.
  destruct c as [tr [a | e |]]; cbn [hbind calls result fst snd]; try reflexivity.
  now destruct (k a).
Qed.

Lemma hbind_result {A B} (c : Handled A) (k : A -> Handled B) :
  result (hbind c k) =
  match result c with
  | Returned a => result (k a)
  | Threw e => Threw e
  | Pending => Pending
  end.
Proof.
  destruct c as [tr [a | e |]]; cbn [hbind calls result fst snd]; try reflexivity.
  now destruct (k a).
Qed.

Lemma tryCatch_calls {A} (c : Handled A) (handler : string -> Handled A) :
  calls (tryCatch c handler) =
  match result c with
  | Threw e => (calls c ++ calls (handler e))%list
  | _ => calls c
  end.
Proof.
  destruct c as [tr [a | e |]]; cbn [tryCatch calls result fst snd]; try reflexivity.
  now destruct (handler e).
Qed.

Lemma tryCatch_result {A} (c : Handled A) (handler : string -> Handled A) :
  result (tryCatch c handler) =
  match result c with
  | Returned a => Returned a
  | Threw e => result (handler e)
  | Pending => Pending
  end.
Proof.
  destruct c as [tr [a | e |]]; cbn [tryCatch calls result fst snd]; try reflexivity.
  now destruct (handler e).
Qed.

Lemma adminKeyGiven_guard (key : option string) (secrets : Secrets) :
  negb (truthy_opt (ADMIN_KEY secrets)) || negb (same key (ADMIN_KEY secrets)) = false
  <-> adminKeyGiven key secrets.
Proof.
  unfold adminKeyGiven, truthy_opt, truthy, same. split.
  - destruct (ADMIN_KEY secrets) as [k |]; [| discriminate].
    destruct key as [k' |]; cbn [negb orb]; rewrite ?Bool.orb_true_r; try discriminate.
    intros H. apply Bool.orb_false_elim in H. destruct H as [H1 H2].
    apply Bool.negb_false_iff in H1, H2. apply Bool.negb_true_iff in H1.
    apply String.eqb_neq in H1. apply String.eqb_eq in H2. subst k'.
    now exists k.
  - intros (k & -> & Hk & ->). apply String.eqb_neq in Hk. rewrite Hk, String.eqb_refl.
    reflexivity.
Qed.

Section WorkerFetch.

Variable lib : DiscordInteractions.
Variable host : Host.
Variable localeCompare : string -> string -> Z.
Variable encodeURIComponent : string -> string.
Variable net : Discord.
Variable portal : Portal.

Lemma fetch_interactions (request : Handler.Request) (env : Env) (secrets : Secrets)
    (fuel : nat) (now : Z) (iso : string) :
  Handler.pathname request = "/interactions" -> Handler.method request = "POST" ->
  Handler.fetch lib host localeCompare encodeURIComponent net portal request env secrets
    fuel now iso =
  let isValid :=
    verifyKey lib (Handler.body request) (Handler.x_signature_ed25519 request)
      (Handler.x_signature_timestamp request) (DISCORD_PUBLIC_KEY secrets) in
  if negb (verdict_truthy isValid)
  then Handler.respond (textResponse 401 "Bad request signature.")
  else
    match JSON_parse host (Handler.body request) with
    | SyntaxError e => Handler.fails e
    | Parsed JNull =>
        Handler.fails "Cannot read properties of null (reading 'type')"
    | Parsed (JPrimitive _) => Handler.unknownInteraction
    | Parsed (JObject message) =>
        if isType (interaction_type message) (PING lib)
        then Handler.respond (Handler.jsonResponse (BodyType (PONG lib)))
        else if isType (interaction_type message) (APPLICATION_COMMAND lib) then
          match interaction_data message with
          | Some (NameText name) =>
              if (toLowerCase host name =? "leaderboard")%string then
                {| Handler.reply :=
                     hret (Handler.jsonResponse
                             (BodyType (DEFERRED_CHANNEL_MESSAGE_WITH_SOURCE lib)));
                   Handler.deferred :=
                     Handler.followUp localeCompare encodeURIComponent net portal fuel env
                       secrets (interaction_token message) now iso |}
              else Handler.unknownInteraction
          | Some NameOther =>
              Handler.fails "message.data?.name?.toLowerCase is not a function"
          | _ => Handler.unknownInteraction
          end
        else Handler.unknownInteraction
    end.
Proof.
  intros Hp Hm. unfold Handler.fetch. rewrite Hp, Hm. reflexivity.
Qed.

Lemma fetch_register (request : Handler.Request) (env : Env) (secrets : Secrets)
    (fuel : nat) (now : Z) (iso : string) :
  Handler.pathname request = "/register" -> Handler.method request = "GET" ->
  Handler.fetch lib host localeCompare encodeURIComponent net portal request env secrets
    fuel now iso =
  if negb (truthy_opt (ADMIN_KEY secrets))
     || negb (same (Handler.key request) (ADMIN_KEY secrets))
  then Handler.respond (textResponse 403 "Forbidden")
  else
    {| Handler.reply :=
         _ <~ Handler.registerPerGuild portal env secrets ;;
         hret (textResponse 200 "Registered /leaderboard (per-guild).");
       Handler.deferred := hret tt |}.
Proof.
  intros Hp Hm. unfold Handler.fetch. rewrite Hp, Hm. reflexivity.
Qed.

Lemma fetch_cronTest (request : Handler.Request) (env : Env) (secrets : Secrets)
    (fuel : nat) (now : Z) (iso : string) :
  Handler.pathname request = "/cron-test" -> Handler.method request = "GET" ->
  Handler.fetch lib host localeCompare encodeURIComponent net portal request env secrets
    fuel now iso =
  {| Handler.reply :=
       _ <~ lift (cronTest localeCompare encodeURIComponent net fuel env now iso) ;;
       hret (textResponse 200 "ok");
     Handler.deferred := hret tt |}.
Proof.
  intros Hp Hm. unfold Handler.fetch. rewrite Hp, Hm. reflexivity.
Qed.

(** The four cases of [fetch]: the three routes, and any other request. *)
Lemma fetch_cases (request : Handler.Request) (env : Env) (secrets : Secrets)
    (fuel : nat) (now : Z) (iso : string) :
  (Handler.pathname request = "/interactions" /\ Handler.method request = "POST") \/
  (Handler.pathname request = "/register" /\ Handler.method request = "GET") \/
  (Handler.pathname request = "/cron-test" /\ Handler.method request = "GET") \/
  ((Handler.pathname request = "/interactions" -> Handler.method request <> "POST") /\
   (Handler.pathname request = "/register" -> Handler.method request <> "GET") /\
   (Handler.pathname request = "/cron-test" -> Handler.method request <> "GET") /\
   Handler.fetch lib host localeCompare encodeURIComponent net portal request env secrets
    fuel now iso = Handler.respond (textResponse 200 "OK")).
Proof.
  unfold Handler.fetch.
  destruct ((Handler.pathname request =? "/interactions")%string
            && (Handler.method request =? "POST")%string) eqn:E1.
  { apply andb_prop in E1. destruct E1 as [H1 H2].
    apply String.eqb_eq in H1, H2. now left. }
  destruct ((Handler.pathname request =? "/register")%string
            && (Handler.method request =? "GET")%string) eqn:E2.
  { apply andb_prop in E2. destruct E2 as [H1 H2].
    apply String.eqb_eq in H1, H2. right. now left. }
  destruct ((Handler.pathname request =? "/cron-test")%string
            && (Handler.method request =? "GET")%string) eqn:E3.
  { apply andb_prop in E3. destruct E3 as [H1 H2].
    apply String.eqb_eq in H1, H2. right. right. now left. }
  right. right. right. repeat split; try reflexivity.
  - intros Hp Hm. rewrite Hp, Hm in E1. discriminate.
  - intros Hp Hm. rewrite Hp, Hm in E2. discriminate.
  - intros Hp Hm. rewrite Hp, Hm in E3. discriminate.
Qed.

Ltac settle :=
  repeat match goal with
         | |- _ /\ _ => split
         | |- _ <-> _ => split
         | |- _ -> _ => intro
         | H : _ /\ _ |- _ => destruct H
         end;
  try reflexivity; try discriminate; try lia; try tauto; try congruence.

(** X15.  [fetch] of the worker answers 401 exactly to a POST of
    [/interactions] on which [verifyKey] returned the boolean false, never
    when [verifyKey] returned a promise, which the worker does not await;
    it answers 403 exactly to a GET of [/register] without the admin key,
    set and not empty; and every answer has the status 200, 400, 401 or
    403. *)
Theorem fetch_reply_status (request : Handler.Request) (env : Env) (secrets : Secrets)
    (fuel : nat) (now : Z) (iso : string) (r : Reply) :
  result (Handler.reply
            (Handler.fetch lib host localeCompare encodeURIComponent net portal request env
               secrets fuel now iso)) = Returned r ->
  (reply_status r = 401 <->
   Handler.pathname request = "/interactions" /\ Handler.method request = "POST" /\
   verifyKey lib (Handler.body request) (Handler.x_signature_ed25519 request)
     (Handler.x_signature_timestamp request) (DISCORD_PUBLIC_KEY secrets) = Sync false) /\
  (reply_status r = 403 <->
   Handler.pathname request = "/register" /\ Handler.method request = "GET" /\
   ~ adminKeyGiven (Handler.key request) secrets) /\
  (reply_status r = 200 \/ reply_status r = 400 \/ reply_status r = 401 \/
   reply_status r = 403).
Proof.
  intros H.
  destruct (fetch_cases request env secrets fuel now iso)
    as [[Hp Hm] | [[Hp Hm] | [[Hp Hm] | (N1 & N2 & N3 & Hf)]]].
  - rewrite (fetch_interactions request env secrets fuel now iso Hp Hm) in H.
    cbv zeta in H. rewrite Hp, Hm.
    destruct (verifyKey lib _ _ _ _) as [[|] | valid]; cbn [verdict_truthy negb] in H.
    2: { injection H as <-. cbn [reply_status textResponse]. settle. }
    all: assert (Hs : reply_status r = 200 \/ reply_status r = 400);
      [ destruct (JSON_parse host _) as [e | [| t | message]];
        try discriminate;
        [ injection H as <-; now right
        | destruct (isType _ (PING lib));
          [ injection H as <-; now left |];
          destruct (isType _ (APPLICATION_COMMAND lib));
          [| injection H as <-; now right];
          destruct (interaction_data message) as [[| name |] |];
          try discriminate; try (injection H as <-; now right);
          destruct (toLowerCase host name =? "leaderboard")%string;
          injection H as <-; [now left | now right] ]
      | destruct Hs as [Hs | Hs]; rewrite Hs; settle ].
  - rewrite (fetch_register request env secrets fuel now iso Hp Hm) in H. rewrite Hp, Hm.
    destruct (negb (truthy_opt (ADMIN_KEY secrets))
              || negb (same (Handler.key request) (ADMIN_KEY secrets))) eqn:Eg.
    + injection H as <-. cbn [reply_status textResponse].
      assert (Hn : ~ adminKeyGiven (Handler.key request) secrets).
      { intros Ha. apply adminKeyGiven_guard in Ha. congruence. }
      settle.
    + apply adminKeyGiven_guard in Eg. cbn [Handler.reply] in H.
      rewrite hbind_result in H.
      destruct (result (Handler.registerPerGuild portal env secrets)); try discriminate.
      injection H as <-. cbn [reply_status textResponse]. settle.
  - rewrite (fetch_cronTest request env secrets fuel now iso Hp Hm) in H. rewrite Hp, Hm.
    cbn [Handler.reply] in H. rewrite hbind_result in H.
    destruct (result (lift _)); try discriminate.
    injection H as <-. cbn [reply_status textResponse]. settle.
  - rewrite Hf in H. injection H as <-. cbn [reply_status textResponse]. settle.
Qed.

Lemma core_not_registration (tr : list Event) : existsb isRegistration (map Core tr) = false.
Proof. induction tr as [| ev tr IH]; [reflexivity | exact IH]. Qed.

Lemma deliver_not_registration (c : Call) (d : Delivery) :
  isRegistration c = false -> existsb isRegistration (calls (deliver c d)) = false.
Proof. intros H. cbn [deliver calls fst existsb]. now rewrite H. Qed.

(** What the work left running does, by the outcome of the scan and the
    delivery of the follow-up messages. *)
Lemma followUp_calls (fuel : nat) (env : Env) (secrets : Secrets) (token : option string)
    (now : Z) (iso : string) :
  let scan := runScan localeCompare encodeURIComponent net fuel env None now in
  let work :=
    Handler.followUp localeCompare encodeURIComponent net portal fuel env secrets token
      now iso in
  let applicationId := interp (DISCORD_APPLICATION_ID secrets) in
  let failure := FollowContent "Failed to compute leaderboard." in
  let reported :=
    match postWebhook portal applicationId (interp token) failure with
    | Delivered => Returned tt
    | Rejected e => Threw e
    end in
  exists followups,
    calls work = (map Core (trace scan) ++ followups)%list /\
    match outcome scan with
    | Returned r =>
        match postWebhook portal applicationId (interp token)
                (FollowEmbed (slashEmbed r iso)) with
        | Delivered =>
            followups
            = [Webhook applicationId (interp token) (FollowEmbed (slashEmbed r iso))] /\
            result work = Returned tt
        | Rejected _ =>
            followups
            = [Webhook applicationId (interp token) (FollowEmbed (slashEmbed r iso));
               Webhook applicationId (interp token) failure] /\
            result work = reported
        end
    | Threw _ =>
        followups = [Webhook applicationId (interp token) failure] /\
        result work = reported
    | Pending => followups = [] /\ result work = Pending
    end.
Proof.
  intros scan work applicationId failure reported.
  unfold work, reported, Handler.followUp, Handler.sendFollowup, deliver, lift.
  fold scan applicationId failure.
  destruct scan as [tr [r | e |]]; cbn [trace outcome fst snd].
  - destruct (postWebhook portal applicationId (interp token)
                (FollowEmbed (slashEmbed r iso))) eqn:Ed;
      cbn [hbind tryCatch calls result fst snd app]; rewrite ?Ed;
      cbn [hbind tryCatch calls result fst snd app].
    + eexists. split; [reflexivity | now split].
    + eexists. split; [now rewrite <- app_assoc | now split].
  - cbn [hbind tryCatch calls result fst snd app].
    eexists. split; [reflexivity | now split].
  - cbn [hbind tryCatch calls result fst snd app].
    exists []. split; [now rewrite app_nil_r | now split].
Qed.

Lemma followUp_no_registration (fuel : nat) (env : Env) (secrets : Secrets)
    (token : option string) (now : Z) (iso : string) :
  existsb isRegistration
    (calls (Handler.followUp localeCompare encodeURIComponent net portal fuel env secrets
              token now iso)) = false.
Proof.
  destruct (followUp_calls fuel env secrets token now iso) as (followups & Hc & H).
  rewrite Hc, existsb_app, core_not_registration. cbn [orb].
  destruct (outcome _) as [r | e |].
  - destruct (postWebhook portal _ _ (FollowEmbed _)); destruct H as [-> _]; reflexivity.
  - destruct H as [-> _]. reflexivity.
  - destruct H as [-> _]. reflexivity.
Qed.

(** X16.  [fetch] of the worker calls Discord, before or after it answers,
    only on a POST of [/interactions] that passed the signature check and
    carries the command [leaderboard], on a GET of [/register] with the
    admin key, or on a GET of [/cron-test], whatever key comes with it;
    and it registers commands only on a GET of [/register] with the admin
    key, set and not empty. *)
Theorem fetch_calls_need_authorisation (request : Handler.Request) (env : Env)
    (secrets : Secrets) (fuel : nat) (now : Z) (iso : string) :
  let h :=
    Handler.fetch lib host localeCompare encodeURIComponent net portal request env secrets
      fuel now iso in
  let made := (calls (Handler.reply h) ++ calls (Handler.deferred h))%list in
  (made <> [] ->
   (Handler.pathname request = "/interactions" /\ Handler.method request = "POST" /\
    verdict_truthy
      (verifyKey lib (Handler.body request) (Handler.x_signature_ed25519 request)
         (Handler.x_signature_timestamp request) (DISCORD_PUBLIC_KEY secrets)) = true /\
    exists message name,
      JSON_parse host (Handler.body request) = Parsed (JObject message) /\
      isType (interaction_type message) (APPLICATION_COMMAND lib) = true /\
      interaction_data message = Some (NameText name) /\
      toLowerCase host name = "leaderboard") \/
   (Handler.pathname request = "/register" /\ Handler.method request = "GET" /\
    adminKeyGiven (Handler.key request) secrets) \/
   (Handler.pathname request = "/cron-test" /\ Handler.method request = "GET")) /\
  (existsb isRegistration made = true ->
   Handler.pathname request = "/register" /\ Handler.method request = "GET" /\
   adminKeyGiven (Handler.key request) secrets).
Proof.
  intros h made. unfold made, h. clear made h.
  destruct (fetch_cases request env secrets fuel now iso)
    as [[Hp Hm] | [[Hp Hm] | [[Hp Hm] | (N1 & N2 & N3 & Hf)]]].
  - rewrite (fetch_interactions request env secrets fuel now iso Hp Hm). cbv zeta.
    destruct (verdict_truthy (verifyKey lib _ _ _ _)) eqn:Ev; cbn [negb];
      [| split; [intros H; now contradiction H | discriminate]].
    destruct (JSON_parse host _) as [e | [| t | message]] eqn:Ej;
      try (split; [intros H; now contradiction H | discriminate]).
    destruct (isType _ (PING lib));
      [split; [intros H; now contradiction H | discriminate] |].
    destruct (isType _ (APPLICATION_COMMAND lib)) eqn:Et;
      [| split; [intros H; now contradiction H | discriminate]].
    destruct (interaction_data message) as [[| name |] |] eqn:Ed;
      try (split; [intros H; now contradiction H | discriminate]).
    destruct (toLowerCase host name =? "leaderboard")%string eqn:En;
      [| split; [intros H; now contradiction H | discriminate]].
    apply String.eqb_eq in En. split.
    + intros _. left. repeat split; try assumption. now exists message, name.
    + cbn [Handler.reply Handler.deferred hret calls fst app].
      rewrite (followUp_no_registration fuel env secrets (interaction_token message)
                 now iso).
      discriminate.
  - rewrite (fetch_register request env secrets fuel now iso Hp Hm).
    destruct (negb (truthy_opt (ADMIN_KEY secrets))
              || negb (same (Handler.key request) (ADMIN_KEY secrets))) eqn:Eg;
      [split; [intros H; now contradiction H | discriminate] |].
    apply adminKeyGiven_guard in Eg. split; [intros _; right; left |]; tauto.
  - rewrite (fetch_cronTest request env secrets fuel now iso Hp Hm). split.
    + intros _. right. right. tauto.
    + cbn [Handler.reply Handler.deferred hret calls fst]. rewrite app_nil_r.
      rewrite hbind_calls. unfold lift. cbn [calls result fst snd].
      destruct (outcome _); cbn [hret fst]; rewrite ?app_nil_r, core_not_registration;
        discriminate.
  - rewrite Hf. split; [intros H; now contradiction H | discriminate].
Qed.

Lemma core_not_write {A} (c : Async A) :
  ReadOnly c -> Forall (fun call => isWrite call = false) (map Core (trace c)).
Proof.
  unfold ReadOnly. intros H. apply Forall_map. exact H.
Qed.

(** X17.  To a signed [leaderboard] command the worker answers at once
    with the deferred acknowledgement, whatever Discord answers later.  The
    work it leaves running reads the source channel and, once the scan has
    settled, sends the embed of the scan to the webhook of the interaction
    when the scan returned; it sends the failure text when the scan threw,
    and also when the embed could not be delivered.  These messages are its
    only writes, so the slash command posts nothing to a channel.  The work
    throws only when the failure text could not be delivered, which
    nothing catches, and then the error of that delivery. *)
Theorem leaderboard_interaction_deferred (request : Handler.Request) (env : Env)
    (secrets : Secrets) (fuel : nat) (now : Z) (iso : string) (message : Interaction)
    (name : string) :
  Handler.pathname request = "/interactions" ->
  Handler.method request = "POST" ->
  verdict_truthy
    (verifyKey lib (Handler.body request) (Handler.x_signature_ed25519 request)
       (Handler.x_signature_timestamp request) (DISCORD_PUBLIC_KEY secrets)) = true ->
  JSON_parse host (Handler.body request) = Parsed (JObject message) ->
  isType (interaction_type message) (PING lib) = false ->
  isType (interaction_type message) (APPLICATION_COMMAND lib) = true ->
  interaction_data message = Some (NameText name) ->
  toLowerCase host name = "leaderboard" ->
  let h :=
    Handler.fetch lib host localeCompare encodeURIComponent net portal request env secrets
      fuel now iso in
  let scan := runScan localeCompare encodeURIComponent net fuel env None now in
  let applicationId := interp (DISCORD_APPLICATION_ID secrets) in
  let token := interp (interaction_token message) in
  let failure := FollowContent "Failed to compute leaderboard." in
  let reported :=
    match postWebhook portal applicationId token failure with
    | Delivered => Returned tt
    | Rejected e => Threw e
    end in
  Handler.reply h
  = hret (Handler.jsonResponse (BodyType (DEFERRED_CHANNEL_MESSAGE_WITH_SOURCE lib))) /\
  (forall e, result (Handler.deferred h) = Threw e ->
             postWebhook portal applicationId token failure = Rejected e) /\
  Forall (fun call => isWrite call = false) (map Core (trace scan)) /\
  exists followups,
    calls (Handler.deferred h) = (map Core (trace scan) ++ followups)%list /\
    match outcome scan with
    | Returned r =>
        match postWebhook portal applicationId token (FollowEmbed (slashEmbed r iso)) with
        | Delivered =>
            followups = [Webhook applicationId token (FollowEmbed (slashEmbed r iso))] /\
            result (Handler.deferred h) = Returned tt
        | Rejected _ =>
            followups = [Webhook applicationId token (FollowEmbed (slashEmbed r iso));
                         Webhook applicationId token failure] /\
            result (Handler.deferred h) = reported
        end
    | Threw _ =>
        followups = [Webhook applicationId token failure] /\
        result (Handler.deferred h) = reported
    | Pending => followups = [] /\ result (Handler.deferred h) = Pending
    end.
Proof.
  intros Hp Hm Hv Hj Hping Hcmd Hd Hn h scan applicationId token failure reported.
  unfold h. rewrite (fetch_interactions request env secrets fuel now iso Hp Hm). cbv zeta.
  rewrite Hv, Hj, Hping, Hcmd, Hd, Hn. cbn [negb String.eqb Ascii.eqb Bool.eqb].
  cbn [Handler.reply Handler.deferred].
  destruct (followUp_calls fuel env secrets (interaction_token message) now iso)
    as (followups & Hc & Hcases).
  fold scan applicationId token failure reported in Hc, Hcases.
  split; [reflexivity | split; [| split]].
  - intros e He. unfold reported in Hcases.
    destruct (outcome scan) as [r | e0 |].
    + destruct (postWebhook portal applicationId token (FollowEmbed (slashEmbed r iso)));
        destruct Hcases as [_ Hr]; rewrite Hr in He; [discriminate |].
      destruct (postWebhook portal applicationId token failure); [discriminate |].
      now injection He as ->.
    + destruct Hcases as [_ Hr]. rewrite Hr in He.
      destruct (postWebhook portal applicationId token failure); [discriminate |].
      now injection He as ->.
    + destruct Hcases as [_ Hr]. rewrite Hr in He. discriminate.
  - apply core_not_write.
    apply (runScan_propagates localeCompare encodeURIComponent net fuel env None now).
  - exists followups. split; [exact Hc | exact Hcases].
Qed.

(** X18.  A GET of [/cron-test] is not guarded on the worker: whatever key,
    headers and body come with it and whatever the admin key is, [fetch]
    does the same, the 30 minute scan and the post of its leaderboard. *)
Theorem worker_cronTest_unguarded (request1 request2 : Handler.Request) (env : Env)
    (secrets1 secrets2 : Secrets) (fuel : nat) (now : Z) (iso : string) :
  Handler.pathname request1 = "/cron-test" -> Handler.method request1 = "GET" ->
  Handler.pathname request2 = "/cron-test" -> Handler.method request2 = "GET" ->
  Handler.fetch lib host localeCompare encodeURIComponent net portal request1 env secrets1
    fuel now iso
  = Handler.fetch lib host localeCompare encodeURIComponent net portal request2 env secrets2
      fuel now iso /\
  calls (Handler.reply
           (Handler.fetch lib host localeCompare encodeURIComponent net portal request1 env
              secrets1 fuel now iso))
  = map Core (trace (cronTest localeCompare encodeURIComponent net fuel env now iso)).
Proof.
  intros Hp1 Hm1 Hp2 Hm2.
  rewrite (fetch_cronTest request1 env secrets1 fuel now iso Hp1 Hm1).
  rewrite (fetch_cronTest request2 env secrets2 fuel now iso Hp2 Hm2).
  split; [reflexivity |]. cbn [Handler.reply]. rewrite hbind_calls. unfold lift.
  cbn [calls result fst snd]. destruct (outcome _); cbn [hret fst]; now rewrite ?app_nil_r.
Qed.

(** X26.  On a GET of [/register] with the admin key, the worker registers
    once, with a PUT under the bot's authorization for the guild of the
    environment, the one command [leaderboard]; it answers 200 when
    Discord accepted, and when Discord refused it throws the error
    [Register failed:] with the status and the text of the response, and
    answers nothing. *)
Theorem worker_register_route (request : Handler.Request) (env : Env) (secrets : Secrets)
    (fuel : nat) (now : Z) (iso : string) :
  Handler.pathname request = "/register" -> Handler.method request = "GET" ->
  adminKeyGiven (Handler.key request) secrets ->
  let h :=
    Handler.fetch lib host localeCompare encodeURIComponent net portal request env secrets
      fuel now iso in
  let auth := authorization (DISCORD_BOT_TOKEN env) in
  let applicationId := interp (DISCORD_APPLICATION_ID secrets) in
  let guildId := interp (GUILD_ID env) in
  let res := putCommands portal auth applicationId guildId Handler.leaderboardCommand in
  calls (Handler.reply h)
  = [PutCommands auth applicationId guildId Handler.leaderboardCommand res] /\
  map command_name Handler.leaderboardCommand = ["leaderboard"] /\
  result (Handler.reply h)
  = (if ok res then Returned (textResponse 200 "Registered /leaderboard (per-guild).")
     else Threw ("Register failed: " ++ String_of (status res) ++ " " ++ json res)) /\
  Handler.deferred h = hret tt.
Proof.
  intros Hp Hm Hk h auth applicationId guildId res. unfold h.
  rewrite (fetch_register request env secrets fuel now iso Hp Hm).
  apply adminKeyGiven_guard in Hk. rewrite Hk.
  cbn [Handler.reply Handler.deferred]. unfold Handler.registerPerGuild.
  fold auth applicationId guildId res.
  destruct (ok res) eqn:Hok;
    cbn [hbind call hret hthrow calls result fst snd app negb]; rewrite Hok;
    cbn [hbind call hret hthrow calls result fst snd app negb]; repeat split.
Qed.

End WorkerFetch.

Lemma fetch_reply_status_witness :
  let request := Sample.interaction None "ping" in
  let r := textResponse 401 "Bad request signature." in
  (reply_status r = 401 <->
   Handler.pathname request = "/interactions" /\ Handler.method request = "POST" /\
   verifyKey (Sample.lib false) (Handler.body request) (Handler.x_signature_ed25519 request)
     (Handler.x_signature_timestamp request) (DISCORD_PUBLIC_KEY Sample.secrets)
   = Sync false) /\
  (reply_status r = 403 <->
   Handler.pathname request = "/register" /\ Handler.method request = "GET" /\
   ~ adminKeyGiven (Handler.key request) Sample.secrets) /\
  (reply_status r = 200 \/ reply_status r = 400 \/ reply_status r = 401 \/
   reply_status r = 403).
Proof.
  intros request r.
  apply (@fetch_reply_status (Sample.lib false) Sample.host Fixture.codeUnitCompare
           Fixture.unreserved Fixture.week (Sample.portal true) request Fixture.env
           Sample.secrets 5 Fixture.now "2001-09-09" r).
  reflexivity.
Defined.

Lemma leaderboard_interaction_deferred_witness :
  let request := Sample.interaction (Some "signed") "leaderboard" in
  let portal := Sample.portal false in
  let h :=
    Handler.fetch (Sample.lib true) Sample.host Fixture.codeUnitCompare Fixture.unreserved
      Fixture.week portal request Fixture.env Sample.secrets 5 Fixture.now "2001-09-09" in
  let scan :=
    runScan Fixture.codeUnitCompare Fixture.unreserved Fixture.week 5 Fixture.env None
      Fixture.now in
  let failure := FollowContent "Failed to compute leaderboard." in
  let reported :=
    match postWebhook portal "app" "tok" failure with
    | Delivered => Returned tt
    | Rejected e => Threw e
    end in
  Handler.reply h = hret (Handler.jsonResponse (BodyType 5)) /\
  (forall e, result (Handler.deferred h) = Threw e ->
             postWebhook portal "app" "tok" failure = Rejected e) /\
  Forall (fun call => isWrite call = false) (map Core (trace scan)) /\
  exists followups,
    calls (Handler.deferred h) = (map Core (trace scan) ++ followups)%list /\
    match outcome scan with
    | Returned r =>
        match postWebhook portal "app" "tok" (FollowEmbed (slashEmbed r "2001-09-09")) with
        | Delivered =>
            followups = [Webhook "app" "tok" (FollowEmbed (slashEmbed r "2001-09-09"))] /\
            result (Handler.deferred h) = Returned tt
        | Rejected _ =>
            followups = [Webhook "app" "tok" (FollowEmbed (slashEmbed r "2001-09-09"));
                         Webhook "app" "tok" failure] /\
            result (Handler.deferred h) = reported
        end
    | Threw _ =>
        followups = [Webhook "app" "tok" failure] /\
        result (Handler.deferred h) = reported
    | Pending => followups = [] /\ result (Handler.deferred h) = Pending
    end.
Proof.
  apply (@leaderboard_interaction_deferred (Sample.lib true) Sample.host
           Fixture.codeUnitCompare Fixture.unreserved Fixture.week (Sample.portal false)
           (Sample.interaction (Some "signed") "leaderboard") Fixture.env Sample.secrets 5
           Fixture.now "2001-09-09" (Sample.command 2 "leaderboard") "leaderboard");
    reflexivity.
Defined.

Lemma worker_cronTest_unguarded_witness :
  let open := {| DISCORD_PUBLIC_KEY := None; DISCORD_APPLICATION_ID := None;
                 ADMIN_KEY := None |} in
  Handler.fetch (Sample.lib false) Sample.host Fixture.codeUnitCompare Fixture.unreserved
    Fixture.week (Sample.portal true) (Sample.get "/cron-test" None) Fixture.env open 5
    Fixture.now "2001-09-09"
  = Handler.fetch (Sample.lib false) Sample.host Fixture.codeUnitCompare Fixture.unreserved
      Fixture.week (Sample.portal true) (Sample.get "/cron-test" (Some "s3cret"))
      Fixture.env Sample.secrets 5 Fixture.now "2001-09-09" /\
  calls (Handler.reply
           (Handler.fetch (Sample.lib false) Sample.host Fixture.codeUnitCompare
              Fixture.unreserved Fixture.week (Sample.portal true)
              (Sample.get "/cron-test" None) Fixture.env open 5 Fixture.now "2001-09-09"))
  = map Core (trace (cronTest Fixture.codeUnitCompare Fixture.unreserved Fixture.week 5
                       Fixture.env Fixture.now "2001-09-09")).
Proof.
  intros open.
  apply (@worker_cronTest_unguarded (Sample.lib false) Sample.host Fixture.codeUnitCompare
           Fixture.unreserved Fixture.week (Sample.portal true)
           (Sample.get "/cron-test" None) (Sample.get "/cron-test" (Some "s3cret"))
           Fixture.env open Sample.secrets 5 Fixture.now "2001-09-09");
    reflexivity.
Defined.

(* ================================================================== *)
(** ** The routes of server.js *)

Lemma authorized_iff (request : Server.Request) (secrets : Secrets) :
  Server.unauthorized request secrets = false <->
  exists k, ADMIN_KEY secrets = Some k /\ k <> "" /\
            Server.query_key request = Server.QueryText k.
Proof.
  unfold Server.unauthorized, Server.query_truthy, Server.query_is, truthy. split.
  - destruct (Server.query_key request) as [| s |]; cbn [negb orb]; try discriminate.
    destruct (ADMIN_KEY secrets) as [k |];
      [| rewrite Bool.orb_true_r; discriminate].
    intros H. apply Bool.orb_false_elim in H. destruct H as [H1 H2].
    apply Bool.negb_false_iff in H1, H2. apply Bool.negb_true_iff in H1.
    apply String.eqb_neq in H1. apply String.eqb_eq in H2. subst k.
    now exists s.
  - intros (k & -> & Hk & ->). apply String.eqb_neq in Hk. rewrite Hk, String.eqb_refl.
    reflexivity.
Qed.

Lemma core_requests {A} (c : Async A) :
  filter isRequest (map Core (trace c)) = map Core (trace c).
Proof.
  induction (trace c) as [| ev tr IH]; cbn [map filter isRequest]; [reflexivity |].
  now rewrite IH.
Qed.

Section ServerRoutes.

Variable lib : DiscordInteractions.
Variable host : Host.
Variable commands : Server.Commands.
Variable getCuteUrl : Outcome string.
Variable net : Discord.
Variable portal : Portal.

(** X19.  [scheduled] of server.js never throws: its requests are those of
    [generateAndPostLeaderboard] without a cap, and a failure of the run is
    written to the console with its message, a success is logged, and in
    both cases the job returns. *)
Theorem server_scheduled_swallows_failures (env : Env) (fuel : nat) (now : Z)
    (iso : string) :
  let run := Leaderboard.generateAndPostLeaderboard net fuel env None now iso in
  let job := Server.scheduled net env fuel now iso in
  (forall e, result job <> Threw e) /\
  filter isRequest (calls job) = map Core (trace run) /\
  (result job = Pending <-> outcome run = Pending) /\
  (forall e, outcome run = Threw e <->
             In (Console true "Failed to generate weekly leaderboard:" (Some e)) (calls job)) /\
  ((exists embed, outcome run = Returned embed) <->
   In (Console false "Weekly leaderboard generated successfully" None) (calls job)).
Proof.
  intros run job. unfold job, Server.scheduled, Leaderboard.scheduled. fold run.
  pose proof (core_requests run) as Hreq. unfold lift.
  destruct (outcome run) as [embed | e0 |] eqn:Eo;
    cbn [hbind tryCatch call calls result fst snd app]; rewrite ?app_nil_r.
  - split; [discriminate | split; [| split; [| split]]].
    + rewrite filter_app, Hreq. cbn [filter isRequest]. now rewrite app_nil_r.
    + split; discriminate.
    + intros e. split; [discriminate |]. intros Hin. apply in_app_or in Hin.
      destruct Hin as [Hin | [Hin | []]]; [| discriminate].
      apply in_map_iff in Hin. destruct Hin as (ev & Hev & _). discriminate.
    + split; [intros _; apply in_or_app; right; now left | intros _; now exists embed].
  - split; [discriminate | split; [| split; [| split]]].
    + rewrite filter_app, Hreq. cbn [filter isRequest]. now rewrite app_nil_r.
    + split; discriminate.
    + intros e. split.
      * intros H. injection H as <-. apply in_or_app. right. now left.
      * intros Hin. apply in_app_or in Hin. destruct Hin as [Hin | [Hin | []]].
        -- apply in_map_iff in Hin. destruct Hin as (ev & Hev & _). discriminate.
        -- injection Hin as <-. reflexivity.
    + split; [intros [embed H]; discriminate |]. intros Hin. apply in_app_or in Hin.
      destruct Hin as [Hin | [Hin | []]]; [| discriminate].
      apply in_map_iff in Hin. destruct Hin as (ev & Hev & _). discriminate.
  - split; [discriminate | split; [| split; [| split]]].
    + exact Hreq.
    + split; reflexivity.
    + intros e. split; [discriminate |]. intros Hin.
      apply in_map_iff in Hin. destruct Hin as (ev & Hev & _). discriminate.
    + split; [intros [embed H]; discriminate |]. intros Hin.
      apply in_map_iff in Hin. destruct Hin as (ev & Hev & _). discriminate.
Qed.

(** X20.  The route [/register] of server.js never throws.  Without a key
    equal to the admin key, set and not empty, it answers 401 and calls
    nothing.  With it, it registers the leaderboard command once, for the
    guild of the environment and under the bot's authorization, and
    answers 200 when Discord accepted; when Discord refused it answers 500
    with the text of Discord's response behind the prefix
    [Failed to register command: ] written twice. *)
Theorem server_register_route (request : Server.Request) (env : Env) (secrets : Secrets) :
  let answer := Server.register commands portal request env secrets in
  let auth := authorization (DISCORD_BOT_TOKEN env) in
  let applicationId := interp (DISCORD_APPLICATION_ID secrets) in
  let guildId := interp (GUILD_ID env) in
  let res := postCommand portal auth applicationId guildId
               (Server.LEADERBOARD_COMMAND commands) in
  let authorised :=
    exists k, ADMIN_KEY secrets = Some k /\ k <> "" /\
              Server.query_key request = Server.QueryText k in
  (exists r, result answer = Returned r) /\
  (~ authorised -> answer = hret (textResponse 401 "Unauthorized")) /\
  (authorised ->
   calls answer
   = [PostCommand auth applicationId guildId (Server.LEADERBOARD_COMMAND commands) res] /\
   result answer
   = Returned
       (if ok res then textResponse 200 "Command registered successfully!"
        else textResponse 500
               ("Failed to register command: Failed to register command: " ++ json res))).
Proof.
  intros answer auth applicationId guildId res authorised.
  unfold answer, Server.register. fold auth applicationId guildId res.
  pose proof (authorized_iff request secrets) as Hiff. fold authorised in Hiff.
  destruct (Server.unauthorized request secrets).
  - split; [now eexists | split; [reflexivity |]].
    intros Ha. apply Hiff in Ha. discriminate.
  - destruct (ok res) eqn:Hok;
      cbn [hbind tryCatch call hret hthrow calls result fst snd app negb];
      rewrite Hok; cbn [hbind tryCatch call hret hthrow calls result fst snd app negb].
    + split; [now eexists | split; [| now split]].
      intros Hn. contradiction Hn. now apply Hiff.
    + split; [now eexists | split; [| now split]].
      intros Hn. contradiction Hn. now apply Hiff.
Qed.

(** X21.  The route [/cron-test] of server.js never throws.  Without a key
    equal to the admin key, set and not empty, it answers 401 and calls
    nothing.  With it, its requests are those of
    [generateAndPostLeaderboard] with the cap 500 over the last week; it
    answers 200 with the embed, as JSON, when the run returned, and 500
    with the message of the error behind
    [Failed to generate test leaderboard: ] when the run threw. *)
Theorem server_cronTest_route (request : Server.Request) (env : Env) (secrets : Secrets)
    (fuel : nat) (now : Z) (iso : string) :
  let answer := Server.cronTest net request env secrets fuel now iso in
  let run := Leaderboard.generateAndPostLeaderboard net fuel env (Some 500) now iso in
  let authorised :=
    exists k, ADMIN_KEY secrets = Some k /\ k <> "" /\
              Server.query_key request = Server.QueryText k in
  (forall e, result answer <> Threw e) /\
  (~ authorised -> answer = hret (textResponse 401 "Unauthorized")) /\
  (authorised ->
   calls answer = map Core (trace run) /\
   result answer
   = match outcome run with
     | Returned embed =>
         Returned {| reply_status := 200; reply_json := true;
                     reply_body :=
                       BodyTest "Leaderboard test completed successfully!" embed |}
     | Threw e =>
         Returned (textResponse 500 ("Failed to generate test leaderboard: " ++ e))
     | Pending => Pending
     end).
Proof.
  intros answer run authorised.
  unfold answer, Server.cronTest, Leaderboard.cronTest. fold run.
  pose proof (authorized_iff request secrets) as Hiff. fold authorised in Hiff.
  destruct (Server.unauthorized request secrets).
  - split; [discriminate | split; [reflexivity |]].
    intros Ha. apply Hiff in Ha. discriminate.
  - unfold lift. destruct (outcome run) as [embed | e0 |];
      cbn [hbind tryCatch call hret hthrow calls result fst snd app Server.JsonResponse];
      rewrite ?app_nil_r.
    + split; [discriminate | split; [| now split]].
      intros Hn. contradiction Hn. now apply Hiff.
    + split; [discriminate | split; [| now split]].
      intros Hn. contradiction Hn. now apply Hiff.
    + split; [discriminate | split; [| now split]].
      intros Hn. contradiction Hn. now apply Hiff.
Qed.

(** X22.  The case of the leaderboard command in server.js acknowledges
    the interaction first, with the deferred response; when that callback
    cannot be delivered the route throws its error and requests nothing
    else, as the callback is awaited in front of the [try] block.
    Otherwise it runs [generateAndPostLeaderboard] without a cap and, once
    the run has settled, edits the original response with the embed that
    was posted when the run returned; when the run threw, and also when
    that edit could not be delivered, it writes the error to the console
    and edits the original response with the failure text, flagged
    ephemeral.  The answer is then the empty response, unless the edit
    with the failure text could not be delivered: nothing catches that
    error, and the route throws it. *)
Theorem server_leaderboard_command (i : Interaction) (env : Env) (secrets : Secrets)
    (fuel : nat) (now : Z) (iso : string) :
  let answer := Server.leaderboard lib net portal i env secrets fuel now iso in
  let run := Leaderboard.generateAndPostLeaderboard net fuel env None now iso in
  let applicationId := interp (DISCORD_APPLICATION_ID secrets) in
  let token := interp (interaction_token i) in
  let deferred := DEFERRED_CHANNEL_MESSAGE_WITH_SOURCE lib in
  let posted := "Leaderboard has been posted! 🎉" in
  let failed := "Failed to generate leaderboard. Please try again later." in
  let failure := EditOriginal applicationId token failed None (Some (EPHEMERAL lib)) in
  let reported :=
    match patchOriginal portal applicationId token failed None (Some (EPHEMERAL lib)) with
    | Delivered => Returned emptyResponse
    | Rejected e => Threw e
    end in
  match postCallback portal (interp (interaction_id i)) token deferred with
  | Rejected e => answer = ([Callback (interp (interaction_id i)) token deferred], Threw e)
  | Delivered =>
      exists edits,
        calls answer
        = (Callback (interp (interaction_id i)) token deferred
           :: map Core (trace run) ++ edits)%list /\
        match outcome run with
        | Returned embed =>
            match patchOriginal portal applicationId token posted (Some embed) None with
            | Delivered =>
                edits = [EditOriginal applicationId token posted (Some embed) None] /\
                result answer = Returned emptyResponse
            | Rejected e =>
                edits = [EditOriginal applicationId token posted (Some embed) None;
                         Console true "Error generating leaderboard:" (Some e);
                         failure] /\
                result answer = reported
            end
        | Threw e =>
            edits = [Console true "Error generating leaderboard:" (Some e); failure] /\
            result answer = reported
        | Pending => edits = [] /\ result answer = Pending
        end
  end.
Proof.
  intros answer run applicationId token deferred posted failed failure reported.
  unfold answer, reported, failure, Server.leaderboard, Server.acknowledge,
    Server.editOriginal, Leaderboard.leaderboardCommand, deliver, lift.
  fold run applicationId token deferred posted failed.
  destruct (postCallback portal (interp (interaction_id i)) token deferred);
    [| reflexivity].
  destruct (outcome run) as [embed | e0 |].
  - destruct (patchOriginal portal applicationId token posted (Some embed) None) eqn:Ep;
      cbn [hbind tryCatch call hret calls result fst snd app]; rewrite ?Ep;
      cbn [hbind tryCatch call hret calls result fst snd app].
    + eexists. split; [| now split]. now rewrite app_nil_r.
    + destruct (patchOriginal portal applicationId token failed None
                  (Some (EPHEMERAL lib)));
        cbn [hbind tryCatch call hret calls result fst snd app];
        (eexists; split; [| now split]; now rewrite ?app_nil_r, <- ?app_assoc).
  - destruct (patchOriginal portal applicationId token failed None (Some (EPHEMERAL lib)));
      cbn [hbind tryCatch call hret calls result fst snd app];
      (eexists; split; [| now split]; now rewrite ?app_nil_r, <- ?app_assoc).
  - cbn [hbind tryCatch call hret calls result fst snd app].
    exists []. split; [| now split]. now rewrite !app_nil_r.
Qed.

Lemma leaderboard_result (i : Interaction) (env : Env) (secrets : Secrets)
    (fuel : nat) (now : Z) (iso : string) (r : Reply) :
  result (Server.leaderboard lib net portal i env secrets fuel now iso) = Returned r ->
  r = emptyResponse.
Proof.
  unfold Server.leaderboard. rewrite hbind_result.
  destruct (result (Server.acknowledge lib portal _ _)); try discriminate.
  rewrite hbind_result.
  destruct (result (tryCatch _ _)); try discriminate.
  cbn [hret result snd]. intros H. now injection H.
Qed.

(** X23.  [verifyDiscordRequest] calls nothing and always settles.  It
    reports the request valid exactly when both signature headers are
    present and not empty and the awaited [verifyKey] accepts; only then is
    the body parsed, the parsed value returned as the interaction, and an
    error of [JSON.parse] thrown.  On any other request the interaction is
    undefined and the body is not parsed. *)
Theorem verifyDiscordRequest_valid_iff_signed (request : Server.Request)
    (secrets : Secrets) :
  let verified := Server.verifyDiscordRequest lib host request secrets in
  let signed :=
    truthy_opt (Server.x_signature_ed25519 request)
    && (truthy_opt (Server.x_signature_timestamp request)
        && awaited (verifyKey lib (Server.body request) (Server.x_signature_ed25519 request)
                      (Server.x_signature_timestamp request) (DISCORD_PUBLIC_KEY secrets))) in
  calls verified = [] /\
  result verified <> Pending /\
  (forall v, result verified = Returned v ->
     Server.isValid v = signed /\
     (signed = false -> Server.interaction v = None) /\
     (signed = true ->
      exists value, JSON_parse host (Server.body request) = Parsed value /\
                    Server.interaction v = Some value)) /\
  (forall e, result verified = Threw e <->
             signed = true /\ JSON_parse host (Server.body request) = SyntaxError e).
Proof.
  intros verified signed. unfold verified, Server.verifyDiscordRequest. fold signed.
  destruct signed; cbn [negb].
  - destruct (JSON_parse host (Server.body request)) as [e0 | value];
      cbn [hret hthrow calls result fst snd].
    + split; [reflexivity | split; [discriminate | split]].
      * intros v H. discriminate.
      * intros e. split; [intros H; injection H as <-; now split |].
        intros [_ H]. now injection H as <-.
    + split; [reflexivity | split; [discriminate | split]].
      * intros v H. injection H as <-. cbn [Server.isValid Server.interaction].
        split; [reflexivity | split; [discriminate |]]. intros _. now exists value.
      * intros e. split; [discriminate | intros [_ H]; discriminate].
  - cbn [hret calls result fst snd]. split; [reflexivity | split; [discriminate | split]].
    + intros v H. injection H as <-. cbn [Server.isValid Server.interaction].
      split; [reflexivity | split; [reflexivity | discriminate]].
    + intros e. split; [discriminate | intros [H _]; discriminate].
Qed.

(** X24.  The interactions route of server.js answers 401, and calls
    nothing, exactly when the request is not validly signed or its body
    parses to a falsy value; it calls something only on a signed request
    with a truthy body.  Every answer has the status 200, 400 or 401; an
    answer with the status 400 is the error [Unknown Type], which does not
    carry the content type of JSON although its body is JSON, and an
    answer that carries it has the status 200. *)
Theorem server_interactions_route (request : Server.Request) (env : Env)
    (secrets : Secrets) (fuel : nat) (now : Z) (iso : string) :
  let answer :=
    Server.interactions lib host commands getCuteUrl net portal request env secrets fuel now
      iso in
  let signed :=
    truthy_opt (Server.x_signature_ed25519 request)
    && (truthy_opt (Server.x_signature_timestamp request)
        && awaited (verifyKey lib (Server.body request) (Server.x_signature_ed25519 request)
                      (Server.x_signature_timestamp request) (DISCORD_PUBLIC_KEY secrets))) in
  let rejected :=
    signed = false \/
    exists value, JSON_parse host (Server.body request) = Parsed value /\
                  Server.json_truthy (Some value) = false in
  (rejected -> answer = hret (textResponse 401 "Bad request signature.")) /\
  (calls answer <> [] -> ~ rejected) /\
  (forall r, result answer = Returned r ->
     (reply_status r = 401 <-> rejected) /\
     (reply_status r = 400 -> r = Server.unknownType /\ reply_json r = false) /\
     (reply_json r = true -> reply_status r = 200) /\
     (reply_status r = 200 \/ reply_status r = 400 \/ reply_status r = 401)).
Proof.
  intros answer signed rejected.
  assert (Hrej : rejected <->
                 (signed = false \/
                  exists value, JSON_parse host (Server.body request) = Parsed value /\
                                Server.json_truthy (Some value) = false))
    by reflexivity.
  clearbody rejected.
  unfold answer, Server.interactions, Server.verifyDiscordRequest. fold signed.
  clear answer. clearbody signed.
  assert (Hleaf : forall (made : list Call) (r0 : Reply),
            ~ rejected ->
            (reply_status r0 = 200 /\ (reply_json r0 = true \/ r0 = emptyResponse)) \/
            r0 = Server.unknownType ->
            let answer : Handled Reply := (made, Returned r0) in
            (rejected -> answer = hret (textResponse 401 "Bad request signature.")) /\
            (calls answer <> [] -> ~ rejected) /\
            (forall r, result answer = Returned r ->
               (reply_status r = 401 <-> rejected) /\
               (reply_status r = 400 -> r = Server.unknownType /\ reply_json r = false) /\
               (reply_json r = true -> reply_status r = 200) /\
               (reply_status r = 200 \/ reply_status r = 400 \/ reply_status r = 401))).
  { intros made r0 Hn Hr0 ans. unfold ans. cbn [calls result fst snd].
    split; [intros Hr; contradiction | split; [intros _; exact Hn |]].
    intros r H. injection H as <-.
    destruct Hr0 as [[Hs Hj] | ->].
    - rewrite Hs. repeat split; try discriminate; try tauto; try lia.
    - cbn [Server.unknownType Server.JsonResponse reply_status reply_json].
      repeat split; try discriminate; try tauto; try lia. }
  assert (Hstuck : forall (made : list Call) (o : Outcome Reply),
            ~ rejected -> (forall r, o <> Returned r) ->
            let answer : Handled Reply := (made, o) in
            (rejected -> answer = hret (textResponse 401 "Bad request signature.")) /\
            (calls answer <> [] -> ~ rejected) /\
            (forall r, result answer = Returned r ->
               (reply_status r = 401 <-> rejected) /\
               (reply_status r = 400 -> r = Server.unknownType /\ reply_json r = false) /\
               (reply_json r = true -> reply_status r = 200) /\
               (reply_status r = 200 \/ reply_status r = 400 \/ reply_status r = 401))).
  { intros made o Hn Ho ans. unfold ans. cbn [calls result fst snd].
    split; [intros Hr; contradiction | split; [intros _; exact Hn |]].
    intros r H. now apply Ho in H. }
  assert (Hreject : rejected ->
            let answer : Handled Reply := hret (textResponse 401 "Bad request signature.") in
            (rejected -> answer = hret (textResponse 401 "Bad request signature.")) /\
            (calls answer <> [] -> ~ rejected) /\
            (forall r, result answer = Returned r ->
               (reply_status r = 401 <-> rejected) /\
               (reply_status r = 400 -> r = Server.unknownType /\ reply_json r = false) /\
               (reply_json r = true -> reply_status r = 200) /\
               (reply_status r = 200 \/ reply_status r = 400 \/ reply_status r = 401))).
  { intros Hr ans. unfold ans. cbn [hret calls result fst snd].
    split; [reflexivity | split; [intros H; now contradiction H |]].
    intros r H. injection H as <-. cbn [textResponse reply_status reply_json].
    repeat split; try discriminate; try tauto; try lia. }
  destruct signed; cbn [negb].
  2: { apply Hreject. apply Hrej. now left. }
  destruct (JSON_parse host (Server.body request)) as [e0 | value] eqn:Ej.
  { apply Hstuck; [| discriminate]. rewrite Hrej.
    intros [H | (v & Hv & _)]; discriminate. }
  cbn [hbind hret Server.isValid Server.interaction negb orb app].
  destruct value as [| [|] | i]; cbn [Server.json_truthy negb].
  - apply Hreject. apply Hrej. right. now exists JNull.
  - apply Hleaf; [| now right]. rewrite Hrej.
    intros [H | (v & Hv & Ht)]; [discriminate | injection Hv as <-; discriminate].
  - apply Hreject. apply Hrej. right. now exists (JPrimitive false).
  - assert (Hn : ~ rejected).
    { rewrite Hrej. intros [H | (v & Hv & Ht)];
        [discriminate | injection Hv as <-; discriminate]. }
    destruct (isType (interaction_type i) (PING lib)).
    { apply Hleaf; [exact Hn |]. left. split; [reflexivity | now left]. }
    destruct (isType (interaction_type i) (APPLICATION_COMMAND lib));
      [| apply Hleaf; [exact Hn | now right]].
    destruct (interaction_data i) as [[| s |] |];
      try (apply Hstuck; [exact Hn | discriminate]).
    cbv zeta.
    destruct (toLowerCase host s =? _)%string.
    { destruct getCuteUrl as [url | e1 |];
        cbn [hbind hret calls result fst snd app];
        [ apply Hleaf; [exact Hn |]; left; split; [reflexivity | now left]
        | apply Hstuck; [exact Hn | discriminate]
        | apply Hstuck; [exact Hn | discriminate] ]. }
    destruct (toLowerCase host s =? _)%string.
    { apply Hleaf; [exact Hn |]. left. split; [reflexivity | now left]. }
    destruct (toLowerCase host s =? _)%string; [| apply Hleaf; [exact Hn | now right]].
    pose proof (leaderboard_result i env secrets fuel now iso) as Hres.
    destruct (Server.leaderboard lib net portal i env secrets fuel now iso)
      as [made [r0 | e0 |]]; cbn [result snd] in Hres.
    + rewrite (Hres r0 eq_refl).
      apply Hleaf; [exact Hn |]. left. split; [reflexivity | now right].
    + apply Hstuck; [exact Hn | discriminate].
    + apply Hstuck; [exact Hn | discriminate].
Qed.

End ServerRoutes.

Lemma worker_register_route_witness :
  let request := Sample.get "/register" (Some "s3cret") in
  let h :=
    Handler.fetch (Sample.lib false) Sample.host Fixture.codeUnitCompare Fixture.unreserved
      Fixture.week (Sample.portal false) request Fixture.env Sample.secrets 5 Fixture.now
      "2001-09-09" in
  let res := Fixture.failure 403 "" "Missing Access" in
  calls (Handler.reply h)
  = [PutCommands "Bot token" "app" "guild" Handler.leaderboardCommand res] /\
  map command_name Handler.leaderboardCommand = ["leaderboard"] /\
  result (Handler.reply h)
  = (if ok res then Returned (textResponse 200 "Registered /leaderboard (per-guild).")
     else Threw ("Register failed: " ++ String_of (status res) ++ " " ++ json res)) /\
  Handler.deferred h = hret tt.
Proof.
  intros request h res.
  apply (@worker_register_route (Sample.lib false) Sample.host Fixture.codeUnitCompare
           Fixture.unreserved Fixture.week (Sample.portal false) request Fixture.env
           Sample.secrets 5 Fixture.now "2001-09-09"); try reflexivity.
  exists "s3cret". repeat split. discriminate.
Defined.

(* ================================================================== *)
(** ** The two signature checks *)



(* ================================================================== *)
(** ** The pages of users of one reaction *)

(** X27.  The worker's requests for the users of one reaction are chained
    by cursor: the first carries the cursor it was given, none for a new
    emoji, each further one asks for the users after the last user, bot or
    not, of the page served just before, which was a success and held at
    least 100 users; no request follows a page of fewer than 100 users,
    and none follows a response that is not a success, whatever its body
    holds; all of them name the same message and emoji. *)
Theorem reaction_requests_chained_by_cursor
    (net : Discord) (fuel : nat) (env : Env) (channelId messageId ident : string)
    (after : option string) (users : JsSet) :
  let tr := trace (reactionPages net fuel env channelId messageId ident after users) in
  chainedAfter after tr /\
  Forall (fun ev => exists a res, ev = EvReactions channelId messageId ident a res) tr.
Proof.
  cbv zeta. split.
  - revert after users. induction fuel as [| fuel' IH]; intros after users; [exact I |].
    cbn [reactionPages]. unfold dFetch_reactions. rewrite fetch_bind_trace.
    cbn [chainedAfter]. split; [reflexivity |].
    set (res := getReactions net _ channelId messageId ident (cursor after)).
    destruct (ok res); cbn [negb]; [| reflexivity].
    destruct (json res) as [| u0 batch]; [reflexivity |].
    destruct (List.length (u0 :: batch) <? 100)%nat; [reflexivity | apply IH].
  - apply (reactionPages_requests net env channelId messageId ident).
Qed.
